(** * AIterate: the generate / run / repair loop, its response parsers and
    its session store, embedded from the Go sources.

    - [internal/generator]: [stripCodeBlock], the slug cleaning of
      [GenerateDirectoryName], the joint-repair parser of [FixBoth];
    - [internal/executor]: [RunTests], [PrepareWorkspace];
    - [internal/storage]: [CreateSession], [GetSession], [AddIteration];
    - [cmd]: [runNew], [writeFiles], [copyFinalFiles].

    Go strings are modelled as sequences of Unicode code points (the runes
    that a [range] loop over valid UTF-8 yields); the separators the code
    searches for are ASCII, so a search on bytes and a search on runes find
    the same places. *)

From Stdlib Require Import ZArith Lia.
From stdpp Require Import base decidable option list numbers strings gmap.
From Equations Require Import Equations.

Local Open Scope Z_scope.

(** ** Go's [strings] package *)

Module Strings.

Abbreviation rune := Z (only parsing).
Abbreviation gostring := (list Z) (only parsing).

(** A literal of the source, as runes. *)
Definition runes (s : String.string) : gostring :=
  (fun c => Z.of_nat (Ascii.nat_of_ascii c)) <$> String.list_ascii_of_string s.
Arguments runes s%_string.

(** [unicode.IsSpace]: the White_Space property. *)
Definition IsSpace (r : rune) : bool :=
  ((9 <=? r) && (r <=? 13)) || (r =? 32) || (r =? 133) || (r =? 160)
  || (r =? 5760) || ((8192 <=? r) && (r <=? 8202))
  || (r =? 8232) || (r =? 8233) || (r =? 8239) || (r =? 8287) || (r =? 12288).

Fixpoint TrimLeftFunc (f : rune -> bool) (s : gostring) : gostring :=
  match s with
  | [] => []
  | c :: s' => if f c then TrimLeftFunc f s' else s
  end.

Definition TrimRightFunc (f : rune -> bool) (s : gostring) : gostring :=
  reverse (TrimLeftFunc f (reverse s)).

Definition TrimFunc (f : rune -> bool) (s : gostring) : gostring :=
  TrimRightFunc f (TrimLeftFunc f s).

Definition TrimSpace (s : gostring) : gostring := TrimFunc IsSpace s.

(** [strings.Trim(s, cutset)] *)
Definition Trim (s cutset : gostring) : gostring :=
  TrimFunc (fun r => bool_decide (r ∈ cutset)) s.

Fixpoint HasPrefix (s prefix : gostring) {struct prefix} : bool :=
  match prefix, s with
  | [], _ => true
  | _ :: _, [] => false
  | p :: prefix', c :: s' => (c =? p) && HasPrefix s' prefix'
  end.

(** [strings.Index]: the position of the first occurrence, [None] for -1. *)
Fixpoint Index (s substr : gostring) : option nat :=
  if HasPrefix s substr then Some 0%nat
  else match s with
       | [] => None
       | _ :: s' => S <$> Index s' substr
       end.

Definition Contains (s substr : gostring) : bool :=
  bool_decide (is_Some (Index s substr)).

(** A value together with the equation that says where it comes from. *)
Definition inspect {A : Type} (x : A) : { y : A | x = y } := exist _ x eq_refl.

Lemma Index_Some_nonempty (s : gostring) (c : rune) (sep : gostring) (m : nat) :
  Index s (c :: sep) = Some m -> s <> [].
Proof. destruct s; [discriminate | done]. Qed.

Lemma cut_shorter (s : gostring) (c : rune) (sep : gostring) (m : nat) :
  s <> [] -> (length (drop (m + length (c :: sep)) s) < length s)%nat.
Proof.
  intros Hs. rewrite length_drop. destruct s; [done |]. simpl. lia.
Qed.

(** [strings.Split(s, sep)]: the loop of [genSplit], which cuts at the first
    occurrence of [sep] and goes on with what follows it; an empty [sep]
    explodes [s] into its runes. *)
Equations? Split (s sep : gostring) : list gostring by wf (length s) lt :=
  Split s [] := (fun c => [c]) <$> s;
  Split s (c :: sep) with inspect (Index s (c :: sep)) => {
    | exist _ (Some m) H := take m s :: Split (drop (m + length (c :: sep)) s) (c :: sep);
    | exist _ None _ := [s] }.
Proof.
  exact (cut_shorter s c sep m (Index_Some_nonempty s c sep m H)).
Qed.

(** [strings.Join] *)
Fixpoint Join (elems : list gostring) (sep : gostring) : gostring :=
  match elems with
  | [] => []
  | x :: rest =>
      match rest with
      | [] => x
      | _ :: _ => x ++ sep ++ Join rest sep
      end
  end.

(** [strings.ReplaceAll(s, old, new)] for a non-empty [old]: every
    non-overlapping occurrence, leftmost first. With an empty [old] Go
    inserts [new] around every rune. *)
Equations? ReplaceAll (s old new : gostring) : gostring by wf (length s) lt :=
  ReplaceAll s [] new := new ++ concat ((fun c => c :: new) <$> s);
  ReplaceAll s (c :: old) new with inspect (Index s (c :: old)) => {
    | exist _ (Some m) H :=
        take m s ++ new ++ ReplaceAll (drop (m + length (c :: old)) s) (c :: old) new;
    | exist _ None _ := s }.
Proof.
  exact (cut_shorter s c old m (Index_Some_nonempty s c old m H)).
Qed.

(** The two loops, unfolded once. *)
Lemma Split_step (s : gostring) (c : rune) (sep : gostring) :
  Split s (c :: sep) =
  match Index s (c :: sep) with
  | Some m => take m s :: Split (drop (m + length (c :: sep)) s) (c :: sep)
  | None => [s]
  end.
Proof.
  rewrite Split_equation_2. generalize (inspect (Index s (c :: sep))).
  intros [[m |] H];
    [rewrite Split_clause_2_equation_1 | rewrite Split_clause_2_equation_2];
    rewrite H; reflexivity.
Qed.

Lemma ReplaceAll_step (s : gostring) (c : rune) (old new : gostring) :
  ReplaceAll s (c :: old) new =
  match Index s (c :: old) with
  | Some m => take m s ++ new ++ ReplaceAll (drop (m + length (c :: old)) s) (c :: old) new
  | None => s
  end.
Proof.
  rewrite ReplaceAll_equation_2. generalize (inspect (Index s (c :: old))).
  intros [[m |] H];
    [rewrite ReplaceAll_clause_2_equation_1 | rewrite ReplaceAll_clause_2_equation_2];
    rewrite H; reflexivity.
Qed.

(** Induction on the length of a string, for the two loops above. *)
Lemma length_ind (P : gostring -> Prop) :
  (forall s, (forall t, (length t < length s)%nat -> P t) -> P s) ->
  forall s, P s.
Proof.
  intros step s. remember (length s) as n eqn:Hn.
  revert s Hn. induction n as [n IH] using lt_wf_ind.
  intros s ->. apply step. intros t Ht. exact (IH _ Ht t eq_refl).
Qed.

Lemma HasPrefix_length (s p : gostring) :
  HasPrefix s p = true -> (length p <= length s)%nat.
Proof.
  revert s. induction p as [| x p IH]; intros [| y s]; simpl; try lia; try discriminate.
  intros [_ Hp]%andb_prop. specialize (IH _ Hp). lia.
Qed.

Lemma Index_bound (s sub : gostring) (m : nat) :
  Index s sub = Some m -> (m + length sub <= length s)%nat.
Proof.
  revert m. induction s as [| a s IH]; intros m; cbn [Index].
  - destruct (HasPrefix [] sub) eqn:Hp; [| discriminate].
    intros [= <-]. apply HasPrefix_length in Hp. lia.
  - destruct (HasPrefix (a :: s) sub) eqn:Hp.
    + intros [= <-]. apply HasPrefix_length in Hp. lia.
    + destruct (Index s sub) as [k |]; [| discriminate].
      intros [= <-]. specialize (IH _ eq_refl). simpl. lia.
Qed.

Lemma ReplaceAll_length_le (c : rune) (old new s : gostring) :
  (length new <= length (c :: old))%nat ->
  (length (ReplaceAll s (c :: old) new) <= length s)%nat.
Proof.
  intros Hlen. induction s as [s IH] using length_ind.
  rewrite ReplaceAll_step. destruct (Index s (c :: old)) as [m |] eqn:Hm; [| lia].
  pose proof (Index_bound _ _ _ Hm) as Hb.
  assert (Hd : (length (drop (m + length (c :: old)) s) < length s)%nat).
  { rewrite length_drop. simpl in *. lia. }
  specialize (IH _ Hd). rewrite length_drop in IH.
  rewrite !length_app, length_take. lia.
Qed.

Lemma ReplaceAll_shorter (c : rune) (old new s : gostring) :
  (length new < length (c :: old))%nat ->
  Contains s (c :: old) = true ->
  (length (ReplaceAll s (c :: old) new) < length s)%nat.
Proof.
  intros Hlen [m Hm]%bool_decide_eq_true.
  rewrite ReplaceAll_step, Hm.
  pose proof (Index_bound _ _ _ Hm) as Hb.
  pose proof (ReplaceAll_length_le c old new (drop (m + length (c :: old)) s)
                ltac:(lia)) as Hle.
  rewrite length_drop in Hle.
  rewrite !length_app, length_take. lia.
Qed.

(** What [utf8.AppendRune] writes for a rune: the replacement character
    U+FFFD for a surrogate or a value past U+10FFFF. *)
Definition encodeRune (r : rune) : rune :=
  if (1114111 <? r) || ((55296 <=? r) && (r <=? 57343)) then 65533 else r.

(** [strings.Map]: a negative result drops the rune. *)
Definition Map (mapping : rune -> rune) (s : gostring) : gostring :=
  encodeRune <$> filter (fun r => 0 <= r) (mapping <$> s).

(** [strings.ToLower]; [unicodeToLower] is the case table of the [unicode]
    package, used past ASCII. *)
Definition toLowerRune (unicodeToLower : rune -> rune) (r : rune) : rune :=
  if (65 <=? r) && (r <=? 90) then r + 32
  else if r <? 128 then r
  else unicodeToLower r.

Definition ToLower (unicodeToLower : rune -> rune) (s : gostring) : gostring :=
  Map (toLowerRune unicodeToLower) s.

End Strings.

Import Strings.

(** ** Errors, the outside world and the effects of the program *)

Module Effects.

(** A Go [error]: made by [fmt.Errorf] from a format (the arguments of the
    format are left out), wrapping another error with [%w], or returned by
    the operating system or a library. *)
Inductive error :=
| Errorf (msg : string)
| Wrapf (msg : string) (cause : error)
| OSError (op : string).

(** How [cmd.Run()] ended: the process could not be started, or it ran and
    exited with a status. *)
Inductive runStatus :=
| LaunchFailed
| Exited (code : Z).

Record processResult := {
  status : runStatus;
  stdout : gostring;
  stderr : gostring
}.

(** [cmd.Run()] returns [nil] for a process that ran and exited with 0. *)
Definition runErr (r : processResult) : option error :=
  match status r with
  | Exited 0 => None
  | Exited _ => Some (OSError "exit status")
  | LaunchFailed => Some (OSError "exec")
  end.

(** The prompts that the generators build with [fmt.Sprintf]; what is
    kept of a prompt is what it is made from. *)
Inductive Prompt :=
| PromptTests (description language : gostring)
| PromptImplementation (testCode language : gostring)
| PromptFixImplementation (currentCode testCode testOutput language : gostring)
| PromptDirectoryName (description : gostring)
| PromptFixBoth (currentCode currentTestCode testOutput language : gostring).

(** The commands that the program builds with [exec.Command]. *)
Inductive Command :=
| GoTest            (* go test -v ./... *)
| PyTest            (* python -m pytest main_test.py -v *)
| GoModInit         (* go mod init temp *)
| GoModTidy         (* go mod tidy *)
| GoGet (pkg : gostring)  (* go get pkg *)
| PipInstall.       (* pip install -r requirements.txt *)

(** What the program does to the outside, in order. *)
Inductive Event :=
| EvCompletion (p : Prompt)
| EvRun (c : Command) (dir : gostring) (st : runStatus)
| EvMkdirTemp (dir : gostring)
| EvRemoveAll (dir : gostring)
| EvMkdirAll (dir : gostring)
| EvWriteFile (dir name content : gostring)
| EvReadFile (dir name : gostring).

(** A run of the tests, and one that passed. *)
Definition isTestRun (e : Event) : bool :=
  match e with
  | EvRun GoTest _ _ | EvRun PyTest _ _ => true
  | _ => false
  end.

Definition exitedZero (st : runStatus) : bool :=
  match st with
  | Exited 0 => true
  | _ => false
  end.

Definition isTestPass (e : Event) : bool :=
  match e with
  | EvRun GoTest _ st | EvRun PyTest _ st => exitedZero st
  | _ => false
  end.

Definition isRemoveAll (e : Event) : bool :=
  match e with
  | EvRemoveAll _ => true
  | _ => false
  end.

Definition isCompletion (e : Event) : bool :=
  match e with
  | EvCompletion _ => true
  | _ => false
  end.

(** The outside world: what the n-th completion request answers, how the
    n-th process ends, whether the n-th call of the file system succeeds,
    the identifiers and the times handed out, and the tables of the
    libraries that are not part of the repository. *)
Record Env := {
  hasApiKey : bool;
  hasHomeDir : bool;
  completion : nat -> Prompt -> error + gostring;
  process : nat -> processResult;
  fileOk : nat -> bool;
  newUUID : nat -> gostring;
  tempName : nat -> gostring;
  clock : nat -> Z;
  unicodeToLower : rune -> rune;
  (* the import paths that the regular expression of [UpdateDependencies]
     finds and that are not standard packages; [None] when nothing matches *)
  externalImports : gostring -> option (list gostring)
}.

End Effects.

Import Effects.

(** ** internal/generator: cleaning of model responses *)

Module Generator.

Definition fence : gostring := Eval vm_compute in runes "```".
Definition newline : gostring := [10].
Definition hyphen : rune := 45.

(** The backwards loop of [stripCodeBlock]
    [for i := len(lines) - 1; i >= 0; i-- { if TrimSpace(lines[i]) == fence ... }]:
    [closingFence lines n] inspects the indices [n-1], ..., [0] and returns
    the first one (the greatest) whose line is a fence. *)
Fixpoint closingFence (lines : list gostring) (n : nat) : option nat :=
  match n with
  | O => None
  | S i =>
      match lines !! i with
      | Some l => if bool_decide (TrimSpace l = fence) then Some i
                  else closingFence lines i
      | None => closingFence lines i
      end
  end.

Definition stripCodeBlock (code : gostring) : gostring :=
  let code := TrimSpace code in
  if HasPrefix code fence then
    let lines := Split code newline in
    if bool_decide (length lines <= 1)%nat then []
    else
      let lines := drop 1 lines in
      let lines :=
        match closingFence lines (length lines) with
        | Some i => take i lines
        | None => lines
        end in
      TrimSpace (Join lines newline)
  else TrimSpace code.

(** *** [GenerateDirectoryName]: the cleaning of the generated name *)

(** The function given to [strings.Map]. *)
Definition slugRune (r : rune) : rune :=
  if ((97 <=? r) && (r <=? 122)) || ((48 <=? r) && (r <=? 57)) || (r =? hyphen)
  then r else hyphen.

(** [for strings.Contains(name, "--") { name = strings.ReplaceAll(name, "--", "-") }] *)
Equations? collapseHyphens (name : gostring) : gostring by wf (length name) lt :=
  collapseHyphens name with inspect (Contains name [hyphen; hyphen]) => {
    | exist _ true H := collapseHyphens (ReplaceAll name [hyphen; hyphen] [hyphen]);
    | exist _ false _ := name }.
Proof.
  apply ReplaceAll_shorter; [simpl; lia | exact H].
Qed.

(** The cleaning that [GenerateDirectoryName] applies to the completion it
    received, up to its [return name, nil]. *)
Definition cleanDirectoryName (unicodeToLower : rune -> rune) (name : gostring)
  : gostring :=
  let name := stripCodeBlock name in
  let name := ToLower unicodeToLower (TrimSpace name) in
  let name := Map slugRune name in
  let name := collapseHyphens name in
  let name := Trim name [hyphen] in
  match name with
  | c :: _ => if negb ((97 <=? c) && (c <=? 122)) then runes "fn-" ++ name else name
  | [] => name
  end.

(** *** [FixBoth]: the parser of the joint repair response *)

Record FixResult := { TestCode : gostring; Code : gostring }.

(** The [for i, part := range parts] loop: [scanParts parts i acc] visits
    the parts from index [i] on; [acc] holds [implementation] and [tests]. *)
Fixpoint scanParts (parts : list gostring) (rest : list gostring) (i : nat)
    (acc : gostring * gostring) : gostring * gostring :=
  match rest with
  | [] => acc
  | part :: rest' =>
      let part := TrimSpace part in
      let acc :=
        if bool_decide (part = runes "IMPLEMENTATION") then
          match parts !! (i + 1)%nat with
          | Some next => (stripCodeBlock next, acc.2)
          | None => acc
          end
        else if bool_decide (part = runes "TESTS") then
          match parts !! (i + 1)%nat with
          | Some next => (acc.1, stripCodeBlock next)
          | None => acc
          end
        else acc in
      scanParts parts rest' (S i) acc
  end.

(** [FixBoth] from the completion on. *)
Definition parseFixResponse (response : gostring) : error + FixResult :=
  let parts := Split response (runes "---") in
  if bool_decide (length parts < 5)%nat then
    inl (Errorf "invalid response format from AI")
  else
    let '(implementation, tests) := scanParts parts parts 0 ([], []) in
    if bool_decide (implementation = []) || bool_decide (tests = []) then
      inl (Errorf "failed to extract implementation or test code")
    else inr {| TestCode := tests; Code := implementation |}.

End Generator.

Import Generator.

(** ** internal/storage: the records *)

Module Storage.

Record Iteration := {
  Number : Z;
  TestCode : gostring;
  Code : gostring;
  TestLogs : gostring;
  Success : bool;
  Timestamp : Z
}.

Record Session := {
  ID : gostring;
  Description : gostring;
  Language : gostring;
  Iterations : list Iteration;
  CreatedAt : Z;
  UpdatedAt : Z
}.

End Storage.

(** ** The state of the outside world and the monad of the program *)

Module Sys.

(** How many requests of each kind the outside world has answered. *)
Record Counters := {
  nCompletion : nat;
  nProcess : nat;
  nFileOp : nat;
  nUUID : nat;
  nTemp : nat;
  nClock : nat
}.

(** The file system and the counters. In the storage directory: the
    session directories that exist and the [session.json] of each, held as
    the record that [json.Unmarshal] reads back from what
    [json.MarshalIndent] wrote. Outside it: the temporary directories that
    exist, and the files written, by directory and name. *)
Record World := {
  sessionDirs : gset gostring;
  sessionFiles : gmap gostring Storage.Session;
  tempDirs : gset gostring;
  files : gmap (gostring * gostring) gostring;
  counters : Counters
}.

Definition setCounters (w : World) (c : Counters) : World :=
  {| sessionDirs := sessionDirs w; sessionFiles := sessionFiles w;
     tempDirs := tempDirs w; files := files w; counters := c |}.

Definition tickCompletion (w : World) : World :=
  let c := counters w in
  setCounters w {| nCompletion := S (nCompletion c); nProcess := nProcess c;
                   nFileOp := nFileOp c; nUUID := nUUID c;
                   nTemp := nTemp c; nClock := nClock c |}.

Definition tickProcess (w : World) : World :=
  let c := counters w in
  setCounters w {| nCompletion := nCompletion c; nProcess := S (nProcess c);
                   nFileOp := nFileOp c; nUUID := nUUID c;
                   nTemp := nTemp c; nClock := nClock c |}.

Definition tickFileOp (w : World) : World :=
  let c := counters w in
  setCounters w {| nCompletion := nCompletion c; nProcess := nProcess c;
                   nFileOp := S (nFileOp c); nUUID := nUUID c;
                   nTemp := nTemp c; nClock := nClock c |}.

Definition tickUUID (w : World) : World :=
  let c := counters w in
  setCounters w {| nCompletion := nCompletion c; nProcess := nProcess c;
                   nFileOp := nFileOp c; nUUID := S (nUUID c);
                   nTemp := nTemp c; nClock := nClock c |}.

Definition tickTemp (w : World) : World :=
  let c := counters w in
  setCounters w {| nCompletion := nCompletion c; nProcess := nProcess c;
                   nFileOp := nFileOp c; nUUID := nUUID c;
                   nTemp := S (nTemp c); nClock := nClock c |}.

Definition tickClock (w : World) : World :=
  let c := counters w in
  setCounters w {| nCompletion := nCompletion c; nProcess := nProcess c;
                   nFileOp := nFileOp c; nUUID := nUUID c;
                   nTemp := nTemp c; nClock := S (nClock c) |}.

Definition setStorage (w : World) (dirs : gset gostring)
    (sessions : gmap gostring Storage.Session) : World :=
  {| sessionDirs := dirs; sessionFiles := sessions;
     tempDirs := tempDirs w; files := files w; counters := counters w |}.

Definition setFiles (w : World) (temps : gset gostring)
    (fs : gmap (gostring * gostring) gostring) : World :=
  {| sessionDirs := sessionDirs w; sessionFiles := sessionFiles w;
     tempDirs := temps; files := fs; counters := counters w |}.

(** A computation: from a world to a result or an error, the next world
    and the events it caused. *)
Definition M (A : Type) : Type := World -> (error + A) * World * list Event.

Definition ret {A : Type} (a : A) : M A := fun w => (inr a, w, []).

(** [return ..., err] *)
Definition fail {A : Type} (e : error) : M A := fun w => (inl e, w, []).

Definition bind {A B : Type} (c : M A) (k : A -> M B) : M B :=
  fun w =>
    let '(r, w1, t1) := c w in
    match r with
    | inl e => (inl e, w1, t1)
    | inr a => let '(r2, w2, t2) := k a w1 in (r2, w2, t1 ++ t2)
    end.

(** [x, err := f(...)]: the caller looks at the error itself. *)
Definition try {A : Type} (c : M A) : M (error + A) :=
  fun w => let '(r, w1, t1) := c w in (inr r, w1, t1).

(** [if err != nil { return fmt.Errorf("msg: %w", err) }] *)
Definition wrapf {A : Type} (msg : string) (c : M A) : M A :=
  fun w =>
    let '(r, w1, t1) := c w in
    (match r with inl e => inl (Wrapf msg e) | inr a => inr a end, w1, t1).

(** [defer cleanup]: [cleanup] runs when [body] returns, whatever it
    returns. *)
Definition defer {A : Type} (cleanup : M unit) (body : M A) : M A :=
  fun w =>
    let '(r, w1, t1) := body w in
    let '(_, w2, t2) := cleanup w1 in
    (r, w2, t1 ++ t2).

Definition emit (e : Event) : M unit := fun w => (inr tt, w, [e]).

(** The three parts of a run. *)
Definition resOf {A : Type} (c : M A) (w : World) : error + A := (c w).1.1.
Definition worldOf {A : Type} (c : M A) (w : World) : World := (c w).1.2.
Definition logOf {A : Type} (c : M A) (w : World) : list Event := (c w).2.

Definition getWorld : M World := fun w => (inr w, w, []).

Definition putWorld (w' : World) : M unit := fun _ => (inr tt, w', []).

Declare Scope prog_scope.
Delimit Scope prog_scope with prog.
Bind Scope prog_scope with M.

Notation "x <- c ;; k" := (bind c (fun x => k))
  (at level 20, c at level 99, k at level 200, only parsing) : prog_scope.
Notation "'run' c ;; k" := (bind c (fun _ => k))
  (at level 20, c at level 99, k at level 200, only parsing) : prog_scope.

End Sys.

Import Sys.
Local Open Scope prog_scope.

(** ** The program *)

Section Program.

Context (env : Env).

(** *** What the program asks of the outside world *)

(** The next call of the file system: does it succeed. *)
Definition fileCall : M bool :=
  fun w => (inr (fileOk env (nFileOp (counters w))), tickFileOp w, []).

(** [time.Now()] *)
Definition Now : M Z :=
  fun w => (inr (clock env (nClock (counters w))), tickClock w, []).

(** [uuid.New().String()] *)
Definition NewUUID : M gostring :=
  fun w => (inr (newUUID env (nUUID (counters w))), tickUUID w, []).

(** internal/ai: [GenerateCompletion] *)
Definition GenerateCompletion (prompt : Prompt) : M gostring :=
  fun w =>
    (completion env (nCompletion (counters w)) prompt, tickCompletion w,
     [EvCompletion prompt]).

(** [cmd.Dir = dir; err := cmd.Run()] with both streams captured. The
    files of the world are those that the program writes itself: what a
    process does to the files is not part of the model. *)
Definition cmdRun (cmd : Command) (dir : gostring) : M processResult :=
  fun w =>
    let r := process env (nProcess (counters w)) in
    (inr r, tickProcess w, [EvRun cmd dir (status r)]).

(** [os.MkdirTemp("", "aiterate-*")] *)
Definition MkdirTemp : M gostring :=
  ok <- fileCall ;;
  if ok then
    fun w =>
      let dir := tempName env (nTemp (counters w)) in
      (inr dir, setFiles (tickTemp w) ({[ dir ]} ∪ tempDirs w) (files w),
       [EvMkdirTemp dir])
  else fail (OSError "mkdirtemp").

(** [os.RemoveAll(dir)]: the directory and what is in it are gone. The
    program never looks at the error of this call, and the call is taken
    to succeed. *)
Definition RemoveAll (dir : gostring) : M unit :=
  fun w =>
    (inr tt,
     setFiles w (tempDirs w ∖ {[ dir ]})
       (filter (fun kv => kv.1.1 <> dir) (files w)),
     [EvRemoveAll dir]).

(** [os.WriteFile(filepath.Join(dir, name), content, 0644)] outside the
    storage directory. *)
Definition WriteFile (dir name content : gostring) : M unit :=
  ok <- fileCall ;;
  if ok then
    fun w =>
      (inr tt, setFiles w (tempDirs w) (<[(dir, name) := content]> (files w)),
       [EvWriteFile dir name content])
  else fail (OSError "write").

(** [os.ReadFile(filepath.Join(dir, name))] outside the storage directory. *)
Definition ReadFile (dir name : gostring) : M gostring :=
  ok <- fileCall ;;
  w <- getWorld ;;
  match (if ok then files w !! (dir, name) else None) with
  | Some data => run emit (EvReadFile dir name) ;; ret data
  | None => fail (OSError "read")
  end.

(** [os.MkdirAll(dir, 0755)] outside the storage directory. *)
Definition MkdirAll (dir : gostring) : M unit :=
  ok <- fileCall ;;
  if ok then emit (EvMkdirAll dir) else fail (OSError "mkdir").

(** *** internal/storage *)

(** [saveSession]: the whole record is written over [session.json] in the
    directory of [session.ID]; the write fails when that directory does not
    exist. A failed write is taken to leave the file as it was. *)
Definition saveSession (session : Storage.Session) : M unit :=
  ok <- fileCall ;;
  w <- getWorld ;;
  if ok && bool_decide (Storage.ID session ∈ sessionDirs w) then
    putWorld (setStorage w (sessionDirs w)
                (<[Storage.ID session := session]> (sessionFiles w)))
  else fail (Wrapf "failed to save session data: %w" (OSError "write")).

Definition GetSession (sessionID : gostring) : M Storage.Session :=
  ok <- fileCall ;;
  w <- getWorld ;;
  match (if ok then sessionFiles w !! sessionID else None) with
  | Some session => ret session
  | None => fail (Wrapf "failed to read session: %w" (OSError "read"))
  end.

Definition CreateSession (description language : gostring) : M Storage.Session :=
  id <- NewUUID ;;
  created <- Now ;;
  updated <- Now ;;
  let session := {| Storage.ID := id;
                    Storage.Description := description;
                    Storage.Language := language;
                    Storage.Iterations := [];
                    Storage.CreatedAt := created;
                    Storage.UpdatedAt := updated |} in
  ok <- fileCall ;;
  if ok then
    w <- getWorld ;;
    run putWorld (setStorage w ({[ id ]} ∪ sessionDirs w) (sessionFiles w)) ;;
    run saveSession session ;;
    ret session
  else fail (Wrapf "failed to create session directory: %w" (OSError "mkdir")).

Definition AddIteration (sessionID testCode code testLogs : gostring) (success : bool)
  : M unit :=
  session <- GetSession sessionID ;;
  stamp <- Now ;;
  let iteration := {| Storage.Number := Z.of_nat (length (Storage.Iterations session)) + 1;
                      Storage.TestCode := testCode;
                      Storage.Code := code;
                      Storage.TestLogs := testLogs;
                      Storage.Success := success;
                      Storage.Timestamp := stamp |} in
  updated <- Now ;;
  saveSession {| Storage.ID := Storage.ID session;
                 Storage.Description := Storage.Description session;
                 Storage.Language := Storage.Language session;
                 Storage.Iterations := Storage.Iterations session ++ [iteration];
                 Storage.CreatedAt := Storage.CreatedAt session;
                 Storage.UpdatedAt := updated |}.

(** *** internal/generator: the calls of the model *)

Definition GenerateTests (description language : gostring) : M gostring :=
  code <- GenerateCompletion (PromptTests description language) ;;
  ret (stripCodeBlock code).

Definition GenerateImplementation (description testCode language : gostring)
  : M gostring :=
  code <- GenerateCompletion (PromptImplementation testCode language) ;;
  ret (stripCodeBlock code).

Definition FixImplementation (currentCode testCode testOutput language : gostring)
  : M gostring :=
  code <- GenerateCompletion
            (PromptFixImplementation currentCode testCode testOutput language) ;;
  ret (stripCodeBlock code).

Definition GenerateDirectoryName (description : gostring) : M gostring :=
  name <- GenerateCompletion (PromptDirectoryName description) ;;
  ret (cleanDirectoryName (unicodeToLower env) name).

Definition FixBoth (currentCode currentTestCode testOutput language : gostring)
  : M FixResult :=
  response <- GenerateCompletion
                (PromptFixBoth currentCode currentTestCode testOutput language) ;;
  match parseFixResponse response with
  | inl e => fail e
  | inr r => ret r
  end.

(** *** internal/executor *)

Record TestResult := { Passed : bool; Output : gostring }.

Definition RunTests (workDir language : gostring) : M TestResult :=
  cmd <- (if bool_decide (language = runes "go") then ret GoTest
          else if bool_decide (language = runes "python") then ret PyTest
          else fail (Errorf "unsupported language: %s")) ;;
  r <- cmdRun cmd workDir ;;
  let output := stdout r ++ stderr r in
  match runErr r with
  | Some _ => ret {| Passed := false; Output := output |}
  | None => ret {| Passed := true; Output := output |}
  end.

Definition initGoModule (dir : gostring) : M unit :=
  r <- cmdRun GoModInit dir ;;
  match runErr r with
  | Some e => fail e
  | None => ret tt
  end.

Definition initPythonEnv (dir : gostring) : M unit :=
  run wrapf "failed to create requirements.txt: %w"
        (WriteFile dir (runes "requirements.txt") (runes "pytest>=7.0.0" ++ newline)) ;;
  r <- cmdRun PipInstall dir ;;
  match runErr r with
  | Some e => fail (Errorf "failed to install Python requirements: %v\nOutput: %s\nError: %s")
  | None => ret tt
  end.

(** The [go.mod] that [PrepareWorkspace] writes. *)
Definition goMod : gostring :=
  runes "module temp" ++ newline ++ newline ++ runes "go 1.21" ++ newline ++ newline
  ++ runes "require (" ++ newline ++ [9] ++ runes "github.com/stretchr/testify v1.8.4"
  ++ newline ++ runes ")" ++ newline.

Definition PrepareWorkspace (language : gostring) : M gostring :=
  tmpDir <- wrapf "failed to create workspace: %w" MkdirTemp ;;
  if bool_decide (language = runes "go") then
    r <- try (initGoModule tmpDir) ;;
    match r with
    | inl e => run RemoveAll tmpDir ;; fail e
    | inr _ =>
        r <- try (WriteFile tmpDir (runes "go.mod") goMod) ;;
        match r with
        | inl e => run RemoveAll tmpDir ;; fail (Wrapf "failed to write go.mod: %w" e)
        | inr _ =>
            r <- cmdRun GoModTidy tmpDir ;;
            match runErr r with
            | Some e => run RemoveAll tmpDir ;; fail e
            | None => ret tmpDir
            end
        end
    end
  else if bool_decide (language = runes "python") then
    r <- try (initPythonEnv tmpDir) ;;
    match r with
    | inl e => fail e
    | inr _ => ret tmpDir
    end
  else ret tmpDir.

(** The [for pkg := range imports] loop of [UpdateDependencies]. *)
Fixpoint goGetAll (workDir : gostring) (pkgs : list gostring) : M unit :=
  match pkgs with
  | [] => ret tt
  | pkg :: pkgs' =>
      r <- cmdRun (GoGet pkg) workDir ;;
      match runErr r with
      | Some e => fail (Wrapf "failed to add dependency %s: %w" e)
      | None => goGetAll workDir pkgs'
      end
  end.

(** [UpdateDependencies]. Which packages the regular expression finds,
    and the order in which Go ranges over the map of the imports, are left
    to the outside world ([externalImports]). *)
Definition UpdateDependencies (workDir code testCode : gostring) : M unit :=
  let allCode := code ++ newline ++ testCode in
  match externalImports env allCode with
  | None => ret tt
  | Some pkgs =>
      run goGetAll workDir pkgs ;;
      r <- cmdRun GoModTidy workDir ;;
      match runErr r with
      | Some e => fail (Wrapf "failed to run go mod tidy: %w" e)
      | None => ret tt
      end
  end.

(** *** cmd *)

Definition maxIterations : nat := 5.

Definition supportedLanguages (language : gostring) : bool :=
  bool_decide (language = runes "go") || bool_decide (language = runes "python").

Definition getFileExtension (language : gostring) : gostring :=
  if bool_decide (language = runes "python") then runes "py"
  else if bool_decide (language = runes "go") then runes "go"
  else [].

Definition writeFiles (dir testCode code language : gostring) : M unit :=
  let ext := getFileExtension language in
  if bool_decide (ext = []) then fail (Errorf "unsupported language: %s")
  else
    run wrapf "failed to write test file: %w"
          (WriteFile dir (runes "main_test." ++ ext) testCode) ;;
    run wrapf "failed to write implementation file: %w"
          (WriteFile dir (runes "main." ++ ext) code) ;;
    if bool_decide (language = runes "go") then
      wrapf "failed to update dependencies: %w" (UpdateDependencies dir code testCode)
    else ret tt.

(** The [for _, file := range files] loop of [copyFinalFiles]. *)
Fixpoint copyEach (srcDir dstDir : gostring) (files : list gostring) : M unit :=
  match files with
  | [] => ret tt
  | file :: files' =>
      data <- wrapf "failed to read %s: %w" (ReadFile srcDir file) ;;
      run wrapf "failed to write %s: %w" (WriteFile dstDir file data) ;;
      copyEach srcDir dstDir files'
  end.

Definition copyFinalFiles (srcDir dstDir language : gostring) : M unit :=
  let ext := getFileExtension language in
  if bool_decide (ext = []) then fail (Errorf "unsupported language: %s")
  else copyEach srcDir dstDir [runes "main_test." ++ ext; runes "main." ++ ext].

(** The iteration loop of [runNew],
    [for i := 0; i < maxIterations; i++ { ... }]; [remaining] is
    [maxIterations - i]. It returns [success]. *)
Fixpoint iterationLoop (sessionID workDir language : gostring) (remaining : nat)
    (testCode code : gostring) : M bool :=
  match remaining with
  | O => ret false
  | S remaining' =>
      result <- wrapf "failed to run tests: %w" (RunTests workDir language) ;;
      run wrapf "failed to store iteration: %w"
            (AddIteration sessionID testCode code (Output result) (Passed result)) ;;
      if Passed result then ret true
      else
        fixResult <- wrapf "failed to fix code: %w"
                       (FixBoth code testCode (Output result) language) ;;
        let code := Generator.Code fixResult in
        let testCode := Generator.TestCode fixResult in
        run wrapf "failed to write files: %w" (writeFiles workDir testCode code language) ;;
        iterationLoop sessionID workDir language remaining' testCode code
  end.

(** [storage.NewStorage]: [os.MkdirAll(baseDir, 0755)]. The storage
    directory itself is not part of the world: the call counts as one
    call of the file system and leaves no event. *)
Definition NewStorage : M unit :=
  ok <- fileCall ;;
  if ok then ret tt
  else fail (Wrapf "failed to create storage directory: %w" (OSError "mkdir")).

(** [runNew], from the description (the argument or the line read) and the
    line read for the language. Where the source returns [nil], the value
    is that of its variable [success]. *)
Definition runNew (description languageLine : gostring) : M bool :=
  if negb (hasApiKey env) then
    fail (Wrapf "failed to initialize AI client: %w"
            (Errorf "OPENAI_API_KEY environment variable is not set"))
  else if negb (hasHomeDir env) then
    fail (Wrapf "failed to get home directory: %w" (OSError "home"))
  else
  run wrapf "failed to initialize storage: %w" NewStorage ;;
  if bool_decide (description = []) then fail (Errorf "description is required")
  else
    let language := ToLower (unicodeToLower env) (TrimSpace languageLine) in
    if bool_decide (language = []) then fail (Errorf "language is required")
    else if negb (supportedLanguages language) then
      fail (Errorf "unsupported language: %s. Supported languages: go, python")
    else
      session <- wrapf "failed to create session: %w" (CreateSession description language) ;;
      workDir <- wrapf "failed to prepare workspace: %w" (PrepareWorkspace language) ;;
      defer (RemoveAll workDir)
        (r <- try (GenerateDirectoryName description) ;;
         let outputDirName :=
           match r with
           | inl _ => runes "generated-function"
           | inr name => name
           end in
         (* filepath.Join(".", outputDirName) *)
         let outputDir := if bool_decide (outputDirName = []) then runes "."
                          else outputDirName in
         run wrapf "failed to create output directory: %w" (MkdirAll outputDir) ;;
         testCode <- wrapf "failed to generate tests: %w" (GenerateTests description language) ;;
         code <- wrapf "failed to generate implementation: %w"
                   (GenerateImplementation description testCode language) ;;
         run wrapf "failed to write files: %w" (writeFiles workDir testCode code language) ;;
         success <- iterationLoop (Storage.ID session) workDir language maxIterations
                      testCode code ;;
         run wrapf "failed to copy final files: %w" (copyFinalFiles workDir outputDir language) ;;
         ret success).

End Program.

(** ** Sequences of calls of the session store *)

(** A call of [AddIteration], and the calls made one after the other, with
    the calls that returned no error. *)
Record AddCall := {
  atSession : gostring;
  withTest : gostring;
  withCode : gostring;
  withLogs : gostring;
  withSuccess : bool
}.

Definition addOne (env : Env) (call : AddCall) : M unit :=
  AddIteration env (atSession call) (withTest call) (withCode call) (withLogs call)
    (withSuccess call).

Fixpoint addAll (env : Env) (calls : list AddCall) (w : World) : World * list AddCall :=
  match calls with
  | [] => (w, [])
  | call :: calls' =>
      let w1 := worldOf (addOne env call) w in
      let '(w2, stored) := addAll env calls' w1 in
      (w2, match resOf (addOne env call) w with
           | inl _ => stored
           | inr _ => call :: stored
           end)
  end.

(** What a call stores, the time apart. *)
Definition stored (it : Storage.Iteration) : gostring * gostring * gostring * bool :=
  (Storage.TestCode it, Storage.Code it, Storage.TestLogs it, Storage.Success it).

Definition asked (call : AddCall) : gostring * gostring * gostring * bool :=
  (withTest call, withCode call, withLogs call, withSuccess call).

(** ** The vocabulary of the properties *)

Module Vocabulary.

(** Every rune of [w] is one that [f] trims. *)
Definition allTrimmed (f : rune -> bool) (w : gostring) : Prop :=
  Forall (fun c => f c = true) w.

Abbreviation allSpace := (allTrimmed IsSpace).

(** The runes of a directory name: [a-z0-9-]. *)
Definition isSlugRune (r : rune) : bool :=
  ((97 <=? r) && (r <=? 122)) || ((48 <=? r) && (r <=? 57)) || (r =? hyphen).

Definition isLetter (r : rune) : bool := (97 <=? r) && (r <=? 122).

Abbreviation allSlug := (Forall (fun r => isSlugRune r = true)).

(** The name before the letter prefix is decided. *)
Definition slugBody (unicodeToLower : rune -> rune) (raw : gostring) : gostring :=
  Trim (collapseHyphens
          (Map slugRune (ToLower unicodeToLower (TrimSpace (stripCodeBlock raw)))))
       [hyphen].

Definition sep3 : gostring := Eval vm_compute in runes "---".
Definition markImpl : gostring := Eval vm_compute in runes "IMPLEMENTATION".
Definition markTests : gostring := Eval vm_compute in runes "TESTS".
Definition markEnd : gostring := Eval vm_compute in runes "END".

(** A section that the split on [---] leaves whole and that is not taken
    for a marker: no [---] begins in it (so it does not end with a hyphen
    that would join the marker's), and it does not trim to a marker word. *)
Definition wholeSection (x : gostring) : bool :=
  negb (Contains (x ++ runes "--") sep3)
  && negb (bool_decide (TrimSpace x = markImpl))
  && negb (bool_decide (TrimSpace x = markTests)).

(** [c] causes only events that satisfy [P]. *)
Definition emits {A : Type} (P : Event -> Prop) (c : M A) : Prop :=
  forall w, Forall P (logOf c w).

(** Every [session.json] holds the record of the session of its directory. *)
Definition storeOk (w : World) : Prop :=
  map_Forall (fun k s => Storage.ID s = k) (sessionFiles w).

(** The session with one more iteration, as [AddIteration] builds it. *)
Definition withIteration (s : Storage.Session) (it : Storage.Iteration) (updated : Z)
  : Storage.Session :=
  {| Storage.ID := Storage.ID s;
     Storage.Description := Storage.Description s;
     Storage.Language := Storage.Language s;
     Storage.Iterations := Storage.Iterations s ++ [it];
     Storage.CreatedAt := Storage.CreatedAt s;
     Storage.UpdatedAt := updated |}.

Definition notTestRun (e : Event) : Prop := isTestRun e = false.
Definition notPass (e : Event) : Prop := isTestPass e = false.

(** Neither a run of the tests nor a request to the model. *)
Definition quiet (e : Event) : Prop := isTestRun e = false /\ isCompletion e = false.

(** Not the writing of an empty file. *)
Definition writesSource (e : Event) : Prop :=
  match e with
  | EvWriteFile _ _ [] => False
  | _ => True
  end.

Definition countTestRuns (t : list Event) : nat :=
  length (filter (fun e => isTestRun e = true) t).

(** What the loop leaves behind with [n] passes allowed: at most [n] runs
    of the tests and no empty source written; and either no run passed
    (then a loop that returns [false] ran the tests [n] times, and the
    loop does not return [true]), or a run passed and it is the last thing
    the loop caused. *)
Definition loopOutcome (n : nat) (t : list Event) (r : error + bool) : Prop :=
  (countTestRuns t <= n)%nat
  /\ Forall writesSource t
  /\ ((Forall notPass t /\ (r = inr false -> countTestRuns t = n) /\ r <> inr true)
      \/ (exists t1 e, t = t1 ++ [e] /\ Forall notPass t1 /\ isTestPass e = true
                       /\ r <> inr false)).

(** A run in three phases: before the loop no run of the tests, then the
    loop, then neither a run of the tests nor a request to the model; a
    run that returns [b] is one whose loop returned [b]. *)
Definition phased (c : M bool) : Prop :=
  forall w, exists pre mid post r,
    logOf c w = pre ++ mid ++ post
    /\ Forall notTestRun pre
    /\ loopOutcome maxIterations mid r
    /\ Forall quiet post
    /\ (forall b, resOf c w = inr b -> r = inr b).

(** Every temporary directory that was made was removed. *)
Definition cleaned (t : list Event) : Prop :=
  forall dir, EvMkdirTemp dir ∈ t -> EvRemoveAll dir ∈ t.

Definition notMkdirTemp (e : Event) : Prop :=
  match e with
  | EvMkdirTemp _ => False
  | _ => True
  end.

End Vocabulary.

Import Vocabulary.

(** ** Sample worlds *)

Module Samples.

Definition passed : processResult :=
  {| status := Exited 0; stdout := runes "ok"; stderr := [] |}.

Definition failed : processResult :=
  {| status := Exited 1; stdout := runes "FAIL"; stderr := [] |}.

Definition notStarted : processResult :=
  {| status := LaunchFailed; stdout := []; stderr := [] |}.

(** An answer to the repair prompt, in the format the prompt asks for. *)
Definition repairAnswer : gostring :=
  runes "---IMPLEMENTATION---" ++ newline ++ runes "package main" ++ newline
  ++ runes "---TESTS---" ++ newline ++ runes "package main_test" ++ newline
  ++ runes "---END---".

Definition sampleEnv (processes : nat -> processResult)
    (answers : Prompt -> error + gostring) : Env :=
  {| hasApiKey := true;
     hasHomeDir := true;
     completion := fun _ => answers;
     process := processes;
     fileOk := fun _ => true;
     newUUID := fun _ => runes "session-1";
     tempName := fun _ => runes "/tmp/aiterate-1";
     clock := fun n => Z.of_nat n;
     unicodeToLower := fun r => r;
     externalImports := fun _ => None |}.

Definition answerAll (p : Prompt) : error + gostring :=
  match p with
  | PromptFixBoth _ _ _ _ => inr repairAnswer
  | PromptDirectoryName _ => inr (runes "Add Two")
  | _ => inr (runes "package main")
  end.

(** The tests never pass; the two commands that prepare the Go workspace
    succeed. *)
Definition envAllFail : Env :=
  sampleEnv (fun n => if (n <? 2)%nat then passed else failed) answerAll.

(** The first run of the tests fails, the second passes. *)
Definition envPassSecond : Env :=
  sampleEnv (fun n => if (n =? 2)%nat then failed else passed) answerAll.

(** [pip install] fails. *)
Definition envPipFails : Env := sampleEnv (fun _ => failed) answerAll.

(** No process can be started. *)
Definition envNoToolchain : Env := sampleEnv (fun _ => notStarted) answerAll.

(** The model answers the test prompt with an opening fence and nothing
    else; every process succeeds. *)
Definition envEmptyTests : Env :=
  sampleEnv (fun _ => passed)
    (fun p => match p with
              | PromptTests _ _ => inr (runes "```go")
              | _ => answerAll p
              end).

Definition noCounters : Counters :=
  {| nCompletion := 0; nProcess := 0; nFileOp := 0; nUUID := 0; nTemp := 0;
     nClock := 0 |}.

Definition emptyWorld : World :=
  {| sessionDirs := ∅; sessionFiles := ∅; tempDirs := ∅; files := ∅;
     counters := noCounters |}.

Definition newSession : Storage.Session :=
  {| Storage.ID := runes "session-1";
     Storage.Description := runes "add two integers";
     Storage.Language := runes "go";
     Storage.Iterations := [];
     Storage.CreatedAt := 0;
     Storage.UpdatedAt := 0 |}.

(** The world after [CreateSession]. *)
Definition oneSession : World :=
  {| sessionDirs := {[ runes "session-1" ]};
     sessionFiles := {[ runes "session-1" := newSession ]};
     tempDirs := ∅; files := ∅; counters := noCounters |}.

(** Two calls of [AddIteration] for that session. *)
Definition twoCalls : list AddCall :=
  [ {| atSession := runes "session-1"; withTest := runes "t1"; withCode := runes "c1";
       withLogs := runes "FAIL"; withSuccess := false |};
    {| atSession := runes "session-1"; withTest := runes "t2"; withCode := runes "c2";
       withLogs := runes "ok"; withSuccess := true |} ].

End Samples.

Import Samples.

(** ** internal/executor: the import paths of [UpdateDependencies] *)

Module Imports.

(** [strings.Fields]: the pieces between runs of white space;
    [fieldsFrom cur s] has read the runes of [cur] (last first) of the
    field it is in. *)
Fixpoint fieldsFrom (cur s : gostring) : list gostring :=
  match s with
  | [] =>
      match cur with
      | [] => []
      | _ :: _ => [reverse cur]
      end
  | c :: s' =>
      if IsSpace c then
        match cur with
        | [] => fieldsFrom [] s'
        | _ :: _ => reverse cur :: fieldsFrom [] s'
        end
      else fieldsFrom (c :: cur) s'
  end.

Definition Fields (s : gostring) : list gostring := fieldsFrom [] s.

(** The double quote. *)
Definition quote : rune := 34.

Definition extractPackagePath (line : gostring) : gostring :=
  let line :=
    match Index line (runes "//") with
    | Some idx => take idx line
    | None => line
    end in
  let line := TrimSpace line in
  let line := Trim line [quote] in
  if bool_decide (line = []) || bool_decide (line = runes ".") then []
  else
    let parts := Fields line in
    match last parts with
    | Some pkg => Trim pkg [quote]
    | None => []
    end.

(** The table of [isStandardPackage]. *)
Definition stdPkgs : gmap gostring bool :=
  list_to_map
    [ (runes "fmt", true); (runes "os", true); (runes "math", true);
      (runes "strings", true); (runes "testing", true); (runes "time", true);
      (runes "net/http", true); (runes "encoding/json", true); (runes "io", true);
      (runes "errors", true); (runes "context", true); (runes "sync", true);
      (runes "bytes", true); (runes "regexp", true) ].

Definition isStandardPackage (pkg : gostring) : bool :=
  if default false (stdPkgs !! pkg) then true
  else negb (Contains pkg (runes ".")).

End Imports.

Import Imports.

(** ** More vocabulary: what a computation leaves as it was *)

Module Frame.

(** [c] does not change what [f] reads of the world. *)
Definition keeps {X A : Type} (f : World -> X) (c : M A) : Prop :=
  forall w, f (worldOf c w) = f w.

(** What [f] reads is not in the counters, not among the files outside
    the storage directory, not in the storage directory. *)
Definition offCounters {X : Type} (f : World -> X) : Prop :=
  forall w c, f (setCounters w c) = f w.

Definition offFiles {X : Type} (f : World -> X) : Prop :=
  forall w temps fs, f (setFiles w temps fs) = f w.

Definition offStorage {X : Type} (f : World -> X) : Prop :=
  forall w dirs sessions, f (setStorage w dirs sessions) = f w.

(** A request to the model for a joint repair. *)
Definition isRepair (e : Event) : bool :=
  match e with
  | EvCompletion (PromptFixBoth _ _ _ _) => true
  | _ => false
  end.

Definition countRepairs (t : list Event) : nat :=
  length (filter (fun e => isRepair e = true) t).

(** Neither a run of the tests nor a request for a repair. *)
Definition outsideLoop (e : Event) : Prop :=
  isTestRun e = false /\ isRepair e = false.

(** The record that [CreateSession] builds in the world [w]. *)
Definition created (env : Env) (description language : gostring) (w : World)
  : Storage.Session :=
  {| Storage.ID := newUUID env (nUUID (counters w));
     Storage.Description := description;
     Storage.Language := language;
     Storage.Iterations := [];
     Storage.CreatedAt := clock env (nClock (counters w));
     Storage.UpdatedAt := clock env (S (nClock (counters w))) |}.

(** A process that ran and exited with 0. *)
Definition ranClean (e : Event) : bool :=
  match e with
  | EvRun _ _ st => exitedZero st
  | _ => false
  end.

(** [go get pkg] in [dir], exited with 0. *)
Definition fetched (dir pkg : gostring) : Event := EvRun (GoGet pkg) dir (Exited 0).

(** The steps of the loop in a log: [true] for a run of the tests, [false]
    for a request for a repair. *)
Definition stepOf (e : Event) : option bool :=
  if isTestRun e then Some true else if isRepair e then Some false else None.

Definition loopSteps (t : list Event) : list bool := omap stepOf t.

(** [k] rounds of a run that failed and a repair, and a last run that
    passed when [b]. *)
Definition roundsThen (k : nat) (b : bool) : list bool :=
  concat (replicate k [true; false]) ++ (if b then [true] else []).

(** The language that [runNew] makes of the line read. *)
Definition languageOf (env : Env) (languageLine : gostring) : gostring :=
  ToLower (unicodeToLower env) (TrimSpace languageLine).

(** The names of the two files, [main_test.<ext>] and [main.<ext>]. *)
Definition testFile (language : gostring) : gostring :=
  runes "main_test." ++ getFileExtension language.

Definition implFile (language : gostring) : gostring :=
  runes "main." ++ getFileExtension language.

(** The same session, its iterations and the time of its update apart. *)
Definition sameSession (s s0 : Storage.Session) : Prop :=
  Storage.ID s = Storage.ID s0
  /\ Storage.Description s = Storage.Description s0
  /\ Storage.Language s = Storage.Language s0
  /\ Storage.CreatedAt s = Storage.CreatedAt s0.

(** A request to the model for a repair of the implementation alone. *)
Definition isSingleRepair (e : Event) : bool :=
  match e with
  | EvCompletion (PromptFixImplementation _ _ _ _) => true
  | _ => false
  end.

(** The output directory of a run started in the world [w]: the name that
    the model gives, cleaned; [generated-function] when the request fails;
    the current directory when the cleaned name is empty. *)
Definition outputDirFor (env : Env) (description : gostring) (w : World) : gostring :=
  let name :=
    match completion env (nCompletion (counters w)) (PromptDirectoryName description) with
    | inl _ => runes "generated-function"
    | inr raw => cleanDirectoryName (unicodeToLower env) raw
    end in
  if bool_decide (name = []) then runes "." else name.

(** A path as it stands between the quotes of an import line: not empty,
    and neither white space nor a quote in it. *)
Definition plainPath (p : gostring) : Prop :=
  p <> [] /\ Forall (fun c => IsSpace c = false /\ c <> quote) p.

End Frame.

Import Frame.

(** ** More sample worlds *)

Module MoreSamples.

Definition otherSession : Storage.Session :=
  {| Storage.ID := runes "session-2";
     Storage.Description := runes "reverse a string";
     Storage.Language := runes "python";
     Storage.Iterations := [];
     Storage.CreatedAt := 5;
     Storage.UpdatedAt := 5 |}.

(** Two sessions in the storage directory. *)
Definition twoSessions : World :=
  {| sessionDirs := {[ runes "session-1"; runes "session-2" ]};
     sessionFiles := {[ runes "session-1" := newSession; runes "session-2" := otherSession ]};
     tempDirs := ∅; files := ∅; counters := noCounters |}.

(** Every process succeeds, the next identifier is that of a third
    session, and the sources import one package that is not a standard
    one. *)
Definition envImports : Env :=
  {| hasApiKey := true;
     hasHomeDir := true;
     completion := fun _ => answerAll;
     process := fun _ => passed;
     fileOk := fun _ => true;
     newUUID := fun _ => runes "session-3";
     tempName := fun _ => runes "/tmp/aiterate-1";
     clock := fun n => Z.of_nat n;
     unicodeToLower := fun r => r;
     externalImports := fun _ => Some [runes "github.com/stretchr/testify"] |}.

(** The tests fail, and the model answers the repair prompt with an
    implementation section that is an opening fence and nothing else. *)
Definition envEmptyRepair : Env :=
  sampleEnv (fun n => if (n <? 2)%nat then passed else failed)
    (fun p => match p with
              | PromptFixBoth _ _ _ _ =>
                  inr (runes "---IMPLEMENTATION---" ++ newline ++ fence ++ runes "go" ++ newline
                       ++ runes "---TESTS---" ++ newline ++ runes "package main_test"
                       ++ newline ++ runes "---END---")
              | _ => answerAll p
              end).

(** A quoted import path. *)
Definition testify : gostring := runes "github.com/stretchr/testify/assert".

End MoreSamples.

Import MoreSamples.

(** ** The joint repair response, as the claims word it *)

Module RepairSpec.

(** The parts that come right after a marker: a marker is a part of the
    response, between two [---], that trims to the marker word and has a
    part after it. *)
Fixpoint sectionsAfter (marker : gostring) (parts : list gostring) : list gostring :=
  match parts with
  | [] => []
  | p :: rest =>
      match rest with
      | [] => []
      | next :: _ =>
          if bool_decide (TrimSpace p = marker) then next :: sectionsAfter marker rest
          else sectionsAfter marker rest
      end
  end.

(** The section of a marker in a response: the part after the last such
    marker, cleaned; the empty text when the response has no such marker. *)
Definition sectionOf (marker response : gostring) : gostring :=
  match last (sectionsAfter marker (Split response sep3)) with
  | Some section => stripCodeBlock section
  | None => []
  end.

(** A response with an empty section: the implementation or the tests. *)
Definition emptySection (response : gostring) : Prop :=
  sectionOf markImpl response = [] \/ sectionOf markTests response = [].

(** What the parser returns, in these words. *)
Definition parsedSections (response : gostring) : error + FixResult :=
  if bool_decide (length (Split response sep3) < 5)%nat then
    inl (Errorf "invalid response format from AI")
  else if bool_decide (sectionOf markImpl response = [])
          || bool_decide (sectionOf markTests response = []) then
    inl (Errorf "failed to extract implementation or test code")
  else inr {| Generator.TestCode := sectionOf markTests response;
              Generator.Code := sectionOf markImpl response |}.

(** The response in the format of the prompt. *)
Definition promptFormat (impl tests : gostring) : gostring :=
  runes "---IMPLEMENTATION---" ++ impl ++ runes "---TESTS---" ++ tests ++ runes "---END---".

(** The requests to the model among the events. A request gets the answer
    [completion env i p], where [i] counts the requests made before it. *)
Definition countCompletions (t : list Event) : nat :=
  length (filter (fun e => isCompletion e = true) t).

(** [t] is the log of a computation that began after [i] requests and
    returned [r]: a repair request in [t] whose answer has an empty
    section is followed by [tail] and nothing else, and [r] is the error
    "failed to fix code". *)
Definition refusesEmpty (env : Env) (i : nat) (tail : list Event) (r : error + bool)
    (t : list Event) : Prop :=
  forall front code testCode output language back response,
    t = front ++ EvCompletion (PromptFixBoth code testCode output language) :: back ->
    completion env (i + countCompletions front)
      (PromptFixBoth code testCode output language) = inr response ->
    emptySection response ->
    (exists e, r = inl (Wrapf "failed to fix code: %w" e)) /\ back = tail.

End RepairSpec.

Import RepairSpec.

(** * Properties *)

(** ** Strings *)

Module StringFacts.

(** *** Facts about trimming *)

Section TrimFacts.
Variable f : rune -> bool.

Lemma TrimLeftFunc_app_l (w s : gostring) :
  allTrimmed f w -> TrimLeftFunc f (w ++ s) = TrimLeftFunc f s.
Proof.
  induction 1 as [| c w Hc _ IH]; [reflexivity |].
  simpl. rewrite Hc. exact IH.
Qed.

Lemma TrimLeftFunc_all (w : gostring) : allTrimmed f w -> TrimLeftFunc f w = [].
Proof.
  intros Hw. rewrite <- (app_nil_r w), TrimLeftFunc_app_l; done.
Qed.

Lemma TrimLeftFunc_keep (c : rune) (s : gostring) :
  f c = false -> TrimLeftFunc f (c :: s) = c :: s.
Proof. intros Hc. simpl. rewrite Hc. reflexivity. Qed.

Lemma TrimLeftFunc_spec (s : gostring) :
  exists w, s = w ++ TrimLeftFunc f s /\ allTrimmed f w.
Proof.
  induction s as [| c s (w & Hs & Hw)].
  - exists []. split; [reflexivity | constructor].
  - simpl. destruct (f c) eqn:Hc.
    + exists (c :: w). split; [simpl; congruence | by constructor].
    + exists []. split; [reflexivity | constructor].
Qed.

Lemma TrimLeftFunc_head (s : gostring) (c : rune) :
  head (TrimLeftFunc f s) = Some c -> f c = false.
Proof.
  induction s as [| a s IH]; simpl; [discriminate |].
  destruct (f a) eqn:Ha; [exact IH |]. simpl. congruence.
Qed.

Lemma TrimLeftFunc_app_r (s t : gostring) :
  TrimLeftFunc f s <> [] -> TrimLeftFunc f (s ++ t) = TrimLeftFunc f s ++ t.
Proof.
  induction s as [| a s IH]; simpl; [done |].
  destruct (f a); [exact IH | reflexivity].
Qed.

Lemma allTrimmed_reverse (w : gostring) : allTrimmed f w -> allTrimmed f (reverse w).
Proof.
  unfold allTrimmed. rewrite !Forall_forall. intros H x Hx.
  apply H. by apply elem_of_reverse.
Qed.

Lemma TrimRightFunc_app_r (s w : gostring) :
  allTrimmed f w -> TrimRightFunc f (s ++ w) = TrimRightFunc f s.
Proof.
  intros Hw. unfold TrimRightFunc.
  rewrite reverse_app, TrimLeftFunc_app_l; [reflexivity |].
  by apply allTrimmed_reverse.
Qed.

Lemma TrimRightFunc_all (w : gostring) : allTrimmed f w -> TrimRightFunc f w = [].
Proof.
  intros Hw. unfold TrimRightFunc.
  rewrite TrimLeftFunc_all; [reflexivity | by apply allTrimmed_reverse].
Qed.

Lemma TrimRightFunc_keep (s : gostring) (c : rune) :
  f c = false -> TrimRightFunc f (s ++ [c]) = s ++ [c].
Proof.
  intros Hc. unfold TrimRightFunc.
  rewrite reverse_snoc, TrimLeftFunc_keep by done.
  rewrite reverse_cons, reverse_involutive. reflexivity.
Qed.

Lemma TrimRightFunc_spec (s : gostring) :
  exists w, s = TrimRightFunc f s ++ w /\ allTrimmed f w.
Proof.
  destruct (TrimLeftFunc_spec (reverse s)) as (w & Hs & Hw).
  exists (reverse w). split; [| by apply allTrimmed_reverse].
  unfold TrimRightFunc. rewrite <- reverse_app, <- Hs, reverse_involutive.
  reflexivity.
Qed.

Lemma TrimRightFunc_last (s : gostring) (c : rune) :
  last (TrimRightFunc f s) = Some c -> f c = false.
Proof.
  unfold TrimRightFunc. rewrite last_reverse. apply TrimLeftFunc_head.
Qed.

(** A string whose last rune is kept is not trimmed on the right, and
    what is written before it is kept. *)
Lemma TrimRightFunc_app_keep (a b : gostring) (c : rune) :
  f c = false -> TrimRightFunc f (a ++ c :: b) = a ++ c :: TrimRightFunc f b.
Proof.
  intros Hc. destruct (TrimRightFunc_spec b) as (w & Hb & Hw).
  rewrite Hb at 1.
  replace (a ++ c :: TrimRightFunc f b ++ w)
    with ((a ++ c :: TrimRightFunc f b) ++ w) by (by rewrite <- app_assoc).
  rewrite TrimRightFunc_app_r by done.
  destruct (TrimRightFunc f b) as [| x l _] eqn:Hl using rev_ind.
  - apply TrimRightFunc_keep, Hc.
  - replace (a ++ c :: l ++ [x]) with ((a ++ c :: l) ++ [x])
      by (by rewrite <- app_assoc).
    apply TrimRightFunc_keep, (TrimRightFunc_last b).
    rewrite Hl, last_snoc. reflexivity.
Qed.

Lemma TrimFunc_app_r (s w : gostring) :
  allTrimmed f w -> TrimFunc f (s ++ w) = TrimFunc f s.
Proof.
  intros Hw. unfold TrimFunc.
  destruct (TrimLeftFunc f s) as [| x l] eqn:Hl.
  - destruct (TrimLeftFunc_spec s) as (v & Hs & Hv). rewrite Hl, app_nil_r in Hs.
    subst v. rewrite TrimLeftFunc_all; [reflexivity |].
    by apply Forall_app.
  - rewrite TrimLeftFunc_app_r, Hl by (rewrite Hl; done).
    by apply TrimRightFunc_app_r.
Qed.

Lemma TrimFunc_app_l (w s : gostring) :
  allTrimmed f w -> TrimFunc f (w ++ s) = TrimFunc f s.
Proof. intros Hw. unfold TrimFunc. by rewrite TrimLeftFunc_app_l. Qed.

Lemma TrimFunc_all (w : gostring) : allTrimmed f w -> TrimFunc f w = [].
Proof. intros Hw. unfold TrimFunc. by rewrite TrimLeftFunc_all. Qed.

Lemma TrimFunc_head (s : gostring) (c : rune) :
  head (TrimFunc f s) = Some c -> f c = false.
Proof.
  unfold TrimFunc. destruct (TrimRightFunc_spec (TrimLeftFunc f s)) as (w & Hs & _).
  intros Hh. apply (TrimLeftFunc_head s). rewrite Hs.
  destruct (TrimRightFunc f (TrimLeftFunc f s)); [discriminate | exact Hh].
Qed.

Lemma TrimFunc_last (s : gostring) (c : rune) :
  last (TrimFunc f s) = Some c -> f c = false.
Proof. apply TrimRightFunc_last. Qed.

(** Trimming twice is trimming once. *)
Lemma TrimFunc_idemp (s : gostring) : TrimFunc f (TrimFunc f s) = TrimFunc f s.
Proof.
  pose proof (TrimFunc_head s) as Hh. pose proof (TrimFunc_last s) as Hl.
  destruct (TrimFunc f s) as [| x l]; [reflexivity |].
  unfold TrimFunc at 1. rewrite TrimLeftFunc_keep by (by apply Hh).
  destruct l as [| y l _] using rev_ind.
  - apply (TrimRightFunc_keep []), Hh. reflexivity.
  - replace (x :: l ++ [y]) with ((x :: l) ++ [y]) by reflexivity.
    apply TrimRightFunc_keep, Hl.
    replace (x :: l ++ [y]) with ((x :: l) ++ [y]) by reflexivity.
    by rewrite last_snoc.
Qed.

(** What trimming returns is a piece of its argument. *)
Lemma TrimFunc_spec (s : gostring) :
  exists v w, s = v ++ TrimFunc f s ++ w /\ allTrimmed f v /\ allTrimmed f w.
Proof.
  destruct (TrimLeftFunc_spec s) as (v & Hs & Hv).
  destruct (TrimRightFunc_spec (TrimLeftFunc f s)) as (w & Ht & Hw).
  exists v, w. unfold TrimFunc. rewrite <- Ht. done.
Qed.
End TrimFacts.

(** *** Facts about searching and splitting *)

Lemma HasPrefix_app_long (s t p : gostring) :
  (length p <= length s)%nat -> HasPrefix (s ++ t) p = HasPrefix s p.
Proof.
  revert s. induction p as [| x p IH]; intros [| y s] Hl; simpl in *; try lia; try done.
  rewrite IH by lia. reflexivity.
Qed.

Lemma HasPrefix_app_self (p t : gostring) : HasPrefix (p ++ t) p = true.
Proof.
  induction p as [| x p IH]; simpl; [by destruct t |].
  rewrite Z.eqb_refl. exact IH.
Qed.

Lemma HasPrefix_true (s p : gostring) :
  HasPrefix s p = true -> s = p ++ drop (length p) s.
Proof.
  revert s. induction p as [| x p IH]; intros [| y s]; simpl; try done.
  intros [->%Z.eqb_eq Hp]%andb_prop. f_equal. by apply IH.
Qed.

Lemma Contains_false (s sub : gostring) :
  Contains s sub = false <-> Index s sub = None.
Proof.
  unfold Contains. rewrite bool_decide_eq_false, <- eq_None_not_Some. done.
Qed.

Lemma Contains_cons_false (c : rune) (l sub : gostring) :
  Contains (c :: l) sub = false ->
  HasPrefix (c :: l) sub = false /\ Contains l sub = false.
Proof.
  rewrite !Contains_false. cbn [Index].
  destruct (HasPrefix (c :: l) sub); [discriminate |].
  destruct (Index l sub); [discriminate | done].
Qed.

Lemma Contains_single (s : gostring) (x : rune) :
  Contains s [x] = false <-> x ∉ s.
Proof.
  rewrite Contains_false. induction s as [| a s IH]; cbn [Index HasPrefix].
  - split; [intros _; apply not_elem_of_nil | done].
  - rewrite andb_true_r, not_elem_of_cons. destruct (Z.eqb_spec a x) as [-> | Hne].
    + split; [discriminate | intros [? _]; done].
    + destruct (Index s [x]) eqn:Hi; simpl.
      * split; [discriminate |]. intros [_ Hs]. apply IH in Hs. discriminate.
      * split; [| done]. intros _. split; [congruence | by apply IH].
Qed.

Lemma Index_here (s sub : gostring) :
  HasPrefix s sub = true -> Index s sub = Some 0%nat.
Proof. intros Hp. destruct s; cbn [Index]; rewrite Hp; reflexivity. Qed.

(** The first occurrence of [sep] in [a ++ sep ++ rest] is the one written
    there when none begins inside [a]: none lies in [a] followed by all of
    [sep] but its last rune. *)
Lemma Index_app_clean (a sep rest : gostring) :
  sep <> [] ->
  Contains (a ++ removelast sep) sep = false ->
  Index (a ++ sep ++ rest) sep = Some (length a).
Proof.
  intros Hsep. induction a as [| c a IH]; intros Hc.
  - rewrite app_nil_l. apply Index_here, HasPrefix_app_self.
  - apply Contains_cons_false in Hc as [Hp Hc]. specialize (IH Hc).
    change ((c :: a) ++ sep ++ rest) with (c :: (a ++ sep ++ rest)).
    cbn [Index]. rewrite IH.
    assert (Hp' : HasPrefix (c :: a ++ sep ++ rest) sep = false).
    { rewrite (app_removelast_last 0 Hsep) at 1.
      replace (c :: a ++ (removelast sep ++ [List.last sep 0]) ++ rest)
        with (((c :: a) ++ removelast sep) ++ ([List.last sep 0] ++ rest))
        by (simpl; rewrite <- !app_assoc; reflexivity).
      rewrite HasPrefix_app_long; [exact Hp |].
      rewrite (app_removelast_last 0 Hsep) at 1.
      rewrite !length_app. simpl. lia. }
    rewrite Hp'. reflexivity.
Qed.

Lemma Split_app_clean (a : gostring) (c : rune) (sep rest : gostring) :
  Contains (a ++ removelast (c :: sep)) (c :: sep) = false ->
  Split (a ++ (c :: sep) ++ rest) (c :: sep) = a :: Split rest (c :: sep).
Proof.
  intros Hc. rewrite Split_step, Index_app_clean by done.
  rewrite take_app_length. rewrite app_assoc, <- length_app, drop_app_length.
  reflexivity.
Qed.

Lemma Split_clean (a : gostring) (c : rune) (sep : gostring) :
  Contains a (c :: sep) = false -> Split a (c :: sep) = [a].
Proof. intros Hc%Contains_false. rewrite Split_step, Hc. reflexivity. Qed.

Lemma Split_nonempty (s : gostring) (c : rune) (sep : gostring) :
  Split s (c :: sep) <> [].
Proof. rewrite Split_step. destruct (Index s (c :: sep)); done. Qed.

Lemma Index_decomp (s sub : gostring) (m : nat) :
  Index s sub = Some m -> s = take m s ++ sub ++ drop (m + length sub) s.
Proof.
  revert m. induction s as [| a s IH]; intros m; cbn [Index].
  - destruct (HasPrefix [] sub) eqn:Hp; [| discriminate].
    intros [= <-]. destruct sub; [reflexivity | discriminate].
  - destruct (HasPrefix (a :: s) sub) eqn:Hp.
    + intros [= <-]. apply HasPrefix_true in Hp. exact Hp.
    + destruct (Index s sub) as [k |]; [| discriminate].
      intros [= <-]. simpl. f_equal. by apply IH.
Qed.

Lemma Index_cons_app (a : rune) (s t sub : gostring) :
  Index ((a :: s) ++ t) sub =
  if HasPrefix ((a :: s) ++ t) sub then Some 0%nat else S <$> Index (s ++ t) sub.
Proof. reflexivity. Qed.

Lemma Index_app_mono (s t sub : gostring) (m : nat) :
  Index s sub = Some m -> Index (s ++ t) sub = Some m.
Proof.
  revert m. induction s as [| a s IH]; intros m; cbn [Index].
  - destruct (HasPrefix [] sub) eqn:Hp; [| discriminate].
    intros [= <-]. destruct sub; [| discriminate]. by destruct t.
  - destruct (HasPrefix (a :: s) sub) eqn:Hp.
    + intros [= <-]. pose proof (HasPrefix_length _ _ Hp).
      rewrite Index_cons_app, HasPrefix_app_long, Hp by done. reflexivity.
    + destruct (Index s sub) as [k |] eqn:Hk; [| discriminate].
      intros [= <-]. pose proof (Index_bound _ _ _ Hk).
      rewrite Index_cons_app, HasPrefix_app_long, Hp by (simpl; lia).
      rewrite (IH _ eq_refl). reflexivity.
Qed.

(** Joining what was split gives the string back. *)
Lemma Join_Split (s : gostring) (c : rune) (sep : gostring) :
  Join (Split s (c :: sep)) (c :: sep) = s.
Proof.
  induction s as [s IH] using length_ind.
  rewrite Split_step. destruct (Index s (c :: sep)) as [m |] eqn:Hm; [| reflexivity].
  pose proof (Index_bound _ _ _ Hm) as Hb. pose proof (Index_decomp _ _ _ Hm) as Hd.
  cbn [Join].
  destruct (Split (drop (m + length (c :: sep)) s) (c :: sep)) as [| l ls] eqn:Hs.
  { by apply Split_nonempty in Hs. }
  rewrite <- Hs, IH; [symmetry; exact Hd |].
  rewrite length_drop. simpl in *. lia.
Qed.

(** Lines: a text that ends with a separator and a last line [y]. *)
Lemma Split_snoc (b : gostring) (x : rune) (y : gostring) :
  x ∉ y -> Split (b ++ x :: y) [x] = Split b [x] ++ [y].
Proof.
  intros Hy. induction b as [b IH] using length_ind.
  rewrite (Split_step b). destruct (Index b [x]) as [m |] eqn:Hm.
  - pose proof (Index_bound _ _ _ Hm) as Hb. pose proof (Index_decomp _ _ _ Hm) as Hd.
    rewrite Split_step, (Index_app_mono _ _ _ _ Hm).
    rewrite take_app_le, drop_app_le by (simpl in *; lia).
    rewrite IH; [reflexivity |]. rewrite length_drop. simpl in *. lia.
  - apply Contains_false in Hm. change (b ++ x :: y) with (b ++ [x] ++ y).
    rewrite (Split_app_clean b x [] y) by (simpl; rewrite app_nil_r; exact Hm).
    rewrite Split_clean by (by apply Contains_single). reflexivity.
Qed.

End StringFacts.

Import StringFacts.

(** ** [stripCodeBlock] *)

Module StripFacts.

Lemma Contains_app_intro (v sub r : gostring) : Contains (v ++ sub ++ r) sub = true.
Proof.
  apply bool_decide_eq_true. induction v as [| c v IH].
  - rewrite app_nil_l, Index_here; [eauto | apply HasPrefix_app_self].
  - rewrite Index_cons_app. destruct (HasPrefix _ _); [eauto |].
    destruct IH as [k ->]. simpl. eauto.
Qed.

(** A text that begins with the fence, whitespace around it apart. *)
Lemma TrimSpace_open (lead x : gostring) :
  allSpace lead ->
  TrimSpace (lead ++ fence ++ x) = fence ++ TrimRightFunc IsSpace x.
Proof.
  intros Hl. unfold TrimSpace. rewrite TrimFunc_app_l by done.
  unfold TrimFunc, fence. cbn [app]. rewrite TrimLeftFunc_keep by reflexivity.
  apply (TrimRightFunc_app_keep IsSpace [96; 96] x 96). reflexivity.
Qed.

Lemma TrimSpace_fenced (lead mid trail : gostring) :
  allSpace lead -> allSpace trail ->
  TrimSpace (lead ++ fence ++ mid ++ fence ++ trail) = fence ++ mid ++ fence.
Proof.
  intros Hl Ht. rewrite TrimSpace_open by done. do 2 f_equal.
  replace (mid ++ fence ++ trail) with ((mid ++ [96; 96]) ++ 96 :: trail)
    by (rewrite <- app_assoc; reflexivity).
  rewrite TrimRightFunc_app_keep by reflexivity.
  rewrite TrimRightFunc_all by done. rewrite <- app_assoc. reflexivity.
Qed.

Lemma closingFence_none (lines : list gostring) (n : nat) :
  Forall (fun l => TrimSpace l <> fence) lines -> closingFence lines n = None.
Proof.
  intros Hl. induction n as [| n IH]; [reflexivity |]. cbn [closingFence].
  destruct (lines !! n) as [l |] eqn:Hn; [| exact IH].
  rewrite bool_decide_eq_false_2; [exact IH |].
  eapply Forall_lookup_1 in Hl; eauto.
Qed.

Lemma closingFence_last (lines : list gostring) (l : gostring) :
  TrimSpace l = fence ->
  closingFence (lines ++ [l]) (length (lines ++ [l])) = Some (length lines).
Proof.
  intros Hl. rewrite length_app, Nat.add_1_r. cbn [closingFence].
  rewrite list_lookup_middle by done. rewrite bool_decide_eq_true_2; done.
Qed.

(** The lines of a text that is followed by whitespace: each line of the
    text trims to the same as a line of the longer text. *)
Lemma Split_lines_trimmed (w : gostring) :
  allSpace w ->
  forall r l, l ∈ Split r newline ->
  exists l', l' ∈ Split (r ++ w) newline /\ TrimSpace l' = TrimSpace l.
Proof.
  intros Hw r. induction r as [r IH] using length_ind. intros l.
  unfold newline in *. rewrite (Split_step r).
  destruct (Index r [10]) as [m |] eqn:Hm.
  - pose proof (Index_bound _ _ _ Hm) as Hb.
    rewrite (Split_step (r ++ w)), (Index_app_mono _ _ _ _ Hm).
    rewrite take_app_le, drop_app_le by (simpl in *; lia).
    intros [-> | Hin]%elem_of_cons.
    + eexists. split; [apply list_elem_of_here | reflexivity].
    + destruct (IH (drop (m + length [10]) r)) with (l := l) as (l' & Hl' & Heq);
        [rewrite length_drop; simpl in *; lia | exact Hin |].
      exists l'. split; [by apply list_elem_of_further | exact Heq].
  - intros ->%list_elem_of_singleton. apply Contains_false, Contains_single in Hm.
    destruct (decide (10 ∈ w)) as [Hin | Hnin].
    + apply list_elem_of_split_l in Hin as (w1 & w2 & -> & Hw1).
      exists (r ++ w1). split.
      * replace (r ++ w1 ++ 10 :: w2) with ((r ++ w1) ++ [10] ++ w2)
          by (rewrite <- app_assoc; reflexivity).
        rewrite Split_app_clean; [apply list_elem_of_here |].
        simpl. rewrite app_nil_r. apply Contains_single.
        rewrite elem_of_app. tauto.
      * apply TrimFunc_app_r. by apply Forall_app in Hw as [Hw _].
    + exists (r ++ w). split.
      * rewrite Split_clean; [apply list_elem_of_here |].
        apply Contains_single. rewrite elem_of_app. tauto.
      * by apply TrimFunc_app_r.
Qed.

Lemma TrimSpace_fence : TrimSpace fence = fence.
Proof. reflexivity. Qed.

Lemma fence_no_newline (tag : gostring) : 10 ∉ tag -> 10 ∉ fence ++ tag.
Proof.
  intros Ht [Hf | Hin]%elem_of_app; [| done].
  unfold fence in Hf. repeat (apply elem_of_cons in Hf as [Hf | Hf]; [lia |]).
  by apply not_elem_of_nil in Hf.
Qed.

(** A fenced block, whitespace around it apart: the text between the
    opening line and the closing fence, trimmed. *)
Lemma stripCodeBlock_fenced (lead tag body trail : gostring) :
  allSpace lead -> allSpace trail -> 10 ∉ tag ->
  stripCodeBlock (lead ++ fence ++ tag ++ newline ++ body ++ newline ++ fence ++ trail)
  = TrimSpace body.
Proof.
  intros Hl Ht Htag. unfold stripCodeBlock, newline.
  replace (lead ++ fence ++ tag ++ [10] ++ body ++ [10] ++ fence ++ trail)
    with (lead ++ fence ++ (tag ++ [10] ++ body ++ [10]) ++ fence ++ trail)
    by (rewrite <- !app_assoc; reflexivity).
  rewrite TrimSpace_fenced by done. rewrite HasPrefix_app_self.
  replace (fence ++ (tag ++ [10] ++ body ++ [10]) ++ fence)
    with ((fence ++ tag) ++ [10] ++ (body ++ 10 :: fence))
    by (rewrite <- !app_assoc; reflexivity).
  rewrite Split_app_clean
    by (simpl removelast; rewrite app_nil_r; by apply Contains_single, fence_no_newline).
  rewrite Split_snoc by (apply (fence_no_newline []), not_elem_of_nil).
  rewrite bool_decide_eq_false_2 by (simpl; rewrite length_app; simpl; lia).
  cbn [drop]. rewrite !drop_0. rewrite closingFence_last by apply TrimSpace_fence.
  rewrite take_app_length, Join_Split. reflexivity.
Qed.

(** Only the opening line: nothing is left. *)
Lemma stripCodeBlock_opening_only (lead tag trail : gostring) :
  allSpace lead -> allSpace trail -> 10 ∉ tag ->
  stripCodeBlock (lead ++ fence ++ tag ++ trail) = [].
Proof.
  intros Hl Ht Htag. unfold stripCodeBlock, newline.
  rewrite TrimSpace_open by done. rewrite HasPrefix_app_self.
  rewrite TrimRightFunc_app_r by done.
  destruct (TrimRightFunc_spec IsSpace tag) as (w & Hw & _).
  rewrite Split_clean; [reflexivity |].
  apply Contains_single. intros [Hf | Hin]%elem_of_app.
  - by apply (fence_no_newline [] (not_elem_of_nil _)), elem_of_app; left.
  - apply Htag. rewrite Hw, elem_of_app. by left.
Qed.

(** No fence at all: only the trimming. *)
Lemma stripCodeBlock_no_fence (code : gostring) :
  Contains code fence = false -> stripCodeBlock code = TrimSpace code.
Proof.
  intros Hc. unfold stripCodeBlock.
  destruct (HasPrefix (TrimSpace code) fence) eqn:Hp.
  - exfalso. destruct (TrimFunc_spec IsSpace code) as (v & w & Hs & _).
    apply HasPrefix_true in Hp. fold (TrimSpace code) in Hs.
    rewrite Hp, <- app_assoc in Hs. rewrite Hs, Contains_app_intro in Hc. done.
  - apply TrimFunc_idemp.
Qed.

(** An opening line and no closing fence: all that follows the opening
    line is kept. *)
Lemma stripCodeBlock_unterminated (lead tag rest : gostring) :
  allSpace lead -> 10 ∉ tag ->
  Forall (fun l => TrimSpace l <> fence) (Split rest newline) ->
  stripCodeBlock (lead ++ fence ++ tag ++ newline ++ rest) = TrimSpace rest.
Proof.
  intros Hl Htag Hno. unfold stripCodeBlock, newline in *.
  rewrite TrimSpace_open by done. rewrite HasPrefix_app_self.
  destruct (TrimRightFunc_spec IsSpace rest) as (w & Hrest & Hw).
  assert (Hts : TrimSpace rest = TrimSpace (TrimRightFunc IsSpace rest)).
  { rewrite Hrest at 1. by apply TrimFunc_app_r. }
  destruct (TrimRightFunc IsSpace rest) as [| x r1 _] eqn:Hr using rev_ind.
  - (* what follows the opening line is blank *)
    assert (Hall : allSpace ([10] ++ rest)).
    { rewrite Hrest. apply Forall_app. split; [| done]. by repeat constructor. }
    replace (tag ++ [10] ++ rest) with (tag ++ ([10] ++ rest)) by done.
    rewrite TrimRightFunc_app_r by done.
    destruct (TrimRightFunc_spec IsSpace tag) as (w' & Hw' & _).
    rewrite Split_clean.
    + simpl. rewrite Hts. reflexivity.
    + apply Contains_single. intros [Hf | Hin]%elem_of_app.
      * by apply (fence_no_newline [] (not_elem_of_nil _)), elem_of_app; left.
      * apply Htag. rewrite Hw', elem_of_app. by left.
  - assert (Hx : IsSpace x = false).
    { apply (TrimRightFunc_last IsSpace rest). rewrite Hr. apply last_snoc. }
    assert (Htrim : TrimRightFunc IsSpace (tag ++ [10] ++ rest)
                    = tag ++ [10] ++ r1 ++ [x]).
    { rewrite Hrest.
      replace (tag ++ [10] ++ (r1 ++ [x]) ++ w)
        with ((tag ++ [10] ++ r1) ++ x :: w)
        by (rewrite <- !app_assoc; reflexivity).
      rewrite TrimRightFunc_app_keep by done. rewrite TrimRightFunc_all by done.
      rewrite <- !app_assoc. reflexivity. }
    rewrite Htrim.
    replace (fence ++ tag ++ [10] ++ r1 ++ [x])
      with ((fence ++ tag) ++ [10] ++ (r1 ++ [x]))
      by (rewrite <- !app_assoc; reflexivity).
    rewrite Split_app_clean
      by (simpl removelast; rewrite app_nil_r; by apply Contains_single, fence_no_newline).
    rewrite bool_decide_eq_false_2.
    2:{ pose proof (Split_nonempty (r1 ++ [x]) 10 []).
        destruct (Split (r1 ++ [x]) [10]); [done | simpl; lia]. }
    cbn [drop]. rewrite !drop_0. rewrite closingFence_none.
    + rewrite Join_Split. symmetry. exact Hts.
    + apply Forall_forall. intros l Hin.
      destruct (Split_lines_trimmed w Hw _ _ Hin) as (l' & Hl' & Heq).
      rewrite <- Hrest in Hl'. rewrite <- Heq.
      eapply Forall_forall in Hno; eauto.
Qed.

End StripFacts.

Import StripFacts.

(** ** The directory name *)

Module SlugFacts.

Lemma slugRune_ok (r : rune) : isSlugRune (slugRune r) = true.
Proof.
  unfold slugRune. destruct (_ || _) eqn:H; [exact H | reflexivity].
Qed.

(** Case analysis on the comparisons of a boolean test on runes. *)
Ltac rune_cases :=
  repeat match goal with
    | |- context [(?a <=? ?b)] => destruct (Z.leb_spec a b)
    | |- context [(?a <? ?b)] => destruct (Z.ltb_spec a b)
    | |- context [(?a =? ?b)] => destruct (Z.eqb_spec a b)
    end;
  simpl; try done; try lia.

Lemma encodeRune_slug (r : rune) : isSlugRune r = true -> encodeRune r = r.
Proof. unfold isSlugRune, encodeRune, hyphen. rune_cases. Qed.

Lemma Map_slugRune_ok (s : gostring) : allSlug (Map slugRune s).
Proof.
  unfold Map. apply Forall_fmap, Forall_forall. intros r Hr.
  apply list_elem_of_filter in Hr as [_ Hr].
  apply list_elem_of_fmap in Hr as (x & -> & _).
  simpl. rewrite encodeRune_slug; apply slugRune_ok.
Qed.

Lemma ReplaceAll_Forall (P : rune -> Prop) (c : rune) (old new s : gostring) :
  Forall P new -> Forall P s -> Forall P (ReplaceAll s (c :: old) new).
Proof.
  intros Hnew. induction s as [s IH] using length_ind. intros Hs.
  rewrite ReplaceAll_step. destruct (Index s (c :: old)) as [m |] eqn:Hm; [| done].
  pose proof (Index_bound _ _ _ Hm) as Hb.
  rewrite !Forall_app. split_and!; [by apply Forall_take | done |].
  apply IH; [| by apply Forall_drop]. rewrite length_drop. simpl in *. lia.
Qed.

Lemma collapseHyphens_step (name : gostring) :
  collapseHyphens name =
  if Contains name [hyphen; hyphen]
  then collapseHyphens (ReplaceAll name [hyphen; hyphen] [hyphen])
  else name.
Proof.
  rewrite collapseHyphens_equation_1.
  generalize (inspect (Contains name [hyphen; hyphen])).
  intros [[|] H];
    [rewrite collapseHyphens_clause_1_equation_1
    | rewrite collapseHyphens_clause_1_equation_2];
    rewrite H; reflexivity.
Qed.

Lemma collapseHyphens_Forall (P : rune -> Prop) (name : gostring) :
  P hyphen -> Forall P name -> Forall P (collapseHyphens name).
Proof.
  intros Hh. induction name as [name IH] using length_ind. intros Hn.
  rewrite collapseHyphens_step. destruct (Contains name _) eqn:Hc; [| done].
  apply IH.
  - apply ReplaceAll_shorter; [simpl; lia | done].
  - apply ReplaceAll_Forall; [by repeat constructor | done].
Qed.

(** The loop ends, and it ends with a name without two hyphens in a row. *)
Lemma collapseHyphens_no_double (name : gostring) :
  Contains (collapseHyphens name) [hyphen; hyphen] = false.
Proof.
  induction name as [name IH] using length_ind.
  rewrite collapseHyphens_step. destruct (Contains name _) eqn:Hc; [| done].
  apply IH, ReplaceAll_shorter; [simpl; lia | done].
Qed.

Lemma Contains_infix (v t w sub : gostring) :
  Contains (v ++ t ++ w) sub = false -> Contains t sub = false.
Proof.
  intros Hc. destruct (Contains t sub) eqn:Ht; [| reflexivity].
  apply bool_decide_eq_true in Ht as [m Hm]. apply Index_decomp in Hm.
  rewrite Hm in Hc.
  replace (v ++ (take m t ++ sub ++ drop (m + length sub) t) ++ w)
    with ((v ++ take m t) ++ sub ++ (drop (m + length sub) t ++ w)) in Hc
    by (rewrite <- !app_assoc; reflexivity).
  by rewrite Contains_app_intro in Hc.
Qed.

Lemma Trim_Forall (P : rune -> Prop) (s cutset : gostring) :
  Forall P s -> Forall P (Trim s cutset).
Proof.
  intros Hs. unfold Trim.
  destruct (TrimFunc_spec (fun r => bool_decide (r ∈ cutset)) s) as (v & w & Heq & _).
  rewrite Heq in Hs. by apply Forall_app in Hs as [_ [Hs _]%Forall_app].
Qed.

Lemma Trim_Contains (s cutset sub : gostring) :
  Contains s sub = false -> Contains (Trim s cutset) sub = false.
Proof.
  intros Hs. unfold Trim.
  destruct (TrimFunc_spec (fun r => bool_decide (r ∈ cutset)) s) as (v & w & Heq & _).
  rewrite Heq in Hs. by apply Contains_infix in Hs.
Qed.

Lemma Trim_head (s : gostring) (x : rune) : head (Trim s [x]) <> Some x.
Proof.
  intros H. apply TrimFunc_head in H. apply bool_decide_eq_false in H.
  apply H, list_elem_of_here.
Qed.

Lemma Trim_last (s : gostring) (x : rune) : last (Trim s [x]) <> Some x.
Proof.
  intros H. apply TrimFunc_last in H. apply bool_decide_eq_false in H.
  apply H, list_elem_of_here.
Qed.

Lemma cleanDirectoryName_body (lower : rune -> rune) (raw : gostring) :
  cleanDirectoryName lower raw =
  match slugBody lower raw with
  | c :: _ => if isLetter c then slugBody lower raw
              else runes "fn-" ++ slugBody lower raw
  | [] => []
  end.
Proof.
  unfold cleanDirectoryName, slugBody, isLetter.
  destruct (Trim _ _) as [| c l]; [reflexivity |].
  destruct ((97 <=? c) && (c <=? 122)); reflexivity.
Qed.

Lemma slugBody_shape (lower : rune -> rune) (raw : gostring) :
  allSlug (slugBody lower raw)
  /\ Contains (slugBody lower raw) [hyphen; hyphen] = false
  /\ head (slugBody lower raw) <> Some hyphen
  /\ last (slugBody lower raw) <> Some hyphen.
Proof.
  unfold slugBody. split_and!.
  - apply Trim_Forall, collapseHyphens_Forall; [reflexivity | apply Map_slugRune_ok].
  - apply Trim_Contains, collapseHyphens_no_double.
  - apply Trim_head.
  - apply Trim_last.
Qed.

(** The prefix does not bring two hyphens together. *)
Lemma prefix_no_double (c : rune) (l : gostring) :
  c <> hyphen -> Contains (c :: l) [hyphen; hyphen] = false ->
  Contains (runes "fn-" ++ c :: l) [hyphen; hyphen] = false.
Proof.
  intros Hc Hn. apply Contains_false.
  change (runes "fn-" ++ c :: l) with (102 :: 110 :: 45 :: c :: l).
  apply Contains_cons_false in Hn as [_ Hl]. apply Contains_false in Hl.
  cbn [Index HasPrefix]. rewrite Hl. unfold hyphen in *.
  destruct (Z.eqb_spec c 45) as [-> | _]; [done | reflexivity].
Qed.

End SlugFacts.

Import SlugFacts.

(** ** The joint repair response *)

Module RepairFacts.

Lemma wholeSection_true (x : gostring) :
  wholeSection x = true ->
  Contains (x ++ runes "--") sep3 = false
  /\ TrimSpace x <> markImpl /\ TrimSpace x <> markTests.
Proof.
  unfold wholeSection. rewrite !andb_true_iff, !negb_true_iff, !bool_decide_eq_false.
  tauto.
Qed.

Lemma scanParts_impl (parts rest : list gostring) (p next : gostring) (i : nat)
    (acc : gostring * gostring) :
  TrimSpace p = markImpl -> parts !! (i + 1)%nat = Some next ->
  scanParts parts (p :: rest) i acc
  = scanParts parts rest (S i) (stripCodeBlock next, acc.2).
Proof.
  intros Hp Hn. cbn [scanParts]. rewrite Hn.
  rewrite bool_decide_eq_true_2 by exact Hp. reflexivity.
Qed.

Lemma scanParts_tests (parts rest : list gostring) (p next : gostring) (i : nat)
    (acc : gostring * gostring) :
  TrimSpace p = markTests -> parts !! (i + 1)%nat = Some next ->
  scanParts parts (p :: rest) i acc
  = scanParts parts rest (S i) (acc.1, stripCodeBlock next).
Proof.
  intros Hp Hn. cbn [scanParts]. rewrite Hn.
  rewrite bool_decide_eq_false_2 by (rewrite Hp; discriminate).
  rewrite bool_decide_eq_true_2 by exact Hp. reflexivity.
Qed.

Lemma scanParts_other (parts rest : list gostring) (p : gostring) (i : nat)
    (acc : gostring * gostring) :
  TrimSpace p <> markImpl -> TrimSpace p <> markTests ->
  scanParts parts (p :: rest) i acc = scanParts parts rest (S i) acc.
Proof.
  intros H1 H2. cbn [scanParts].
  rewrite !bool_decide_eq_false_2 by done. reflexivity.
Qed.

(** The parts of the response that the prompt asks for. *)
Lemma Split_well_formed (impl tests : gostring) :
  Contains (impl ++ runes "--") sep3 = false ->
  Contains (tests ++ runes "--") sep3 = false ->
  Split (runes "---IMPLEMENTATION---" ++ impl ++ runes "---TESTS---" ++ tests
         ++ runes "---END---") (runes "---")
  = [[]; markImpl; impl; markTests; tests; markEnd; []].
Proof.
  intros Hi Ht.
  change (runes "---IMPLEMENTATION---") with ([] ++ sep3 ++ markImpl ++ sep3).
  change (runes "---TESTS---") with (sep3 ++ markTests ++ sep3).
  change (runes "---END---") with (sep3 ++ markEnd ++ sep3 ++ []).
  change (runes "---") with sep3.
  rewrite <- !app_assoc. unfold sep3.
  rewrite (Split_app_clean []) by reflexivity.
  rewrite (Split_app_clean markImpl) by reflexivity.
  rewrite (Split_app_clean impl) by exact Hi.
  rewrite (Split_app_clean markTests) by reflexivity.
  rewrite (Split_app_clean tests) by exact Ht.
  rewrite (Split_app_clean markEnd) by reflexivity.
  rewrite Split_clean by reflexivity. reflexivity.
Qed.

(** The response in the format of the prompt, with sections that the split
    leaves whole: both are returned as [stripCodeBlock] cleans them. *)
Lemma parse_well_formed (impl tests : gostring) :
  wholeSection impl = true -> wholeSection tests = true ->
  stripCodeBlock impl <> [] -> stripCodeBlock tests <> [] ->
  parseFixResponse (runes "---IMPLEMENTATION---" ++ impl ++ runes "---TESTS---"
                    ++ tests ++ runes "---END---")
  = inr {| TestCode := stripCodeBlock tests; Code := stripCodeBlock impl |}.
Proof.
  intros (Hi & Hi1 & Hi2)%wholeSection_true (Ht & Ht1 & Ht2)%wholeSection_true Hni Hnt.
  unfold parseFixResponse.
  rewrite Split_well_formed by done.
  rewrite bool_decide_eq_false_2 by (simpl; lia).
  rewrite scanParts_other by done.
  rewrite (scanParts_impl _ _ _ impl) by done.
  rewrite scanParts_other by done.
  rewrite (scanParts_tests _ _ _ tests) by done.
  rewrite scanParts_other by done.
  rewrite scanParts_other by done.
  rewrite scanParts_other by done.
  cbn [scanParts fst snd].
  rewrite !bool_decide_eq_false_2 by done. reflexivity.
Qed.

(** A result has both sources, neither empty. *)
Lemma parse_ok_nonempty (response : gostring) (fr : FixResult) :
  parseFixResponse response = inr fr -> Code fr <> [] /\ TestCode fr <> [].
Proof.
  unfold parseFixResponse. case_bool_decide; [discriminate |].
  destruct (scanParts _ _ _ _) as [implementation tests].
  do 2 case_bool_decide; simpl; try discriminate.
  intros [= <-]. done.
Qed.

(** The two errors of the parser, both made by [fmt.Errorf]. *)
Lemma parse_error_generic (response : gostring) (e : error) :
  parseFixResponse response = inl e ->
  e = Errorf "invalid response format from AI"
  \/ e = Errorf "failed to extract implementation or test code".
Proof.
  unfold parseFixResponse. case_bool_decide; [intros [= <-]; by left |].
  destruct (scanParts _ _ _ _) as [implementation tests].
  destruct (_ || _); [intros [= <-]; by right | discriminate].
Qed.

Lemma scanParts_fst (parts rest : list gostring) (i : nat) (acc : gostring * gostring) :
  Forall (fun p => TrimSpace p <> markImpl) rest ->
  (scanParts parts rest i acc).1 = acc.1.
Proof.
  intros Hr. revert i acc. induction Hr as [| p rest Hp _ IH]; intros i acc.
  - reflexivity.
  - cbn [scanParts]. rewrite IH. rewrite bool_decide_eq_false_2 by exact Hp.
    case_bool_decide; [| reflexivity]. by destruct (parts !! _).
Qed.

Lemma scanParts_snd (parts rest : list gostring) (i : nat) (acc : gostring * gostring) :
  Forall (fun p => TrimSpace p <> markTests) rest ->
  (scanParts parts rest i acc).2 = acc.2.
Proof.
  intros Hr. revert i acc. induction Hr as [| p rest Hp _ IH]; intros i acc.
  - reflexivity.
  - cbn [scanParts]. rewrite IH. rewrite (bool_decide_eq_false_2 (_ = markTests)) by exact Hp.
    case_bool_decide; [| reflexivity]. by destruct (parts !! _).
Qed.

(** Every part of a split is a piece of the string. *)
Lemma Split_infix (c : rune) (sep s l : gostring) :
  l ∈ Split s (c :: sep) -> exists v w, s = v ++ l ++ w.
Proof.
  induction s as [s IH] using length_ind. rewrite Split_step.
  destruct (Index s (c :: sep)) as [m |] eqn:Hm.
  - pose proof (Index_bound _ _ _ Hm) as Hb.
    intros [-> | Hin]%elem_of_cons.
    + exists [], (drop m s). by rewrite app_nil_l, take_drop.
    + destruct (IH (drop (m + length (c :: sep)) s)) as (v & w & Hd);
        [rewrite length_drop; simpl in *; lia | exact Hin |].
      exists (take (m + length (c :: sep)) s ++ v), w.
      rewrite <- app_assoc, <- Hd, take_drop. reflexivity.
  - intros ->%list_elem_of_singleton. exists [], []. by rewrite app_nil_r.
Qed.

Lemma parts_no_marker (response mark : gostring) :
  Contains response mark = false ->
  Forall (fun p => TrimSpace p <> mark) (Split response (runes "---")).
Proof.
  intros Hc. apply Forall_forall. intros p Hp Heq.
  apply (Split_infix 45 [45; 45]) in Hp as (v & w & Hs).
  destruct (TrimFunc_spec IsSpace p) as (v' & w' & Hp & _).
  fold (TrimSpace p) in Hp. rewrite Heq in Hp. rewrite Hs, Hp in Hc.
  replace (v ++ (v' ++ mark ++ w') ++ w) with ((v ++ v') ++ mark ++ (w' ++ w)) in Hc
    by (rewrite <- !app_assoc; reflexivity).
  by rewrite Contains_app_intro in Hc.
Qed.

(** Without one of the two marker words there is no result. *)
Lemma parse_missing (response : gostring) :
  Contains response markImpl = false \/ Contains response markTests = false ->
  exists e, parseFixResponse response = inl e.
Proof.
  intros Hm. unfold parseFixResponse. case_bool_decide; [eauto |].
  destruct (scanParts _ _ _ _) as [implementation tests] eqn:Hs.
  assert (Hempty : implementation = [] \/ tests = []).
  { destruct Hm as [Hm | Hm]; [left | right].
    - change implementation with (implementation, tests).1. rewrite <- Hs.
      by rewrite scanParts_fst by by apply parts_no_marker.
    - change tests with (implementation, tests).2. rewrite <- Hs.
      by rewrite scanParts_snd by by apply parts_no_marker. }
  destruct Hempty as [-> | ->]; [| rewrite orb_comm];
    rewrite (bool_decide_eq_true_2 ([] = [])) by done; simpl; eauto.
Qed.

End RepairFacts.

Import RepairFacts.

(** ** The monad *)

Module RunFacts.

Section Laws.
Context {A B : Type}.

Lemma run_eta (c : M A) (w : World) : c w = (resOf c w, worldOf c w, logOf c w).
Proof. unfold resOf, worldOf, logOf. by destruct (c w) as [[] ?]. Qed.

Lemma logOf_bind (c : M A) (k : A -> M B) (w : World) :
  logOf (bind c k) w =
  logOf c w ++ match resOf c w with
               | inl _ => []
               | inr a => logOf (k a) (worldOf c w)
               end.
Proof.
  unfold logOf, resOf, worldOf, bind. destruct (c w) as [[[e | a] w1] t1]; simpl.
  - by rewrite app_nil_r.
  - by destruct (k a w1) as [[] ?].
Qed.

Lemma resOf_bind (c : M A) (k : A -> M B) (w : World) :
  resOf (bind c k) w =
  match resOf c w with
  | inl e => inl e
  | inr a => resOf (k a) (worldOf c w)
  end.
Proof.
  unfold logOf, resOf, worldOf, bind. destruct (c w) as [[[e | a] w1] t1]; simpl.
  - reflexivity.
  - by destruct (k a w1) as [[] ?].
Qed.

Lemma worldOf_bind (c : M A) (k : A -> M B) (w : World) :
  worldOf (bind c k) w =
  match resOf c w with
  | inl e => worldOf c w
  | inr a => worldOf (k a) (worldOf c w)
  end.
Proof.
  unfold logOf, resOf, worldOf, bind. destruct (c w) as [[[e | a] w1] t1]; simpl.
  - reflexivity.
  - by destruct (k a w1) as [[] ?].
Qed.

Lemma logOf_wrapf (msg : string) (c : M A) (w : World) :
  logOf (wrapf msg c) w = logOf c w.
Proof. unfold logOf, wrapf. by destruct (c w) as [[] ?]. Qed.

Lemma worldOf_wrapf (msg : string) (c : M A) (w : World) :
  worldOf (wrapf msg c) w = worldOf c w.
Proof. unfold worldOf, wrapf. by destruct (c w) as [[] ?]. Qed.

Lemma resOf_wrapf (msg : string) (c : M A) (w : World) :
  resOf (wrapf msg c) w =
  match resOf c w with
  | inl e => inl (Wrapf msg e)
  | inr a => inr a
  end.
Proof. unfold resOf, wrapf. by destruct (c w) as [[] ?]. Qed.

Lemma logOf_try (c : M A) (w : World) : logOf (try c) w = logOf c w.
Proof. unfold logOf, try. by destruct (c w) as [[] ?]. Qed.

Lemma worldOf_try (c : M A) (w : World) : worldOf (try c) w = worldOf c w.
Proof. unfold worldOf, try. by destruct (c w) as [[] ?]. Qed.

Lemma resOf_try (c : M A) (w : World) : resOf (try c) w = inr (resOf c w).
Proof. unfold resOf, try. by destruct (c w) as [[] ?]. Qed.

Lemma logOf_defer (cleanup : M unit) (c : M A) (w : World) :
  logOf (defer cleanup c) w = logOf c w ++ logOf cleanup (worldOf c w).
Proof.
  unfold logOf, worldOf, defer. destruct (c w) as [[r w1] t1]; simpl.
  by destruct (cleanup w1) as [[] ?].
Qed.

Lemma resOf_defer (cleanup : M unit) (c : M A) (w : World) :
  resOf (defer cleanup c) w = resOf c w.
Proof.
  unfold resOf, defer. destruct (c w) as [[r w1] t1]; simpl.
  by destruct (cleanup w1) as [[] ?].
Qed.

Lemma worldOf_defer (cleanup : M unit) (c : M A) (w : World) :
  worldOf (defer cleanup c) w = worldOf cleanup (worldOf c w).
Proof.
  unfold worldOf, defer. destruct (c w) as [[r w1] t1]; simpl.
  by destruct (cleanup w1) as [[] ?].
Qed.
End Laws.

Section Emits.
Context {A B : Type} (P : Event -> Prop).

Lemma emits_ret (a : A) : emits P (ret a).
Proof. intros w. constructor. Qed.

Lemma emits_fail (e : error) : emits P (@fail A e).
Proof. intros w. constructor. Qed.

Lemma emits_bind (c : M A) (k : A -> M B) :
  emits P c -> (forall a, emits P (k a)) -> emits P (bind c k).
Proof.
  intros Hc Hk w. rewrite logOf_bind. apply Forall_app. split; [apply Hc |].
  destruct (resOf c w); [constructor | apply Hk].
Qed.

Lemma emits_wrapf (msg : string) (c : M A) : emits P c -> emits P (wrapf msg c).
Proof. intros Hc w. rewrite logOf_wrapf. apply Hc. Qed.

Lemma emits_try (c : M A) : emits P c -> emits P (try c).
Proof. intros Hc w. rewrite logOf_try. apply Hc. Qed.

Lemma emits_defer (cleanup : M unit) (c : M A) :
  emits P cleanup -> emits P c -> emits P (defer cleanup c).
Proof.
  intros Hd Hc w. rewrite logOf_defer. apply Forall_app. split; [apply Hc | apply Hd].
Qed.

Lemma emits_emit (e : Event) : P e -> emits P (emit e).
Proof. intros He w. by repeat constructor. Qed.

Lemma emits_getWorld : emits P getWorld.
Proof. intros w. constructor. Qed.

Lemma emits_putWorld (w' : World) : emits P (putWorld w').
Proof. intros w. constructor. Qed.

Lemma emits_if (b : bool) (c1 c2 : M A) :
  emits P c1 -> emits P c2 -> emits P (if b then c1 else c2).
Proof. by destruct b. Qed.
End Emits.

Lemma emits_weaken {A : Type} (P Q : Event -> Prop) (c : M A) :
  (forall e, P e -> Q e) -> emits P c -> emits Q c.
Proof. intros HPQ Hc w. eapply Forall_impl; [apply Hc | exact HPQ]. Qed.

End RunFacts.

Import RunFacts.

(** ** The test runner *)

Module ExecutorFacts.

Lemma runErr_exitedZero (r : processResult) :
  runErr r = None <-> exitedZero (status r) = true.
Proof. unfold runErr. destruct (status r) as [| [| ? | ?]]; simpl; split; done. Qed.

(** What [RunTests] returns, and the process it starts. *)
Lemma RunTests_run (env : Env) (workDir language : gostring) (w : World) :
  RunTests env workDir language w =
  if supportedLanguages language then
    let r := process env (nProcess (counters w)) in
    (inr {| Passed := exitedZero (status r); Output := stdout r ++ stderr r |},
     tickProcess w,
     [EvRun (if bool_decide (language = runes "go") then GoTest else PyTest)
        workDir (status r)])
  else (inl (Errorf "unsupported language: %s"), w, []).
Proof.
  unfold RunTests, supportedLanguages, bind, cmdRun, ret, fail.
  do 2 case_bool_decide; simpl; try reflexivity;
    unfold runErr; destruct (status _) as [| [| ? | ?]]; reflexivity.
Qed.

Lemma resOf_RunTests (env : Env) (workDir language : gostring) (w : World) :
  resOf (RunTests env workDir language) w =
  if supportedLanguages language then
    let r := process env (nProcess (counters w)) in
    inr {| Passed := exitedZero (status r); Output := stdout r ++ stderr r |}
  else inl (Errorf "unsupported language: %s").
Proof. unfold resOf. rewrite RunTests_run. by destruct (supportedLanguages _). Qed.

Lemma worldOf_RunTests (env : Env) (workDir language : gostring) (w : World) :
  worldOf (RunTests env workDir language) w =
  if supportedLanguages language then tickProcess w else w.
Proof. unfold worldOf. rewrite RunTests_run. by destruct (supportedLanguages _). Qed.

Lemma logOf_RunTests (env : Env) (workDir language : gostring) (w : World) :
  logOf (RunTests env workDir language) w =
  if supportedLanguages language then
    [EvRun (if bool_decide (language = runes "go") then GoTest else PyTest)
       workDir (status (process env (nProcess (counters w))))]
  else [].
Proof. unfold logOf. rewrite RunTests_run. by destruct (supportedLanguages _). Qed.

End ExecutorFacts.

Import ExecutorFacts.

(** ** The session store *)

Module StorageFacts.

(** One call: with an error nothing is stored; without, the record of the
    session is the one read with one iteration more, numbered by its
    place, and nothing else changes. *)
Lemma AddIteration_spec (env : Env) (id tc c logs : gostring) (ok : bool) (w : World) :
  logOf (AddIteration env id tc c logs ok) w = []
  /\ sessionDirs (worldOf (AddIteration env id tc c logs ok) w) = sessionDirs w
  /\ match resOf (AddIteration env id tc c logs ok) w with
     | inl _ =>
         sessionFiles (worldOf (AddIteration env id tc c logs ok) w) = sessionFiles w
     | inr _ =>
         exists s stamp updated,
           sessionFiles w !! id = Some s
           /\ sessionFiles (worldOf (AddIteration env id tc c logs ok) w)
              = <[Storage.ID s :=
                    withIteration s
                      {| Storage.Number := Z.of_nat (length (Storage.Iterations s)) + 1;
                         Storage.TestCode := tc; Storage.Code := c;
                         Storage.TestLogs := logs; Storage.Success := ok;
                         Storage.Timestamp := stamp |} updated]> (sessionFiles w)
     end.
Proof.
  unfold logOf, worldOf, resOf, AddIteration, GetSession, saveSession, Now, bind,
    fileCall, getWorld, putWorld, ret, fail. simpl.
  destruct (fileOk env (nFileOp (counters w))); simpl; [| done].
  destruct (sessionFiles w !! id) as [s |] eqn:Hs; simpl; [| done].
  destruct (fileOk env _ && bool_decide _); simpl; [| done].
  split_and!; [done | done |]. eauto.
Qed.

Lemma storeOk_step (env : Env) (call : AddCall) (w : World) :
  storeOk w -> storeOk (worldOf (addOne env call) w).
Proof.
  intros Hok. unfold addOne.
  destruct (AddIteration_spec env (atSession call) (withTest call) (withCode call)
              (withLogs call) (withSuccess call) w) as (_ & _ & H).
  destruct (resOf _ w).
  - intros k s Hk. rewrite H in Hk. by apply Hok.
  - destruct H as (s0 & stamp & updated & Hs0 & H). intros k s Hk. rewrite H in Hk.
    destruct (decide (Storage.ID s0 = k)) as [<- | Hne].
    + rewrite lookup_insert_eq in Hk. by injection Hk as <-.
    + rewrite lookup_insert_ne in Hk by done. by apply Hok.
Qed.

(** The numbers of a session after a sequence of calls: what was stored
    stays as it was, and the calls for this session that returned no error
    follow, in order, numbered from the next place on. *)
Lemma addAll_numbers (env : Env) (id : gostring) (calls : list AddCall) :
  forall (w : World) (s0 : Storage.Session),
  storeOk w -> sessionFiles w !! id = Some s0 ->
  let mine := filter (fun call => atSession call = id) (addAll env calls w).2 in
  exists s : Storage.Session,
    sessionFiles (addAll env calls w).1 !! id = Some s
    /\ exists added,
        Storage.Iterations s = Storage.Iterations s0 ++ added
        /\ Storage.Number <$> added
           = seqZ (Z.of_nat (length (Storage.Iterations s0)) + 1) (Z.of_nat (length mine))
        /\ stored <$> added = asked <$> mine.
Proof.
  induction calls as [| call calls IH]; intros w s0 Hok Hs0.
  - simpl. exists s0. split; [done |]. exists []. by rewrite app_nil_r.
  - cbn [addAll]. pose proof (storeOk_step env call w Hok) as Hok1.
    destruct (addAll env calls (worldOf (addOne env call) w)) as [w2 acc] eqn:Hall.
    unfold addOne in *.
    destruct (AddIteration_spec env (atSession call) (withTest call) (withCode call)
                (withLogs call) (withSuccess call) w) as (_ & _ & H).
    destruct (resOf _ w) as [e | []].
    + (* the call returned an error: nothing stored *)
      specialize (IH _ s0 Hok1). rewrite H, Hall in IH. exact (IH Hs0).
    + destruct H as (s1 & stamp & updated & Hs1 & Hfiles).
      pose proof (Hok _ _ Hs1) as Hid. rewrite Hid in Hfiles.
      destruct (decide (atSession call = id)) as [Heq | Hne].
      * (* a call for this session *)
        rewrite Heq in *. rewrite Hs0 in Hs1. injection Hs1 as <-.
        specialize (IH _ _ Hok1 ltac:(rewrite Hfiles; apply lookup_insert_eq)).
        rewrite Hall in IH. simpl in IH.
        destruct IH as (s & Hs & added & Hit & Hnum & Hst).
        exists s. split; [exact Hs |]. simpl.
        rewrite filter_cons_True by done.
        eexists (_ :: added). split; [rewrite Hit, <- app_assoc; reflexivity |].
        rewrite length_app in Hnum. simpl in Hnum. split.
        -- cbn [fmap list_fmap length]. rewrite Nat2Z.inj_succ, seqZ_cons by lia.
           simpl. f_equal.
           rewrite Hnum. f_equal; lia.
        -- cbn [fmap list_fmap]. f_equal. exact Hst.
      * specialize (IH _ s0 Hok1 ltac:(rewrite Hfiles, lookup_insert_ne by done; exact Hs0)).
        rewrite Hall in IH. simpl in IH. simpl.
        rewrite filter_cons_False by done. exact IH.
Qed.

(** With a file system that does not fail, a call for a session that
    exists returns no error. *)
Lemma AddIteration_ok (env : Env) (id tc c logs : gostring) (ok : bool) (w : World)
    (s : Storage.Session) :
  (forall n, fileOk env n = true) ->
  sessionFiles w !! id = Some s -> Storage.ID s ∈ sessionDirs w ->
  resOf (AddIteration env id tc c logs ok) w = inr tt.
Proof.
  intros Hfs Hs Hdir.
  unfold resOf, AddIteration, GetSession, saveSession, Now, bind, fileCall, getWorld,
    putWorld, ret, fail. simpl.
  rewrite !Hfs. simpl. rewrite Hs. simpl. rewrite !Hfs.
  rewrite bool_decide_eq_true_2 by done. reflexivity.
Qed.

Lemma addAll_all_stored (env : Env) (id : gostring) (calls : list AddCall) :
  (forall n, fileOk env n = true) ->
  Forall (fun call => atSession call = id) calls ->
  forall (w : World) (s0 : Storage.Session),
    storeOk w -> sessionFiles w !! id = Some s0 -> id ∈ sessionDirs w ->
    (addAll env calls w).2 = calls.
Proof.
  intros Hfs Hcalls. induction Hcalls as [| call calls Hcall _ IH]; intros w s0 Hok Hs0 Hdir.
  - reflexivity.
  - cbn [addAll]. pose proof (storeOk_step env call w Hok) as Hok1.
    pose proof (Hok _ _ Hs0) as Hid. simpl in Hid.
    unfold addOne in *. rewrite Hcall in *.
    destruct (AddIteration_spec env id (withTest call) (withCode call)
                (withLogs call) (withSuccess call) w) as (_ & Hdirs & H).
    rewrite (AddIteration_ok env id _ _ _ _ w s0) in * by (rewrite ?Hid; done).
    destruct H as (s1 & stamp & updated & Hs1 & Hfiles).
    rewrite Hs0 in Hs1. injection Hs1 as <-. rewrite Hid in Hfiles.
    specialize (IH _ _ Hok1 ltac:(rewrite Hfiles; apply lookup_insert_eq)
                  ltac:(rewrite Hdirs; exact Hdir)).
    destruct (addAll env calls _) as [w2 acc]. simpl in *. by rewrite IH.
Qed.

End StorageFacts.

Import StorageFacts.

(** ** The controller *)

Module ControllerFacts.

Section Events.
Context (env : Env) (P : Event -> Prop).

Lemma emits_silent {A : Type} (c : M A) : (forall w, logOf c w = []) -> emits P c.
Proof. intros H w. rewrite H. constructor. Qed.

Lemma emits_fileCall : emits P (fileCall env).
Proof. by apply emits_silent. Qed.

Lemma emits_Now : emits P (Now env).
Proof. by apply emits_silent. Qed.

Lemma emits_NewUUID : emits P (NewUUID env).
Proof. by apply emits_silent. Qed.

Lemma emits_GenerateCompletion (p : Prompt) :
  P (EvCompletion p) -> emits P (GenerateCompletion env p).
Proof. intros H w. by repeat constructor. Qed.

Lemma emits_cmdRun (cmd : Command) (dir : gostring) :
  (forall st, P (EvRun cmd dir st)) -> emits P (cmdRun env cmd dir).
Proof. intros H w. by repeat constructor. Qed.

Lemma emits_RemoveAll (dir : gostring) : P (EvRemoveAll dir) -> emits P (RemoveAll dir).
Proof. intros H w. by repeat constructor. Qed.

Lemma emits_MkdirTemp : (forall dir, P (EvMkdirTemp dir)) -> emits P (MkdirTemp env).
Proof.
  intros H. unfold MkdirTemp. apply emits_bind; [apply emits_fileCall |].
  intros [|]; [| apply emits_fail]. intros w. by repeat constructor.
Qed.

Lemma emits_WriteFile (dir name content : gostring) :
  P (EvWriteFile dir name content) -> emits P (WriteFile env dir name content).
Proof.
  intros H. unfold WriteFile. apply emits_bind; [apply emits_fileCall |].
  intros [|]; [| apply emits_fail]. intros w. by repeat constructor.
Qed.

Lemma emits_ReadFile (dir name : gostring) :
  P (EvReadFile dir name) -> emits P (ReadFile env dir name).
Proof.
  intros H. unfold ReadFile. apply emits_bind; [apply emits_fileCall |].
  intros ok. apply emits_bind; [apply emits_getWorld |]. intros w.
  destruct (if ok then _ else _); [| apply emits_fail].
  apply emits_bind; [by apply emits_emit | intros; apply emits_ret].
Qed.

Lemma emits_MkdirAll (dir : gostring) : P (EvMkdirAll dir) -> emits P (MkdirAll env dir).
Proof.
  intros H. unfold MkdirAll. apply emits_bind; [apply emits_fileCall |].
  intros [|]; [by apply emits_emit | apply emits_fail].
Qed.

(** The session store causes no event. *)
Lemma emits_AddIteration (id tc c logs : gostring) (ok : bool) :
  emits P (AddIteration env id tc c logs ok).
Proof. apply emits_silent. intros w. apply AddIteration_spec. Qed.

Lemma emits_saveSession (s : Storage.Session) : emits P (saveSession env s).
Proof.
  unfold saveSession. apply emits_bind; [apply emits_fileCall |]. intros ok.
  apply emits_bind; [apply emits_getWorld |]. intros w.
  destruct (_ && _); [apply emits_putWorld | apply emits_fail].
Qed.

Lemma emits_CreateSession (description language : gostring) :
  emits P (CreateSession env description language).
Proof.
  unfold CreateSession.
  apply emits_bind; [apply emits_NewUUID |]. intros id.
  apply emits_bind; [apply emits_Now |]. intros t1.
  apply emits_bind; [apply emits_Now |]. intros t2.
  apply emits_bind; [apply emits_fileCall |]. intros [|]; [| apply emits_fail].
  apply emits_bind; [apply emits_getWorld |]. intros w.
  apply emits_bind; [apply emits_putWorld |]. intros _.
  apply emits_bind; [apply emits_saveSession |]. intros _. apply emits_ret.
Qed.

Lemma emits_NewStorage : emits P (NewStorage env).
Proof.
  unfold NewStorage. apply emits_bind; [apply emits_fileCall |].
  intros [|]; [apply emits_ret | apply emits_fail].
Qed.
End Events.

(** One step of a proof that a computation causes only events of a kind:
    the shape of the computation decides the lemma, and the kind of the
    event at a leaf is decided by evaluation. *)
Ltac emits_step :=
  lazymatch goal with
  | |- emits _ (bind _ _) => apply emits_bind; [| intros ?]
  | |- emits _ (wrapf _ _) => apply emits_wrapf
  | |- emits _ (try _) => apply emits_try
  | |- emits _ (defer _ _) => apply emits_defer
  | |- emits _ (ret _) => apply emits_ret
  | |- emits _ (fail _) => apply emits_fail
  | |- emits _ (emit _) => apply emits_emit
  | |- emits _ getWorld => apply emits_getWorld
  | |- emits _ (putWorld _) => apply emits_putWorld
  | |- emits _ (fileCall _) => apply emits_fileCall
  | |- emits _ (Now _) => apply emits_Now
  | |- emits _ (NewUUID _) => apply emits_NewUUID
  | |- emits _ (NewStorage _) => apply emits_NewStorage
  | |- emits _ (GenerateCompletion _ _) => apply emits_GenerateCompletion
  | |- emits _ (cmdRun _ _ _) => apply emits_cmdRun; intros ?
  | |- emits _ (RemoveAll _) => apply emits_RemoveAll
  | |- emits _ (MkdirTemp _) => apply emits_MkdirTemp; intros ?
  | |- emits _ (WriteFile _ _ _ _) => apply emits_WriteFile
  | |- emits _ (ReadFile _ _ _) => apply emits_ReadFile
  | |- emits _ (MkdirAll _ _) => apply emits_MkdirAll
  | |- emits _ (AddIteration _ _ _ _ _ _) => apply emits_AddIteration
  | |- emits _ (CreateSession _ _ _) => apply emits_CreateSession
  | |- emits _ (if ?b then _ else _) => destruct b
  | |- emits _ (match ?x with _ => _ end) => destruct x
  end.

Ltac emits_all := repeat emits_step; try done.

(** *** The kinds of events *)

Lemma countTestRuns_app (t1 t2 : list Event) :
  countTestRuns (t1 ++ t2) = (countTestRuns t1 + countTestRuns t2)%nat.
Proof. unfold countTestRuns. by rewrite filter_app, length_app. Qed.

Lemma countTestRuns_none (t : list Event) : Forall notTestRun t -> countTestRuns t = 0%nat.
Proof.
  unfold countTestRuns. induction 1 as [| e t He _ IH]; [reflexivity |].
  rewrite filter_cons_False; [exact IH |]. unfold notTestRun in He. congruence.
Qed.

Lemma countTestRuns_one (e : Event) : isTestRun e = true -> countTestRuns [e] = 1%nat.
Proof. intros He. unfold countTestRuns. by rewrite filter_cons_True. Qed.

Lemma notTestRun_notPass (e : Event) : notTestRun e -> notPass e.
Proof. unfold notTestRun, notPass. by destruct e as [| [] | | | | |]. Qed.

Lemma quiet_notPass (e : Event) : quiet e -> notPass e.
Proof. intros [H _]. by apply notTestRun_notPass. Qed.

(** *** What each part of the controller causes *)

Section Parts.
Context (env : Env) (P : Event -> Prop).

Lemma emits_goGetAll (workDir : gostring) (pkgs : list gostring) :
  (forall pkg st, P (EvRun (GoGet pkg) workDir st)) ->
  emits P (goGetAll env workDir pkgs).
Proof. intros H. induction pkgs as [| pkg pkgs IH]; cbn [goGetAll]; emits_all. Qed.

Lemma emits_UpdateDependencies (workDir code testCode : gostring) :
  (forall cmd st, isTestRun (EvRun cmd workDir st) = false -> P (EvRun cmd workDir st)) ->
  emits P (UpdateDependencies env workDir code testCode).
Proof.
  intros H. unfold UpdateDependencies. emits_all; try (by apply H).
  apply emits_goGetAll. intros. by apply H.
Qed.

Lemma emits_writeFiles (dir testCode code language : gostring) :
  (forall name, P (EvWriteFile dir name testCode)) ->
  (forall name, P (EvWriteFile dir name code)) ->
  (forall cmd st, isTestRun (EvRun cmd dir st) = false -> P (EvRun cmd dir st)) ->
  emits P (writeFiles env dir testCode code language).
Proof.
  intros H1 H2 H3. unfold writeFiles. emits_all.
  by apply emits_UpdateDependencies.
Qed.

Lemma emits_FixBoth (code testCode output language : gostring) :
  (forall p, P (EvCompletion p)) ->
  emits P (FixBoth env code testCode output language).
Proof. intros H. unfold FixBoth. emits_all. Qed.

Lemma emits_copyEach (srcDir dstDir : gostring) (names : list gostring) :
  (forall d n, P (EvReadFile d n)) -> (forall d n c, P (EvWriteFile d n c)) ->
  emits P (copyEach env srcDir dstDir names).
Proof.
  intros H1 H2. induction names as [| name names IH]; cbn [copyEach]; emits_all.
Qed.

Lemma emits_copyFinalFiles (srcDir dstDir language : gostring) :
  (forall d n, P (EvReadFile d n)) -> (forall d n c, P (EvWriteFile d n c)) ->
  emits P (copyFinalFiles env srcDir dstDir language).
Proof.
  intros H1 H2. unfold copyFinalFiles. emits_all. by apply emits_copyEach.
Qed.
End Parts.

Section Prelude.
Context (env : Env).

Lemma PrepareWorkspace_notTestRun (language : gostring) :
  emits notTestRun (PrepareWorkspace env language).
Proof. unfold PrepareWorkspace, initGoModule, initPythonEnv. emits_all. Qed.

Lemma GenerateDirectoryName_notTestRun (description : gostring) :
  emits notTestRun (GenerateDirectoryName env description).
Proof. unfold GenerateDirectoryName. emits_all. Qed.

Lemma GenerateTests_notTestRun (description language : gostring) :
  emits notTestRun (GenerateTests env description language).
Proof. unfold GenerateTests. emits_all. Qed.

Lemma GenerateImplementation_notTestRun (description testCode language : gostring) :
  emits notTestRun (GenerateImplementation env description testCode language).
Proof. unfold GenerateImplementation. emits_all. Qed.

Lemma writeFiles_notTestRun (dir testCode code language : gostring) :
  emits notTestRun (writeFiles env dir testCode code language).
Proof. apply emits_writeFiles; done. Qed.

Lemma FixBoth_notTestRun (code testCode output language : gostring) :
  emits notTestRun (FixBoth env code testCode output language).
Proof. apply emits_FixBoth; done. Qed.

Lemma copyFinalFiles_quiet (srcDir dstDir language : gostring) :
  emits quiet (copyFinalFiles env srcDir dstDir language).
Proof. apply emits_copyFinalFiles; done. Qed.

(** What [FixBoth] returns has both sources, neither empty. *)
Lemma FixBoth_nonempty (code testCode output language : gostring) (w : World)
    (fr : FixResult) :
  resOf (FixBoth env code testCode output language) w = inr fr ->
  Generator.Code fr <> [] /\ Generator.TestCode fr <> [].
Proof.
  unfold FixBoth. rewrite resOf_bind.
  destruct (resOf (GenerateCompletion env _) w) as [e | response]; [discriminate |].
  destruct (parseFixResponse response) as [e | r] eqn:Hp; [discriminate |].
  intros [= <-]. by apply (parse_ok_nonempty response).
Qed.

Lemma writeFiles_writesSource (dir testCode code language : gostring) :
  testCode <> [] -> code <> [] ->
  emits writesSource (writeFiles env dir testCode code language).
Proof.
  intros H1 H2. apply emits_writeFiles; intros; simpl; try done.
  - by destruct testCode.
  - by destruct code.
Qed.
End Prelude.

(** *** The iteration loop *)

Lemma loopOutcome_early (n : nat) (t : list Event) (e : error) :
  Forall notTestRun t -> Forall writesSource t -> loopOutcome n t (inl e).
Proof.
  intros Ht Hw. split_and!; [rewrite countTestRuns_none by done; lia | done |].
  left. split_and!; [| done | done].
  eapply Forall_impl; [exact Ht | apply notTestRun_notPass].
Qed.

(** More events before the loop's, none of them a run of the tests but
    for one that did not pass. *)
Lemma loopOutcome_round (n : nat) (e0 : Event) (mid t : list Event) (r : error + bool) :
  isTestRun e0 = true -> isTestPass e0 = false ->
  Forall notTestRun mid -> Forall writesSource mid ->
  loopOutcome n t r -> loopOutcome (S n) (e0 :: mid ++ t) r.
Proof.
  intros He0 Hp0 Hmid Hwmid (Hcount & Hw & Hshape).
  assert (Hc : countTestRuns (e0 :: mid ++ t) = S (countTestRuns t)).
  { change (e0 :: mid ++ t) with ([e0] ++ mid ++ t).
    rewrite !countTestRuns_app, (countTestRuns_none mid) by done.
    unfold countTestRuns at 1. by rewrite filter_cons_True. }
  assert (Hnp : Forall notPass (e0 :: mid)).
  { constructor; [exact Hp0 |].
    eapply Forall_impl; [exact Hmid | apply notTestRun_notPass]. }
  split_and!.
  - lia.
  - constructor; [by destruct e0 as [| | | | | ? ? []|] |]. by apply Forall_app.
  - destruct Hshape as [(Hno & Hex & Hnt) | (t1 & e & -> & Hno & He & Hnf)].
    + left. split_and!; [| intros ->; rewrite Hc, Hex by done; done | done].
      change (e0 :: mid ++ t) with ((e0 :: mid) ++ t). by apply Forall_app.
    + right. exists (e0 :: mid ++ t1), e. split_and!; [| | done | done].
      * cbn [app]. by rewrite <- app_assoc.
      * change (e0 :: mid ++ t1) with ((e0 :: mid) ++ t1). by apply Forall_app.
Qed.

Lemma iterationLoop_outcome (env : Env) (sessionID workDir language : gostring)
    (n : nat) :
  forall (testCode code : gostring) (w : World),
    loopOutcome n
      (logOf (iterationLoop env sessionID workDir language n testCode code) w)
      (resOf (iterationLoop env sessionID workDir language n testCode code) w).
Proof.
  induction n as [| n IH]; intros testCode code w.
  - split_and!; [done | constructor |]. left. split_and!; [constructor | done | done].
  - cbn [iterationLoop]. rewrite logOf_bind, resOf_bind, logOf_wrapf, resOf_wrapf,
      worldOf_wrapf.
    rewrite logOf_RunTests, resOf_RunTests, worldOf_RunTests.
    destruct (supportedLanguages language) eqn:Hlang; cbv zeta;
      [| apply loopOutcome_early; constructor].
    set (st := status (process env (nProcess (counters w)))).
    set (cmd := if bool_decide (language = runes "go") then GoTest else PyTest).
    set (result := {| Passed := exitedZero st; Output := _ |}).
    set (w1 := tickProcess w).
    assert (Hrun : isTestRun (EvRun cmd workDir st) = true) by (subst cmd; by case_bool_decide).
    assert (Hpass : isTestPass (EvRun cmd workDir st) = exitedZero st)
      by (subst cmd; by case_bool_decide).
    cbv beta iota.
    rewrite logOf_bind, resOf_bind, logOf_wrapf, resOf_wrapf, worldOf_wrapf.
    rewrite (proj1 (AddIteration_spec env _ _ _ _ _ w1)). cbn [app].
    destruct (resOf (AddIteration env _ _ _ _ _) w1) as [e | []] eqn:Hadd; cbv beta iota.
    { (* the iteration could not be stored *)
      split_and!; [rewrite countTestRuns_one by done; lia | by repeat constructor |].
      destruct (exitedZero st) eqn:Hst.
      - right. exists [], (EvRun cmd workDir st). by rewrite Hpass.
      - left. split_and!; [| done | done]. repeat constructor. unfold notPass. congruence. }
    cbn [Passed result]. destruct (exitedZero st) eqn:Hst.
    { (* the tests passed *)
      split_and!; [rewrite countTestRuns_one by done; lia | by repeat constructor |].
      right. exists [], (EvRun cmd workDir st). by rewrite Hpass. }
    set (w2 := worldOf _ w1).
    rewrite logOf_bind, resOf_bind, logOf_wrapf, resOf_wrapf, worldOf_wrapf.
    pose proof (FixBoth_notTestRun env code testCode (Output result) language w2) as Hfix.
    pose proof (emits_FixBoth env writesSource code testCode (Output result) language
                  ltac:(done) w2) as Hfixw.
    destruct (resOf (FixBoth env _ _ _ _) w2) as [e | fr] eqn:Hfr; cbv beta iota.
    { apply loopOutcome_round; try done.
      apply loopOutcome_early; constructor. }
    apply FixBoth_nonempty in Hfr as [Hcode Htest].
    set (w3 := worldOf _ w2).
    rewrite logOf_bind, resOf_bind, logOf_wrapf, resOf_wrapf, worldOf_wrapf.
    pose proof (writeFiles_notTestRun env workDir (Generator.TestCode fr)
                  (Generator.Code fr) language w3) as Hwr.
    pose proof (writeFiles_writesSource env workDir (Generator.TestCode fr)
                  (Generator.Code fr) language Htest Hcode w3) as Hwrw.
    rewrite app_assoc.
    apply loopOutcome_round; try done; [by apply Forall_app | by apply Forall_app |].
    destruct (resOf (writeFiles env _ _ _ _) w3) as [e | []]; cbv beta iota.
    + apply loopOutcome_early; constructor.
    + apply IH.
Qed.

(** *** The whole run *)

Lemma phased_fail (e : error) : phased (fail e).
Proof.
  intros w. exists [], [], [], (inl e). split_and!; try done.
  apply loopOutcome_early; constructor.
Qed.

Lemma phased_bind {A : Type} (c : M A) (k : A -> M bool) :
  emits notTestRun c -> (forall a, phased (k a)) -> phased (bind c k).
Proof.
  intros Hc Hk w. rewrite logOf_bind, resOf_bind.
  destruct (resOf c w) as [e | a].
  - exists (logOf c w), [], [], (inl e). split_and!; try done.
    apply loopOutcome_early; constructor.
  - destruct (Hk a (worldOf c w)) as (pre & mid & post & r & -> & Hpre & Hmid & Hpost & Hr).
    exists (logOf c w ++ pre), mid, post, r. split_and!; try done.
    + by rewrite <- app_assoc.
    + apply Forall_app. split; [apply Hc | done].
Qed.

Lemma phased_defer (cleanup : M unit) (c : M bool) :
  emits quiet cleanup -> phased c -> phased (defer cleanup c).
Proof.
  intros Hd Hc w. rewrite logOf_defer, resOf_defer.
  destruct (Hc w) as (pre & mid & post & r & -> & Hpre & Hmid & Hpost & Hr).
  exists pre, mid, (post ++ logOf cleanup (worldOf c w)), r. split_and!; try done.
  - by rewrite <- !app_assoc.
  - apply Forall_app. split; [done | apply Hd].
Qed.

Lemma phased_if (b : bool) (c1 c2 : M bool) :
  phased c1 -> phased c2 -> phased (if b then c1 else c2).
Proof. by destruct b. Qed.

Lemma phased_loop (env : Env) (sessionID workDir language testCode code : gostring)
    (k : bool -> M bool) :
  (forall b, emits quiet (k b)) ->
  (forall b w b', resOf (k b) w = inr b' -> b' = b) ->
  phased (bind (iterationLoop env sessionID workDir language maxIterations testCode code) k).
Proof.
  intros Hq Hk w. rewrite logOf_bind, resOf_bind.
  pose proof (iterationLoop_outcome env sessionID workDir language maxIterations
                testCode code w) as Hloop.
  set (loop := iterationLoop _ _ _ _ _ _ _) in *.
  exists [], (logOf loop w),
    (match resOf loop w with inl _ => [] | inr a => logOf (k a) (worldOf loop w) end),
    (resOf loop w).
  split_and!; try done.
  - destruct (resOf loop w); [constructor | apply Hq].
  - intros b. destruct (resOf loop w) as [e | b0]; [done |].
    intros ->%Hk. reflexivity.
Qed.

Lemma runNew_phased (env : Env) (description languageLine : gostring) :
  phased (runNew env description languageLine).
Proof.
  unfold runNew.
  repeat first
    [ apply phased_fail
    | apply phased_if
    | apply phased_loop
    | apply phased_bind; [| intros ?]
    | apply phased_defer
    | lazymatch goal with
      | |- phased (match ?x with _ => _ end) => destruct x
      | |- phased (let _ := _ in _) => cbv zeta
      end ].
  all: try (apply emits_wrapf).
  all: try (apply emits_try).
  - apply emits_NewStorage.
  - apply emits_CreateSession.
  - apply PrepareWorkspace_notTestRun.
  - by apply emits_RemoveAll.
  - apply GenerateDirectoryName_notTestRun.
  - by apply emits_MkdirAll.
  - apply GenerateTests_notTestRun.
  - apply GenerateImplementation_notTestRun.
  - apply writeFiles_notTestRun.
  - intros b. apply emits_bind; [apply emits_wrapf, copyFinalFiles_quiet |].
    intros _. apply emits_ret.
  - intros b w b'. rewrite resOf_bind, resOf_wrapf.
    destruct (resOf (copyFinalFiles _ _ _ _) w); [discriminate |].
    unfold resOf, ret. simpl. by intros [= <-].
Qed.

(** Two ways to cut a log at a run that passed, when it holds one such
    run: they are the same. *)
Lemma single_pass_cut (t1 t2 pre post : list Event) (e1 e : Event) :
  Forall notPass t1 -> Forall notPass t2 ->
  isTestPass e1 = true -> isTestPass e = true ->
  t1 ++ e1 :: t2 = pre ++ e :: post -> post = t2.
Proof.
  intros H1 H2 He1 He. revert pre. induction H1 as [| x t1 Hx _ IH]; intros pre Heq.
  - destruct pre as [| y pre]; simpl in Heq.
    + by injection Heq as _ <-.
    + injection Heq as <- Heq. exfalso.
      assert (Hin : e ∈ t2) by (rewrite Heq, elem_of_app; right; apply list_elem_of_here).
      eapply Forall_forall in H2; [| exact Hin]. unfold notPass in H2. congruence.
  - destruct pre as [| y pre]; simpl in Heq.
    + injection Heq as <- _. unfold notPass in Hx. congruence.
    + injection Heq as _ Heq. by apply IH in Heq.
Qed.

(** *** The workspace of a Go run *)

Lemma emits_iterationLoop (env : Env) (P : Event -> Prop)
    (sessionID workDir language : gostring) (n : nat) :
  (forall c d st, P (EvRun c d st)) -> (forall p, P (EvCompletion p)) ->
  (forall d name c, P (EvWriteFile d name c)) ->
  forall testCode code,
    emits P (iterationLoop env sessionID workDir language n testCode code).
Proof.
  intros Hrun Hcompl Hwrite. induction n as [| n IH]; intros testCode code;
    cbn [iterationLoop]; [apply emits_ret |].
  apply emits_bind; [unfold RunTests; emits_all |]. intros result.
  apply emits_bind; [emits_all |]. intros _.
  destruct (Passed result); [apply emits_ret |].
  apply emits_bind; [by apply emits_wrapf, emits_FixBoth |]. intros fr.
  apply emits_bind; [apply emits_wrapf, emits_writeFiles; auto |]. intros _.
  apply IH.
Qed.

Lemma notMkdirTemp_not_in (t : list Event) (dir : gostring) :
  Forall notMkdirTemp t -> EvMkdirTemp dir ∉ t.
Proof.
  intros Ht Hin. eapply Forall_forall in Ht; [| exact Hin]. exact Ht.
Qed.

(** The Go branch of [PrepareWorkspace]: with an error, what was made was
    removed; without, the directory returned is the only one made. *)
Lemma PrepareWorkspace_go (env : Env) (w : World) :
  match resOf (PrepareWorkspace env (runes "go")) w with
  | inl _ => cleaned (logOf (PrepareWorkspace env (runes "go")) w)
  | inr workDir =>
      forall dir, EvMkdirTemp dir ∈ logOf (PrepareWorkspace env (runes "go")) w ->
                  dir = workDir
  end.
Proof.
  unfold resOf, logOf, cleaned, PrepareWorkspace, initGoModule, MkdirTemp, WriteFile,
    RemoveAll, wrapf, try, bind, fileCall, cmdRun, ret, fail.
  rewrite bool_decide_eq_true_2 by reflexivity. simpl.
  destruct (fileOk env _); simpl; [| by intros dir Hin%elem_of_nil].
  destruct (runErr (process env _)); simpl.
  { intros dir. rewrite !elem_of_cons. intros [[= ->] | [[=] | [[=] | Hin%elem_of_nil]]]; [| done].
    do 2 right. by left. }
  destruct (fileOk env _); simpl.
  2:{ intros dir. rewrite !elem_of_cons. intros [[= ->] | [[=] | [[=] | Hin%elem_of_nil]]]; [| done].
      do 2 right. by left. }
  destruct (runErr (process env _)); simpl.
  - intros dir. rewrite !elem_of_cons.
    intros [[= ->] | [[=] | [[=] | [[=] | [[=] | Hin%elem_of_nil]]]]]; [| done].
    do 4 right. by left.
  - intros dir. rewrite !elem_of_cons.
    intros [[= ->] | [[=] | [[=] | [[=] | Hin%elem_of_nil]]]]; done.
Qed.

Lemma cleaned_after (t1 t2 : list Event) :
  Forall notMkdirTemp t1 -> cleaned t2 -> cleaned (t1 ++ t2).
Proof.
  intros H1 H2 dir. rewrite !elem_of_app. intros [Hin | Hin].
  - by apply notMkdirTemp_not_in in Hin.
  - right. by apply H2.
Qed.

Lemma cleaned_none (t : list Event) : Forall notMkdirTemp t -> cleaned t.
Proof. intros Ht dir Hin. by apply notMkdirTemp_not_in in Hin. Qed.

Lemma body_notMkdirTemp (env : Env) (session : Storage.Session)
    (description language workDir : gostring) :
  emits notMkdirTemp
    (r <- try (GenerateDirectoryName env description) ;;
     let outputDirName :=
       match r with
       | inl _ => runes "generated-function"
       | inr name => name
       end in
     let outputDir := if bool_decide (outputDirName = []) then runes "."
                      else outputDirName in
     run wrapf "failed to create output directory: %w" (MkdirAll env outputDir) ;;
     testCode <- wrapf "failed to generate tests: %w"
                   (GenerateTests env description language) ;;
     code <- wrapf "failed to generate implementation: %w"
               (GenerateImplementation env description testCode language) ;;
     run wrapf "failed to write files: %w"
           (writeFiles env workDir testCode code language) ;;
     success <- iterationLoop env (Storage.ID session) workDir language maxIterations
                  testCode code ;;
     run wrapf "failed to copy final files: %w"
           (copyFinalFiles env workDir outputDir language) ;;
     ret success).
Proof.
  apply emits_bind; [unfold GenerateDirectoryName; emits_all |]. intros r. cbv zeta.
  apply emits_bind; [emits_all |]. intros _.
  apply emits_bind; [unfold GenerateTests; emits_all |]. intros testCode.
  apply emits_bind; [unfold GenerateImplementation; emits_all |]. intros code.
  apply emits_bind; [by apply emits_wrapf, emits_writeFiles |]. intros _.
  apply emits_bind; [by apply emits_iterationLoop |]. intros success.
  apply emits_bind; [by apply emits_wrapf, emits_copyFinalFiles |]. intros _.
  apply emits_ret.
Qed.

(** A run for Go removes the workspace it made, on every way out. *)
Lemma runNew_go_workspace_removed (env : Env) (description : gostring) (w : World) :
  cleaned (logOf (runNew env description (runes "go")) w).
Proof.
  unfold runNew.
  change (ToLower (unicodeToLower env) (TrimSpace (runes "go"))) with (runes "go").
  destruct (hasApiKey env); simpl negb; cbv iota; [| by apply cleaned_none].
  destruct (hasHomeDir env); simpl negb; cbv iota; [| by apply cleaned_none].
  rewrite logOf_bind. apply cleaned_after; [apply emits_wrapf, emits_NewStorage |].
  destruct (resOf _ w) as [e | []]; [by apply cleaned_none |].
  set (w1 := worldOf _ w). clearbody w1.
  case_bool_decide; [by apply cleaned_none |].
  rewrite (bool_decide_eq_false_2 (runes "go" = [])) by discriminate.
  change (supportedLanguages (runes "go")) with true. simpl negb. cbv iota.
  rewrite logOf_bind. apply cleaned_after; [apply emits_wrapf, emits_CreateSession |].
  destruct (resOf _ w1) as [e | session]; [by apply cleaned_none |].
  set (w2 := worldOf _ w1). clearbody w2.
  rewrite logOf_bind, logOf_wrapf, resOf_wrapf, worldOf_wrapf.
  pose proof (PrepareWorkspace_go env w2) as Hpw.
  destruct (resOf (PrepareWorkspace env (runes "go")) w2) as [e | workDir].
  { by rewrite app_nil_r. }
  rewrite logOf_defer.
  set (body := bind _ _).
  pose proof (body_notMkdirTemp env session description (runes "go") workDir
                (worldOf (PrepareWorkspace env (runes "go")) w2)) as Hbody.
  fold body in Hbody.
  intros dir. rewrite !elem_of_app. intros [Hin | [Hin | Hin]].
  - apply Hpw in Hin as ->. do 2 right. apply list_elem_of_here.
  - by apply notMkdirTemp_not_in in Hin.
  - unfold logOf, RemoveAll in Hin. simpl in Hin.
    apply list_elem_of_singleton in Hin. discriminate.
Qed.

End ControllerFacts.

Import ControllerFacts.

(** * More of the program's properties *)

(** ** More on [stripCodeBlock] *)

Module MoreStripFacts.

Lemma TrimSpace_idemp (s : gostring) : TrimSpace (TrimSpace s) = TrimSpace s.
Proof. apply TrimFunc_idemp. Qed.

(** Only the trimmed text counts. *)
Lemma stripCodeBlock_of_trimmed (code : gostring) :
  stripCodeBlock (TrimSpace code) = stripCodeBlock code.
Proof. unfold stripCodeBlock. by rewrite !TrimSpace_idemp. Qed.

Lemma TrimSpace_around (lead code trail : gostring) :
  allSpace lead -> allSpace trail ->
  TrimSpace (lead ++ code ++ trail) = TrimSpace code.
Proof.
  intros Hl Ht. unfold TrimSpace. rewrite TrimFunc_app_l by done.
  by apply TrimFunc_app_r.
Qed.

(** The lines of two texts, one after the other with the separator
    between them. *)
Lemma Split_app_single (b : gostring) (x : rune) (y : gostring) :
  Split (b ++ x :: y) [x] = Split b [x] ++ Split y [x].
Proof.
  induction b as [b IH] using length_ind.
  rewrite (Split_step b). destruct (Index b [x]) as [m |] eqn:Hm.
  - pose proof (Index_bound _ _ _ Hm) as Hb.
    rewrite Split_step, (Index_app_mono _ _ _ _ Hm).
    rewrite take_app_le, drop_app_le by (simpl in *; lia).
    rewrite IH; [reflexivity |]. rewrite length_drop. simpl in *. lia.
  - apply Contains_false in Hm. change (b ++ x :: y) with (b ++ [x] ++ y).
    rewrite (Split_app_clean b x [] y) by (simpl; rewrite app_nil_r; exact Hm).
    reflexivity.
Qed.

(** The closing fence is the last line that is a fence. *)
Lemma closingFence_found (lines : list gostring) (l : gostring) (k n : nat) :
  lines !! k = Some l -> TrimSpace l = fence ->
  (forall j l', (k < j)%nat -> lines !! j = Some l' -> TrimSpace l' <> fence) ->
  (k < n)%nat ->
  closingFence lines n = Some k.
Proof.
  intros Hk Hl Hafter. induction n as [| n IH]; [lia |]. intros Hlt.
  cbn [closingFence]. destruct (decide (k = n)) as [<- | Hne].
  - rewrite Hk. by rewrite bool_decide_eq_true_2.
  - destruct (lines !! n) as [l' |] eqn:Hn; [| apply IH; lia].
    rewrite bool_decide_eq_false_2; [apply IH; lia |].
    apply (Hafter n); [lia | done].
Qed.

Lemma closingFence_middle (before after : list gostring) (l : gostring) :
  TrimSpace l = fence -> Forall (fun l' => TrimSpace l' <> fence) after ->
  closingFence (before ++ l :: after) (length (before ++ l :: after))
  = Some (length before).
Proof.
  intros Hl Hafter. apply (closingFence_found _ l).
  - by apply list_lookup_middle.
  - exact Hl.
  - intros j l' Hj Hlook. rewrite lookup_app_r in Hlook by lia.
    destruct (j - length before)%nat as [| i] eqn:Hi; [lia |]. simpl in Hlook.
    eapply Forall_lookup_1 in Hafter; eauto.
  - rewrite length_app. simpl. lia.
Qed.

End MoreStripFacts.

(** ** More on the joint repair response *)

Module MoreRepairFacts.

Lemma wholeSection_no_separator (x : gostring) :
  wholeSection x = true -> Contains x sep3 = false.
Proof.
  intros (H & _)%wholeSection_true.
  apply (Contains_infix [] x (runes "--")). exact H.
Qed.

End MoreRepairFacts.

Import MoreStripFacts MoreRepairFacts.

(** ** The import paths *)

Module ImportFacts.

Lemma fieldsFrom_no_space (cur s f : gostring) :
  Forall (fun c => IsSpace c = false) cur ->
  f ∈ fieldsFrom cur s -> Forall (fun c => IsSpace c = false) f.
Proof.
  revert cur. induction s as [| c s IH]; intros cur Hcur; cbn [fieldsFrom].
  - destruct cur as [| x cur]; [by intros ?%elem_of_nil |].
    intros ->%list_elem_of_singleton. by apply Forall_reverse.
  - destruct (IsSpace c) eqn:Hc.
    + destruct cur as [| x cur]; [by apply IH |].
      intros [-> | Hin]%elem_of_cons; [by apply Forall_reverse | by apply (IH [])].
    + apply IH. by constructor.
Qed.

Lemma Trim_no_space (s cutset : gostring) :
  Forall (fun c => IsSpace c = false) s ->
  Forall (fun c => IsSpace c = false) (Trim s cutset).
Proof. apply Trim_Forall. Qed.

(** A string that neither begins nor ends with a rune to trim is left
    as it is. *)
Lemma TrimRightFunc_fixed (f : rune -> bool) (s : gostring) :
  (forall b, last s = Some b -> f b = false) -> TrimRightFunc f s = s.
Proof.
  destruct s as [| y l _] using rev_ind; [reflexivity |]. intros H.
  apply TrimRightFunc_keep, H, last_snoc.
Qed.

Lemma TrimFunc_fixed (f : rune -> bool) (s : gostring) :
  (forall a, head s = Some a -> f a = false) ->
  (forall b, last s = Some b -> f b = false) ->
  TrimFunc f s = s.
Proof.
  intros Hh Hl. unfold TrimFunc. destruct s as [| a l]; [reflexivity |].
  rewrite TrimLeftFunc_keep by (by apply Hh). by apply TrimRightFunc_fixed.
Qed.

Lemma plainPath_Trim (p : gostring) : plainPath p -> Trim p [quote] = p.
Proof.
  intros [_ Hp]. apply TrimFunc_fixed.
  - intros a Ha. destruct p as [| x p]; [done |]. injection Ha as <-.
    apply Forall_cons in Hp as [[_ Hq] _]. apply bool_decide_eq_false.
    by intros ->%list_elem_of_singleton.
  - intros b Hb. apply last_Some in Hb as (l' & ->).
    apply Forall_app in Hp as [_ Hb]. apply Forall_cons in Hb as [[_ Hq] _].
    apply bool_decide_eq_false. by intros ->%list_elem_of_singleton.
Qed.

Lemma fieldsFrom_word (cur p : gostring) :
  Forall (fun c => IsSpace c = false) p -> cur <> [] \/ p <> [] ->
  fieldsFrom cur p = [reverse cur ++ p].
Proof.
  intros Hp. revert cur. induction Hp as [| c p Hc _ IH]; intros cur Hne;
    cbn [fieldsFrom].
  - destruct cur as [| x cur]; [by destruct Hne |]. by rewrite app_nil_r.
  - rewrite Hc, IH by (by left). rewrite reverse_cons, <- app_assoc. reflexivity.
Qed.

(** The last field of a text that ends with white space and a word is the
    word. *)
Lemma fieldsFrom_last_word (cur s : gostring) (c : rune) (word : gostring) :
  IsSpace c = true -> Forall (fun c => IsSpace c = false) word -> word <> [] ->
  last (fieldsFrom cur (s ++ c :: word)) = Some word.
Proof.
  intros Hc Hw Hne. revert cur. induction s as [| x s IH]; intros cur.
  - cbn [app fieldsFrom]. rewrite Hc.
    rewrite (fieldsFrom_word [] word) by (by (try right)).
    by destruct cur.
  - change ((x :: s) ++ c :: word) with (x :: (s ++ c :: word)). cbn [fieldsFrom].
    destruct (IsSpace x); [| apply IH].
    destruct cur as [| y cur]; [apply IH |].
    rewrite last_cons, IH. reflexivity.
Qed.

End ImportFacts.

Import ImportFacts.

(** ** What the parts of the program leave as it was *)

Module FrameFacts.

Section Keeps.
Context {X : Type} (f : World -> X).

Lemma keeps_ret {A : Type} (a : A) : keeps f (ret a).
Proof. by intros w. Qed.

Lemma keeps_fail {A : Type} (e : error) : keeps f (@fail A e).
Proof. by intros w. Qed.

Lemma keeps_emit (e : Event) : keeps f (emit e).
Proof. by intros w. Qed.

Lemma keeps_getWorld : keeps f getWorld.
Proof. by intros w. Qed.

Lemma keeps_bind {A B : Type} (c : M A) (k : A -> M B) :
  keeps f c -> (forall a, keeps f (k a)) -> keeps f (bind c k).
Proof.
  intros Hc Hk w. rewrite worldOf_bind.
  destruct (resOf c w); [apply Hc |]. rewrite Hk. apply Hc.
Qed.

Lemma keeps_wrapf {A : Type} (msg : string) (c : M A) : keeps f c -> keeps f (wrapf msg c).
Proof. intros Hc w. rewrite worldOf_wrapf. apply Hc. Qed.

Lemma keeps_try {A : Type} (c : M A) : keeps f c -> keeps f (try c).
Proof. intros Hc w. rewrite worldOf_try. apply Hc. Qed.

Lemma keeps_defer {A : Type} (cleanup : M unit) (c : M A) :
  keeps f cleanup -> keeps f c -> keeps f (defer cleanup c).
Proof. intros Hd Hc w. rewrite worldOf_defer, Hd. apply Hc. Qed.

Section Counters.
Context (env : Env) (Hf : offCounters f).

Lemma keeps_fileCall : keeps f (fileCall env).
Proof. intros w. apply Hf. Qed.

Lemma keeps_Now : keeps f (Now env).
Proof. intros w. apply Hf. Qed.

Lemma keeps_NewUUID : keeps f (NewUUID env).
Proof. intros w. apply Hf. Qed.

Lemma keeps_GenerateCompletion (p : Prompt) : keeps f (GenerateCompletion env p).
Proof. intros w. apply Hf. Qed.

Lemma keeps_cmdRun (cmd : Command) (dir : gostring) : keeps f (cmdRun env cmd dir).
Proof. intros w. apply Hf. Qed.

Lemma keeps_NewStorage : keeps f (NewStorage env).
Proof.
  unfold NewStorage. apply keeps_bind; [apply keeps_fileCall |].
  intros [|]; [apply keeps_ret | apply keeps_fail].
Qed.

Lemma keeps_MkdirAll (dir : gostring) : keeps f (MkdirAll env dir).
Proof.
  unfold MkdirAll. apply keeps_bind; [apply keeps_fileCall |].
  intros [|]; [apply keeps_emit | apply keeps_fail].
Qed.

Lemma keeps_ReadFile (dir name : gostring) : keeps f (ReadFile env dir name).
Proof.
  unfold ReadFile. apply keeps_bind; [apply keeps_fileCall |]. intros ok.
  apply keeps_bind; [apply keeps_getWorld |]. intros w.
  destruct (if ok then _ else _); [| apply keeps_fail].
  apply keeps_bind; [apply keeps_emit | intros; apply keeps_ret].
Qed.

Lemma keeps_RunTests (workDir language : gostring) :
  keeps f (RunTests env workDir language).
Proof.
  intros w. rewrite worldOf_RunTests. destruct (supportedLanguages _); [apply Hf | done].
Qed.

Lemma keeps_goGetAll (workDir : gostring) (pkgs : list gostring) :
  keeps f (goGetAll env workDir pkgs).
Proof.
  induction pkgs as [| pkg pkgs IH]; cbn [goGetAll]; [apply keeps_ret |].
  apply keeps_bind; [apply keeps_cmdRun |]. intros r.
  destruct (runErr r); [apply keeps_fail | apply IH].
Qed.

Lemma keeps_UpdateDependencies (workDir code testCode : gostring) :
  keeps f (UpdateDependencies env workDir code testCode).
Proof.
  unfold UpdateDependencies. destruct (externalImports _ _); [| apply keeps_ret].
  apply keeps_bind; [apply keeps_goGetAll |]. intros _.
  apply keeps_bind; [apply keeps_cmdRun |]. intros r.
  destruct (runErr r); [apply keeps_fail | apply keeps_ret].
Qed.

Lemma keeps_FixBoth (code testCode output language : gostring) :
  keeps f (FixBoth env code testCode output language).
Proof.
  unfold FixBoth. apply keeps_bind; [apply keeps_GenerateCompletion |]. intros r.
  destruct (parseFixResponse r); [apply keeps_fail | apply keeps_ret].
Qed.

Lemma keeps_GenerateTests (description language : gostring) :
  keeps f (GenerateTests env description language).
Proof.
  unfold GenerateTests. apply keeps_bind; [apply keeps_GenerateCompletion |].
  intros; apply keeps_ret.
Qed.

Lemma keeps_GenerateImplementation (description testCode language : gostring) :
  keeps f (GenerateImplementation env description testCode language).
Proof.
  unfold GenerateImplementation. apply keeps_bind; [apply keeps_GenerateCompletion |].
  intros; apply keeps_ret.
Qed.

Lemma keeps_GenerateDirectoryName (description : gostring) :
  keeps f (GenerateDirectoryName env description).
Proof.
  unfold GenerateDirectoryName. apply keeps_bind; [apply keeps_GenerateCompletion |].
  intros; apply keeps_ret.
Qed.

(** Outside the storage directory. *)
Section Files.
Context (Hfiles : offFiles f).

Lemma keeps_WriteFile (dir name content : gostring) :
  keeps f (WriteFile env dir name content).
Proof.
  unfold WriteFile. apply keeps_bind; [apply keeps_fileCall |].
  intros [|]; [| apply keeps_fail]. intros w. apply Hfiles.
Qed.

Lemma keeps_RemoveAll (dir : gostring) : keeps f (RemoveAll dir).
Proof. intros w. apply Hfiles. Qed.

Lemma keeps_MkdirTemp : keeps f (MkdirTemp env).
Proof.
  unfold MkdirTemp. apply keeps_bind; [apply keeps_fileCall |].
  intros [|]; [| apply keeps_fail]. intros w.
  unfold worldOf. simpl. rewrite Hfiles. apply Hf.
Qed.

Lemma keeps_writeFiles (dir testCode code language : gostring) :
  keeps f (writeFiles env dir testCode code language).
Proof.
  unfold writeFiles. case_bool_decide; [apply keeps_fail |].
  apply keeps_bind; [apply keeps_wrapf, keeps_WriteFile |]. intros _.
  apply keeps_bind; [apply keeps_wrapf, keeps_WriteFile |]. intros _.
  case_bool_decide; [apply keeps_wrapf, keeps_UpdateDependencies | apply keeps_ret].
Qed.

Lemma keeps_copyEach (srcDir dstDir : gostring) (names : list gostring) :
  keeps f (copyEach env srcDir dstDir names).
Proof.
  induction names as [| name names IH]; cbn [copyEach]; [apply keeps_ret |].
  apply keeps_bind; [apply keeps_wrapf, keeps_ReadFile |]. intros data.
  apply keeps_bind; [apply keeps_wrapf, keeps_WriteFile |]. intros _. apply IH.
Qed.

Lemma keeps_copyFinalFiles (srcDir dstDir language : gostring) :
  keeps f (copyFinalFiles env srcDir dstDir language).
Proof.
  unfold copyFinalFiles. case_bool_decide; [apply keeps_fail | apply keeps_copyEach].
Qed.

Lemma keeps_PrepareWorkspace (language : gostring) :
  keeps f (PrepareWorkspace env language).
Proof.
  unfold PrepareWorkspace, initGoModule, initPythonEnv.
  repeat first
    [ apply keeps_ret | apply keeps_fail | apply keeps_wrapf | apply keeps_try
    | apply keeps_MkdirTemp | apply keeps_RemoveAll | apply keeps_WriteFile
    | apply keeps_cmdRun
    | apply keeps_bind; [| intros ?]
    | lazymatch goal with
      | |- keeps _ (if ?b then _ else _) => destruct b
      | |- keeps _ (match ?x with _ => _ end) => destruct x
      end ].
Qed.
End Files.

(** In the storage directory. *)
Section Store.
Context (Hstore : offStorage f).

Lemma keeps_saveSession (s : Storage.Session) : keeps f (saveSession env s).
Proof.
  unfold saveSession. apply keeps_bind; [apply keeps_fileCall |]. intros ok.
  intros w. unfold worldOf, bind, getWorld, putWorld, fail. simpl.
  destruct (ok && _); simpl; [apply Hstore | reflexivity].
Qed.

Lemma keeps_GetSession (id : gostring) : keeps f (GetSession env id).
Proof.
  unfold GetSession. apply keeps_bind; [apply keeps_fileCall |]. intros ok.
  apply keeps_bind; [apply keeps_getWorld |]. intros w.
  destruct (if ok then _ else _); [apply keeps_ret | apply keeps_fail].
Qed.

Lemma keeps_AddIteration (id tc c logs : gostring) (ok : bool) :
  keeps f (AddIteration env id tc c logs ok).
Proof.
  unfold AddIteration. apply keeps_bind; [apply keeps_GetSession |]. intros s.
  apply keeps_bind; [apply keeps_Now |]. intros t1.
  apply keeps_bind; [apply keeps_Now |]. intros t2. apply keeps_saveSession.
Qed.

Lemma keeps_CreateSession (description language : gostring) :
  keeps f (CreateSession env description language).
Proof.
  unfold CreateSession. apply keeps_bind; [apply keeps_NewUUID |]. intros id.
  apply keeps_bind; [apply keeps_Now |]. intros t1.
  apply keeps_bind; [apply keeps_Now |]. intros t2.
  apply keeps_bind; [apply keeps_fileCall |]. intros [|]; [| apply keeps_fail].
  intros w. unfold worldOf, bind, getWorld, putWorld. simpl.
  pose proof (keeps_saveSession
                {| Storage.ID := id; Storage.Description := description;
                   Storage.Language := language; Storage.Iterations := [];
                   Storage.CreatedAt := t1; Storage.UpdatedAt := t2 |}
                (setStorage w ({[ id ]} ∪ sessionDirs w) (sessionFiles w))) as Hs.
  unfold worldOf in Hs.
  destruct (saveSession env _ _) as [[[e | []] w1] t]; simpl in *; rewrite Hs; apply Hstore.
Qed.
End Store.
End Counters.
End Keeps.

Lemma sessionFiles_offCounters : offCounters sessionFiles.
Proof. by intros w c. Qed.

Lemma sessionFiles_offFiles : offFiles sessionFiles.
Proof. by intros w t fs. Qed.

Lemma files_offCounters : offCounters files.
Proof. by intros w c. Qed.

Lemma files_offStorage : offStorage files.
Proof. by intros w d s. Qed.

Lemma tempDirs_offCounters : offCounters tempDirs.
Proof. by intros w c. Qed.

Lemma tempDirs_offStorage : offStorage tempDirs.
Proof. by intros w d s. Qed.

End FrameFacts.

Import FrameFacts.

(** ** More on the session store *)

Module MoreStorageFacts.

(** [GetSession] changes nothing but the count of file operations. *)
Lemma GetSession_spec (env : Env) (id : gostring) (w : World) :
  logOf (GetSession env id) w = []
  /\ worldOf (GetSession env id) w = tickFileOp w
  /\ resOf (GetSession env id) w
     = match (if fileOk env (nFileOp (counters w)) then sessionFiles w !! id else None) with
       | Some s => inr s
       | None => inl (Wrapf "failed to read session: %w" (OSError "read"))
       end.
Proof.
  unfold logOf, worldOf, resOf, GetSession, bind, fileCall, getWorld, ret, fail. simpl.
  by destruct (if fileOk env _ then _ else _).
Qed.

Lemma CreateSession_spec (env : Env) (description language : gostring) (w : World) :
  logOf (CreateSession env description language) w = []
  /\ files (worldOf (CreateSession env description language) w) = files w
  /\ tempDirs (worldOf (CreateSession env description language) w) = tempDirs w
  /\ match resOf (CreateSession env description language) w with
     | inl _ =>
         sessionFiles (worldOf (CreateSession env description language) w)
         = sessionFiles w
     | inr s =>
         s = created env description language w
         /\ sessionFiles (worldOf (CreateSession env description language) w)
            = <[Storage.ID s := s]> (sessionFiles w)
         /\ sessionDirs (worldOf (CreateSession env description language) w)
            = {[ Storage.ID s ]} ∪ sessionDirs w
     end.
Proof.
  unfold logOf, worldOf, resOf, CreateSession, saveSession, NewUUID, Now, bind, fileCall,
    getWorld, putWorld, ret, fail, created. simpl.
  destruct (fileOk env (nFileOp (counters w))); simpl; [| done].
  destruct (fileOk env _ && bool_decide _); simpl; done.
Qed.

End MoreStorageFacts.

Import MoreStorageFacts.

(** ** The files of the workspace and of the output directory *)

Module FileFacts.

Lemma WriteFile_spec (env : Env) (dir name content : gostring) (w : World) :
  tempDirs (worldOf (WriteFile env dir name content) w) = tempDirs w
  /\ match resOf (WriteFile env dir name content) w with
     | inl _ =>
         files (worldOf (WriteFile env dir name content) w) = files w
         /\ logOf (WriteFile env dir name content) w = []
     | inr _ =>
         files (worldOf (WriteFile env dir name content) w)
         = <[(dir, name) := content]> (files w)
         /\ logOf (WriteFile env dir name content) w = [EvWriteFile dir name content]
     end.
Proof.
  unfold logOf, worldOf, resOf, WriteFile, bind, fileCall, fail. simpl.
  by destruct (fileOk env _).
Qed.

Lemma ReadFile_spec (env : Env) (dir name : gostring) (w : World) :
  files (worldOf (ReadFile env dir name) w) = files w
  /\ tempDirs (worldOf (ReadFile env dir name) w) = tempDirs w
  /\ match resOf (ReadFile env dir name) w with
     | inl e => e = OSError "read" /\ logOf (ReadFile env dir name) w = []
     | inr data =>
         files w !! (dir, name) = Some data
         /\ logOf (ReadFile env dir name) w = [EvReadFile dir name]
     end.
Proof.
  unfold logOf, worldOf, resOf, ReadFile, bind, fileCall, getWorld, emit, ret, fail. simpl.
  destruct (fileOk env _); simpl; [| done].
  by destruct (files w !! (dir, name)).
Qed.

(** The names of the two files differ. *)
Lemma names_differ (ext : gostring) : runes "main_test." ++ ext <> runes "main." ++ ext.
Proof. intros H. vm_compute in H. discriminate. Qed.

Lemma extension_supported (language : gostring) :
  bool_decide (getFileExtension language = []) = negb (supportedLanguages language).
Proof.
  unfold getFileExtension, supportedLanguages.
  destruct (bool_decide (language = runes "python")) eqn:Hpy;
    destruct (bool_decide (language = runes "go")) eqn:Hgo; reflexivity.
Qed.

End FileFacts.

Import FileFacts.

(** ** Writing, copying, dependencies and the workspace *)

Module WorkspaceFacts.

Lemma writeFiles_spec (env : Env) (dir testCode code language : gostring) (w : World) :
  resOf (writeFiles env dir testCode code language) w = inr tt ->
  files (worldOf (writeFiles env dir testCode code language) w)
  = <[(dir, runes "main." ++ getFileExtension language) := code]>
      (<[(dir, runes "main_test." ++ getFileExtension language) := testCode]> (files w))
  /\ tempDirs (worldOf (writeFiles env dir testCode code language) w) = tempDirs w.
Proof.
  unfold writeFiles. case_bool_decide as Hext; [discriminate |].
  rewrite resOf_bind, worldOf_bind, resOf_wrapf, worldOf_wrapf.
  destruct (WriteFile_spec env dir (runes "main_test." ++ getFileExtension language)
              testCode w) as (Ht1 & H1).
  destruct (resOf (WriteFile env dir _ testCode) w) as [e | []]; [discriminate |].
  destruct H1 as [Hf1 _]. set (w1 := worldOf _ w) in *.
  rewrite resOf_bind, worldOf_bind, resOf_wrapf, worldOf_wrapf.
  destruct (WriteFile_spec env dir (runes "main." ++ getFileExtension language)
              code w1) as (Ht2 & H2).
  destruct (resOf (WriteFile env dir _ code) w1) as [e | []]; [discriminate |].
  destruct H2 as [Hf2 _]. set (w2 := worldOf _ w1) in *. intros _.
  rewrite <- Hf1, <- Hf2, <- Ht1, <- Ht2.
  case_bool_decide; [| done]. rewrite worldOf_wrapf. split.
  - apply (keeps_UpdateDependencies files env files_offCounters).
  - apply (keeps_UpdateDependencies tempDirs env tempDirs_offCounters).
Qed.

Lemma copyFinalFiles_spec (env : Env) (srcDir dstDir language : gostring) (w : World) :
  resOf (copyFinalFiles env srcDir dstDir language) w = inr tt ->
  exists testCode code,
    files w !! (srcDir, runes "main_test." ++ getFileExtension language) = Some testCode
    /\ files w !! (srcDir, runes "main." ++ getFileExtension language) = Some code
    /\ files (worldOf (copyFinalFiles env srcDir dstDir language) w)
       = <[(dstDir, runes "main." ++ getFileExtension language) := code]>
           (<[(dstDir, runes "main_test." ++ getFileExtension language) := testCode]>
              (files w))
    /\ logOf (copyFinalFiles env srcDir dstDir language) w
       = [EvReadFile srcDir (runes "main_test." ++ getFileExtension language);
          EvWriteFile dstDir (runes "main_test." ++ getFileExtension language) testCode;
          EvReadFile srcDir (runes "main." ++ getFileExtension language);
          EvWriteFile dstDir (runes "main." ++ getFileExtension language) code].
Proof.
  unfold copyFinalFiles. case_bool_decide as Hext; [discriminate |].
  set (ext := getFileExtension language). cbn [copyEach].
  rewrite resOf_bind, worldOf_bind, logOf_bind, resOf_wrapf, worldOf_wrapf, logOf_wrapf.
  destruct (ReadFile_spec env srcDir (runes "main_test." ++ ext) w) as (Hf0 & _ & H0).
  destruct (resOf (ReadFile env srcDir _) w) as [e | testCode]; [discriminate |].
  destruct H0 as [Hread1 Hlog0]. set (w0 := worldOf _ w) in *.
  rewrite resOf_bind, worldOf_bind, logOf_bind, resOf_wrapf, worldOf_wrapf, logOf_wrapf.
  destruct (WriteFile_spec env dstDir (runes "main_test." ++ ext) testCode w0) as (_ & H1).
  destruct (resOf (WriteFile env dstDir _ testCode) w0) as [e | []]; [discriminate |].
  destruct H1 as [Hf1 Hlog1]. set (w1 := worldOf _ w0) in *.
  rewrite resOf_bind, worldOf_bind, logOf_bind, resOf_wrapf, worldOf_wrapf, logOf_wrapf.
  destruct (ReadFile_spec env srcDir (runes "main." ++ ext) w1) as (Hf2 & _ & H2).
  destruct (resOf (ReadFile env srcDir _) w1) as [e | code]; [discriminate |].
  destruct H2 as [Hread2 Hlog2]. set (w2 := worldOf _ w1) in *.
  rewrite resOf_bind, worldOf_bind, logOf_bind, resOf_wrapf, worldOf_wrapf, logOf_wrapf.
  destruct (WriteFile_spec env dstDir (runes "main." ++ ext) code w2) as (_ & H3).
  destruct (resOf (WriteFile env dstDir _ code) w2) as [e | []]; [discriminate |].
  destruct H3 as [Hf3 Hlog3]. intros _.
  exists testCode, code. rewrite Hf1, Hf0 in Hread2.
  rewrite lookup_insert_ne in Hread2
    by (intros [= _ Hn]; by apply (names_differ ext)).
  split_and!; [done | done | |].
  - change (worldOf (ret tt) ?x) with x. by rewrite Hf3, Hf2, Hf1, Hf0.
  - rewrite Hlog0, Hlog1, Hlog2, Hlog3. reflexivity.
Qed.

Lemma resOf_cmdRun (env : Env) (cmd : Command) (dir : gostring) (w : World) :
  resOf (cmdRun env cmd dir) w = inr (process env (nProcess (counters w))).
Proof. reflexivity. Qed.

Lemma worldOf_cmdRun (env : Env) (cmd : Command) (dir : gostring) (w : World) :
  worldOf (cmdRun env cmd dir) w = tickProcess w.
Proof. reflexivity. Qed.

Lemma logOf_cmdRun (env : Env) (cmd : Command) (dir : gostring) (w : World) :
  logOf (cmdRun env cmd dir) w
  = [EvRun cmd dir (status (process env (nProcess (counters w))))].
Proof. reflexivity. Qed.

Lemma exitedZero_status (r : processResult) :
  exitedZero (status r) = true -> status r = Exited 0.
Proof. destruct (status r) as [| [| ? | ?]]; done. Qed.

End WorkspaceFacts.

Import WorkspaceFacts.

(** ** What a run that returns leaves behind *)

Module RunRecordFacts.

Lemma bind_ok {A B : Type} (c : M A) (k : A -> M B) (w : World) (b : B) :
  resOf (bind c k) w = inr b ->
  exists a,
    resOf c w = inr a
    /\ resOf (k a) (worldOf c w) = inr b
    /\ worldOf (bind c k) w = worldOf (k a) (worldOf c w)
    /\ logOf (bind c k) w = logOf c w ++ logOf (k a) (worldOf c w).
Proof.
  rewrite resOf_bind, worldOf_bind, logOf_bind.
  destruct (resOf c w) as [e | a]; [discriminate |]. intros H. by exists a.
Qed.

Lemma wrapf_ok {A : Type} (msg : string) (c : M A) (w : World) (a : A) :
  resOf (wrapf msg c) w = inr a -> resOf c w = inr a.
Proof. rewrite resOf_wrapf. destruct (resOf c w); [discriminate | done]. Qed.

Lemma loopSteps_app (t1 t2 : list Event) :
  loopSteps (t1 ++ t2) = loopSteps t1 ++ loopSteps t2.
Proof. apply omap_app. Qed.

Lemma loopSteps_outside (t : list Event) : Forall outsideLoop t -> loopSteps t = [].
Proof.
  induction 1 as [| e t [He1 He2] _ IH]; [reflexivity |].
  unfold loopSteps in *. cbn [omap list_omap]. unfold stepOf at 1.
  by rewrite He1, He2.
Qed.

Lemma outsideLoop_notTestRun (e : Event) : outsideLoop e -> notTestRun e.
Proof. by intros [H _]. Qed.

Lemma logOf_FixBoth (env : Env) (code testCode output language : gostring) (w : World) :
  logOf (FixBoth env code testCode output language) w
  = [EvCompletion (PromptFixBoth code testCode output language)].
Proof.
  unfold FixBoth. rewrite logOf_bind. unfold logOf at 1, resOf, worldOf, GenerateCompletion.
  cbn [fst snd]. destruct (completion env _ _) as [e | response]; [done |].
  by destruct (parseFixResponse response).
Qed.

Lemma writeFiles_outsideLoop (env : Env) (dir testCode code language : gostring) :
  emits outsideLoop (writeFiles env dir testCode code language).
Proof. apply emits_writeFiles; done. Qed.

Lemma roundsThen_S (k : nat) (b : bool) :
  roundsThen (S k) b = true :: false :: roundsThen k b.
Proof. reflexivity. Qed.

Section Loop.
Context (env : Env) (id workDir language : gostring).

(** What a loop that returns has stored and left in the workspace. *)
Lemma iterationLoop_records (n : nat) :
  forall (testCode code : gostring) (w : World) (s0 : Storage.Session) (b : bool),
    sessionFiles w !! id = Some s0 -> Storage.ID s0 = id ->
    files w !! (workDir, testFile language) = Some testCode ->
    files w !! (workDir, implFile language) = Some code ->
    resOf (iterationLoop env id workDir language n testCode code) w = inr b ->
    exists (s : Storage.Session) (added : list Storage.Iteration) (k : nat)
           (testCode' code' : gostring),
      sessionFiles (worldOf (iterationLoop env id workDir language n testCode code) w) !! id
      = Some s
      /\ sameSession s s0
      /\ Storage.Iterations s = Storage.Iterations s0 ++ added
      /\ Storage.Number <$> added
         = seqZ (Z.of_nat (length (Storage.Iterations s0)) + 1) (Z.of_nat (length added))
      /\ Storage.Success <$> added = replicate k false ++ (if b then [true] else [])
      /\ loopSteps (logOf (iterationLoop env id workDir language n testCode code) w)
         = roundsThen k b
      /\ countTestRuns (logOf (iterationLoop env id workDir language n testCode code) w)
         = length added
      /\ (if b then (k < n)%nat else k = n)
      /\ files (worldOf (iterationLoop env id workDir language n testCode code) w)
           !! (workDir, testFile language) = Some testCode'
      /\ files (worldOf (iterationLoop env id workDir language n testCode code) w)
           !! (workDir, implFile language) = Some code'
      /\ (b = true ->
          exists it, last added = Some it
                     /\ Storage.TestCode it = testCode' /\ Storage.Code it = code').
Proof.
  induction n as [| n IH]; intros testCode code w s0 b Hs0 Hid Ht Hc Hres.
  - injection Hres as <-. exists s0, [], 0%nat, testCode, code.
    rewrite app_nil_r. split_and!; done.
  - cbn [iterationLoop] in *.
    apply bind_ok in Hres as (result & Hrun & Hres & -> & ->).
    apply wrapf_ok in Hrun. rewrite worldOf_wrapf, logOf_wrapf in *.
    rewrite resOf_RunTests in Hrun. rewrite worldOf_RunTests, logOf_RunTests in *.
    destruct (supportedLanguages language) eqn:Hlang; [| discriminate].
    cbv zeta in Hrun. injection Hrun as <-.
    set (st := status (process env (nProcess (counters w)))) in *.
    set (cmd := if bool_decide (language = runes "go") then GoTest else PyTest).
    set (output := stdout _ ++ stderr _) in *.
    set (w1 := tickProcess w) in *.
    assert (Hrun : isTestRun (EvRun cmd workDir st) = true) by (subst cmd; by case_bool_decide).
    assert (Hstep : loopSteps [EvRun cmd workDir st] = [true]).
    { unfold loopSteps. cbn [omap list_omap]. unfold stepOf. by rewrite Hrun. }
    cbn [Passed Output] in *.
    apply bind_ok in Hres as ([] & Hadd & Hres & -> & ->).
    apply wrapf_ok in Hadd. rewrite worldOf_wrapf, logOf_wrapf in *.
    destruct (AddIteration_spec env id testCode code output (exitedZero st) w1)
      as (Hlog & _ & Hspec).
    pose proof (keeps_AddIteration files env files_offCounters files_offStorage
                  id testCode code output (exitedZero st) w1) as Hfiles.
    rewrite Hadd in Hspec. destruct Hspec as (s & stamp & updated & Hs & Hstore).
    change (sessionFiles w1) with (sessionFiles w) in Hs. rewrite Hs0 in Hs.
    injection Hs as <-. rewrite Hid in Hstore. rewrite Hlog. cbn [app].
    set (it := {| Storage.Number := _ |}) in *.
    set (w2 := worldOf _ w1) in *. change (files w1) with (files w) in Hfiles.
    destruct (exitedZero st) eqn:Hst.
    + (* the tests passed *)
      injection Hres as <-. change (worldOf (ret true) w2) with w2.
      change (logOf (ret true) w2) with (@nil Event).
      exists (withIteration s0 it updated), [it], 0%nat, testCode, code.
      rewrite Hstore, lookup_insert_eq, Hfiles.
      split_and!; try done.
      * by rewrite countTestRuns_one.
      * lia.
      * intros _. by exists it.
    + (* the tests failed: a repair, and the loop again *)
      apply bind_ok in Hres as (fr & Hfix & Hres & -> & ->).
      apply wrapf_ok in Hfix. rewrite worldOf_wrapf, logOf_wrapf in *.
      rewrite logOf_FixBoth.
      pose proof (keeps_FixBoth files env files_offCounters code testCode output language w2)
        as Hfiles3.
      pose proof (keeps_FixBoth sessionFiles env sessionFiles_offCounters code testCode
                    output language w2) as Hstore3.
      set (w3 := worldOf _ w2) in *.
      apply bind_ok in Hres as ([] & Hwrite & Hres & -> & ->).
      apply wrapf_ok in Hwrite. rewrite worldOf_wrapf, logOf_wrapf in *.
      pose proof (keeps_writeFiles sessionFiles env sessionFiles_offCounters
                    sessionFiles_offFiles workDir (Generator.TestCode fr)
                    (Generator.Code fr) language w3) as Hstore4.
      pose proof (writeFiles_outsideLoop env workDir (Generator.TestCode fr)
                    (Generator.Code fr) language w3) as Hout.
      apply writeFiles_spec in Hwrite as [Hfiles4 _].
      set (w4 := worldOf _ w3) in *.
      destruct (IH (Generator.TestCode fr) (Generator.Code fr) w4
                  (withIteration s0 it updated) b) as
        (s & added & k & testCode' & code' & Hs & Hsame & Hit & Hnum & Hsucc & Hsteps
         & Hcount & Hk & Ht' & Hc' & Hlast); try done.
      * by rewrite Hstore4, Hstore3, Hstore, lookup_insert_eq.
      * rewrite Hfiles4. rewrite lookup_insert_ne
          by (intros [= Hn]; symmetry in Hn; by apply names_differ in Hn).
        apply lookup_insert_eq.
      * rewrite Hfiles4. apply lookup_insert_eq.
      * exists s, (it :: added), (S k), testCode', code'.
        split_and!; try done.
        -- cbn [withIteration Storage.Iterations] in Hit. by rewrite Hit, <- app_assoc.
        -- cbn [withIteration Storage.Iterations] in Hnum. rewrite length_app in Hnum.
           cbn [length] in *. rewrite Nat2Z.inj_succ, seqZ_cons by lia.
           cbn [fmap list_fmap]. f_equal. rewrite Hnum. f_equal; lia.
        -- cbn [fmap list_fmap]. rewrite Hsucc. reflexivity.
        -- change (EvRun cmd workDir st :: ?t) with ([EvRun cmd workDir st] ++ t).
           rewrite !loopSteps_app, Hstep, Hsteps, (loopSteps_outside _ Hout).
           reflexivity.
        -- change (EvRun cmd workDir st :: ?t) with ([EvRun cmd workDir st] ++ t).
           rewrite !countTestRuns_app, Hcount, (countTestRuns_one _ Hrun).
           rewrite (countTestRuns_none (logOf (writeFiles env _ _ _ _) w3))
             by (eapply Forall_impl; [exact Hout | apply outsideLoop_notTestRun]).
           reflexivity.
        -- destruct b; lia.
        -- intros Hb. destruct (Hlast Hb) as (it' & Hl & Hrest).
           exists it'. split; [| exact Hrest]. rewrite last_cons, Hl. reflexivity.
Qed.
End Loop.

End RunRecordFacts.

Import RunRecordFacts.

(** ** The whole run, when it returns *)

Module RunNewFacts.

Section Whole.
Context (env : Env).

Lemma PrepareWorkspace_outsideLoop (language : gostring) :
  emits outsideLoop (PrepareWorkspace env language).
Proof. unfold PrepareWorkspace, initGoModule, initPythonEnv. emits_all. Qed.

Lemma GenerateDirectoryName_outsideLoop (description : gostring) :
  emits outsideLoop (GenerateDirectoryName env description).
Proof. unfold GenerateDirectoryName. emits_all. Qed.

Lemma GenerateTests_outsideLoop (description language : gostring) :
  emits outsideLoop (GenerateTests env description language).
Proof. unfold GenerateTests. emits_all. Qed.

Lemma GenerateImplementation_outsideLoop (description testCode language : gostring) :
  emits outsideLoop (GenerateImplementation env description testCode language).
Proof. unfold GenerateImplementation. emits_all. Qed.

Lemma copyFinalFiles_outsideLoop (srcDir dstDir language : gostring) :
  emits outsideLoop (copyFinalFiles env srcDir dstDir language).
Proof. apply emits_copyFinalFiles; done. Qed.

(** The session store and the workspace are made without a request to
    the model. *)
Lemma CreateSession_completions (description language : gostring) (w : World) :
  nCompletion (counters (worldOf (CreateSession env description language) w))
  = nCompletion (counters w).
Proof.
  unfold worldOf, CreateSession, saveSession, NewUUID, Now, bind, fileCall, getWorld,
    putWorld, ret, fail. simpl.
  destruct (fileOk env (nFileOp (counters w))); simpl; [| done].
  destruct (fileOk env _ && bool_decide _); done.
Qed.

Lemma PrepareWorkspace_completions (language : gostring) (w : World) :
  nCompletion (counters (worldOf (PrepareWorkspace env language) w))
  = nCompletion (counters w).
Proof.
  unfold worldOf, PrepareWorkspace, initGoModule, initPythonEnv, MkdirTemp,
    WriteFile, RemoveAll, wrapf, try, bind, fileCall, cmdRun, ret, fail.
  simpl.
  destruct (fileOk env _); simpl; [| done].
  case_bool_decide as Hgo; [| case_bool_decide as Hpy]; simpl.
  - destruct (runErr (process env _)); simpl; [done |].
    destruct (fileOk env _); simpl; [| done].
    destruct (runErr (process env _)); done.
  - destruct (fileOk env _); simpl; [| done].
    destruct (runErr (process env _)); done.
  - done.
Qed.

Lemma resOf_GenerateDirectoryName (description : gostring) (w : World) :
  resOf (GenerateDirectoryName env description) w
  = match completion env (nCompletion (counters w)) (PromptDirectoryName description) with
    | inl e => inl e
    | inr raw => inr (cleanDirectoryName (unicodeToLower env) raw)
    end.
Proof.
  unfold resOf, GenerateDirectoryName, GenerateCompletion, bind, ret. simpl.
  by destruct (completion env _ _).
Qed.

(** The parts of a run that returns: the session made, the workspace, the
    two sources written to it, the loop, the copy, the removal. *)
Lemma runNew_returns (description languageLine : gostring) (w : World) (b : bool) :
  resOf (runNew env description languageLine) w = inr b ->
  exists (session : Storage.Session) (workDir outputDir testCode code : gostring)
         (w4 : World) (pre : list Event),
    supportedLanguages (languageOf env languageLine) = true
    /\ description <> []
    /\ outputDir = outputDirFor env description w
    /\ resOf (CreateSession env description (languageOf env languageLine)) (tickFileOp w)
       = inr session
    /\ sessionFiles w4
       = sessionFiles (worldOf (CreateSession env description (languageOf env languageLine))
                         (tickFileOp w))
    /\ files w4 !! (workDir, testFile (languageOf env languageLine)) = Some testCode
    /\ files w4 !! (workDir, implFile (languageOf env languageLine)) = Some code
    /\ resOf (iterationLoop env (Storage.ID session) workDir (languageOf env languageLine)
                maxIterations testCode code) w4 = inr b
    /\ resOf (copyFinalFiles env workDir outputDir (languageOf env languageLine))
         (worldOf (iterationLoop env (Storage.ID session) workDir
                     (languageOf env languageLine) maxIterations testCode code) w4)
       = inr tt
    /\ sessionFiles (worldOf (runNew env description languageLine) w)
       = sessionFiles
           (worldOf (iterationLoop env (Storage.ID session) workDir
                       (languageOf env languageLine) maxIterations testCode code) w4)
    /\ logOf (runNew env description languageLine) w
       = pre
         ++ logOf (iterationLoop env (Storage.ID session) workDir
                     (languageOf env languageLine) maxIterations testCode code) w4
         ++ logOf (copyFinalFiles env workDir outputDir (languageOf env languageLine))
              (worldOf (iterationLoop env (Storage.ID session) workDir
                          (languageOf env languageLine) maxIterations testCode code) w4)
         ++ [EvRemoveAll workDir]
    /\ Forall outsideLoop pre.
Proof.
  unfold runNew. fold (languageOf env languageLine).
  set (language := languageOf env languageLine).
  destruct (hasApiKey env); simpl negb; cbv iota; [| discriminate].
  destruct (hasHomeDir env); simpl negb; cbv iota; [| discriminate].
  intros H. apply bind_ok in H as ([] & _ & H & Hw0 & Hl0). rewrite Hw0, Hl0. clear Hw0 Hl0.
  assert (Hns : worldOf (wrapf "failed to initialize storage: %w" (NewStorage env)) w
                = tickFileOp w).
  { rewrite worldOf_wrapf. unfold worldOf, NewStorage, bind, fileCall, ret, fail. simpl.
    by destruct (fileOk env _). }
  assert (Hnl : logOf (wrapf "failed to initialize storage: %w" (NewStorage env)) w = []).
  { rewrite logOf_wrapf. unfold logOf, NewStorage, bind, fileCall, ret, fail. simpl.
    by destruct (fileOk env _). }
  rewrite Hns in *. rewrite Hnl. clear Hns Hnl. cbn [app].
  set (w1 := tickFileOp w) in *.
  case_bool_decide as Hd; [discriminate |].
  case_bool_decide as Hl; [discriminate |].
  destruct (supportedLanguages language) eqn:Hlang; simpl negb in *; cbv iota in *;
    [| discriminate].
  apply bind_ok in H as (session & Hcs & H & Hw & Hlog). rewrite Hw, Hlog. clear Hw Hlog.
  apply wrapf_ok in Hcs. rewrite worldOf_wrapf, logOf_wrapf in *.
  rewrite (proj1 (CreateSession_spec env description language w1)). cbn [app].
  pose proof (CreateSession_completions description language w1) as Hn2.
  set (w2 := worldOf (CreateSession env description language) w1) in *.
  apply bind_ok in H as (workDir & Hpw & H & Hw & Hlog). rewrite Hw, Hlog. clear Hw Hlog.
  rewrite worldOf_wrapf, logOf_wrapf in *.
  pose proof (keeps_PrepareWorkspace sessionFiles env sessionFiles_offCounters
                sessionFiles_offFiles language w2) as Hk3.
  pose proof (PrepareWorkspace_outsideLoop language w2) as Ho3.
  pose proof (PrepareWorkspace_completions language w2) as Hn3.
  set (w3 := worldOf (PrepareWorkspace env language) w2) in *.
  rewrite resOf_defer in H. rewrite worldOf_defer, logOf_defer.
  apply bind_ok in H as (r & Hr & H & Hw & Hlog). rewrite Hw, Hlog. clear Hw Hlog.
  rewrite resOf_try, resOf_GenerateDirectoryName, Hn3, Hn2 in Hr.
  change (nCompletion (counters w1)) with (nCompletion (counters w)) in Hr.
  injection Hr as Hr.
  rewrite worldOf_try, logOf_try in *.
  pose proof (keeps_GenerateDirectoryName sessionFiles env sessionFiles_offCounters
                description w3) as Hk4.
  pose proof (GenerateDirectoryName_outsideLoop description w3) as Ho4.
  set (w4 := worldOf (GenerateDirectoryName env description) w3) in *.
  cbv zeta in *.
  set (outputDir := if bool_decide (_ = []) then runes "." else _) in *.
  apply bind_ok in H as ([] & _ & H & Hw & Hlog). rewrite Hw, Hlog. clear Hw Hlog.
  rewrite worldOf_wrapf, logOf_wrapf in *.
  pose proof (keeps_MkdirAll sessionFiles env sessionFiles_offCounters outputDir w4) as Hk5.
  assert (Ho5 : Forall outsideLoop (logOf (MkdirAll env outputDir) w4))
    by (by apply emits_MkdirAll).
  set (w5 := worldOf (MkdirAll env outputDir) w4) in *.
  apply bind_ok in H as (testCode & _ & H & Hw & Hlog). rewrite Hw, Hlog. clear Hw Hlog.
  rewrite worldOf_wrapf, logOf_wrapf in *.
  pose proof (keeps_GenerateTests sessionFiles env sessionFiles_offCounters
                description language w5) as Hk6.
  pose proof (GenerateTests_outsideLoop description language w5) as Ho6.
  set (w6 := worldOf (GenerateTests env description language) w5) in *.
  apply bind_ok in H as (code & _ & H & Hw & Hlog). rewrite Hw, Hlog. clear Hw Hlog.
  rewrite worldOf_wrapf, logOf_wrapf in *.
  pose proof (keeps_GenerateImplementation sessionFiles env sessionFiles_offCounters
                description testCode language w6) as Hk7.
  pose proof (GenerateImplementation_outsideLoop description testCode language w6) as Ho7.
  set (w7 := worldOf (GenerateImplementation env description testCode language) w6) in *.
  apply bind_ok in H as ([] & Hwf & H & Hw & Hlog). rewrite Hw, Hlog. clear Hw Hlog.
  apply wrapf_ok in Hwf. rewrite worldOf_wrapf, logOf_wrapf in *.
  pose proof (keeps_writeFiles sessionFiles env sessionFiles_offCounters
                sessionFiles_offFiles workDir testCode code language w7) as Hk8.
  pose proof (writeFiles_outsideLoop env workDir testCode code language w7) as Ho8.
  apply writeFiles_spec in Hwf as [Hfiles _].
  set (w8 := worldOf (writeFiles env workDir testCode code language) w7) in *.
  apply bind_ok in H as (success & Hloop & H & Hw & Hlog). rewrite Hw, Hlog. clear Hw Hlog.
  set (w9 := worldOf (iterationLoop env _ _ _ _ _ _) w8) in *.
  apply bind_ok in H as ([] & Hcopy & H & Hw & Hlog). rewrite Hw, Hlog. clear Hw Hlog.
  apply wrapf_ok in Hcopy. rewrite worldOf_wrapf, logOf_wrapf in *.
  injection H as <-.
  exists session, workDir, outputDir, testCode, code, w8,
    (logOf (PrepareWorkspace env language) w2
     ++ logOf (GenerateDirectoryName env description) w3
     ++ logOf (MkdirAll env outputDir) w4
     ++ logOf (GenerateTests env description language) w5
     ++ logOf (GenerateImplementation env description testCode language) w6
     ++ logOf (writeFiles env workDir testCode code language) w7).
  split_and!; try done.
  - subst outputDir r. unfold outputDirFor. by destruct (completion env _ _).
  - by rewrite Hk8, Hk7, Hk6, Hk5, Hk4, Hk3.
  - rewrite Hfiles. rewrite lookup_insert_ne
      by (intros [= Hn]; symmetry in Hn; by apply names_differ in Hn).
    apply lookup_insert_eq.
  - rewrite Hfiles. apply lookup_insert_eq.
  - change (worldOf (ret success) ?x) with x.
    change (sessionFiles (worldOf (RemoveAll workDir) ?x)) with (sessionFiles x).
    apply (keeps_copyFinalFiles sessionFiles env sessionFiles_offCounters
             sessionFiles_offFiles).
  - change (logOf (ret success) ?x) with (@nil Event).
    change (logOf (RemoveAll workDir) ?x) with [EvRemoveAll workDir].
    rewrite app_nil_r, <- !app_assoc. reflexivity.
  - repeat (apply Forall_app; split); done.
Qed.
End Whole.

End RunNewFacts.

Import RunNewFacts.

(** ** The whole run: what it stored, asked and copied *)

Module RunSummaryFacts.

Section Summary.
Context (env : Env).

(** A run that returns: the session it made holds one iteration for each
    run of the tests; runs of the tests and repairs alternate; the last
    thing it does is to copy the two files and to remove the workspace;
    and after a run of the tests that passed, what it copies is what the
    last iteration holds. *)
Lemma runNew_summary (description languageLine : gostring) (w : World) (b : bool) :
  resOf (runNew env description languageLine) w = inr b ->
  exists (s : Storage.Session) (k : nat) (workDir outputDir testCode code : gostring)
         (front : list Event),
    sessionFiles (worldOf (runNew env description languageLine) w)
      !! newUUID env (nUUID (counters w)) = Some s
    /\ Storage.Description s = description
    /\ Storage.Language s = languageOf env languageLine
    /\ Storage.Number <$> Storage.Iterations s
       = seqZ 1 (Z.of_nat (length (Storage.Iterations s)))
    /\ Storage.Success <$> Storage.Iterations s
       = replicate k false ++ (if b then [true] else [])
    /\ loopSteps (logOf (runNew env description languageLine) w) = roundsThen k b
    /\ countTestRuns (logOf (runNew env description languageLine) w)
       = length (Storage.Iterations s)
    /\ (if b then (k < maxIterations)%nat else k = maxIterations)
    /\ logOf (runNew env description languageLine) w
       = front ++ [EvReadFile workDir (testFile (languageOf env languageLine));
                   EvWriteFile outputDir (testFile (languageOf env languageLine)) testCode;
                   EvReadFile workDir (implFile (languageOf env languageLine));
                   EvWriteFile outputDir (implFile (languageOf env languageLine)) code;
                   EvRemoveAll workDir]
    /\ (b = true ->
        exists it, last (Storage.Iterations s) = Some it
                   /\ Storage.TestCode it = testCode /\ Storage.Code it = code)
    /\ outputDir = outputDirFor env description w.
Proof.
  intros Hres.
  apply runNew_returns in Hres
    as (session & workDir & outputDir & testCode0 & code0 & w4 & pre & Hlang & Hd & Hout
        & Hcs & Hstore & Ht0 & Hc0 & Hloop & Hcopy & Hfinal & Hlog & Hpre).
  set (language := languageOf env languageLine) in *.
  destruct (CreateSession_spec env description language (tickFileOp w)) as (_ & _ & _ & H).
  rewrite Hcs in H. destruct H as (Hsession & Hfiles & _).
  assert (Hid : Storage.ID session = newUUID env (nUUID (counters w))) by (by subst session).
  rewrite Hfiles in Hstore.
  destruct (iterationLoop_records env (Storage.ID session) workDir language maxIterations
              testCode0 code0 w4 session b)
    as (s & added & k & testCode & code & Hs & Hsame & Hit & Hnum & Hsucc & Hsteps & Hcount
        & Hk & Ht & Hc & Hlast); try done.
  { rewrite Hstore. apply lookup_insert_eq. }
  pose proof (copyFinalFiles_outsideLoop env workDir outputDir language
                (worldOf (iterationLoop env (Storage.ID session) workDir language
                            maxIterations testCode0 code0) w4)) as Hquiet.
  apply copyFinalFiles_spec in Hcopy as (testCode' & code' & Ht' & Hc' & _ & Hcopylog).
  fold (testFile language) in Ht', Hcopylog. fold (implFile language) in Hc', Hcopylog.
  rewrite Ht in Ht'. injection Ht' as <-. rewrite Hc in Hc'. injection Hc' as <-.
  assert (Hnil : Storage.Iterations session = []) by (by subst session).
  rewrite Hnil in Hit, Hnum. cbn [app length] in Hit, Hnum.
  destruct Hsame as (Hsid & Hsd & Hsl & _).
  exists s, k, workDir, outputDir, testCode, code,
    (pre ++ logOf (iterationLoop env (Storage.ID session) workDir language maxIterations
                     testCode0 code0) w4).
  rewrite Hfinal, Hlog, Hit, <- Hid.
  split_and!.
  - exact Hs.
  - rewrite Hsd. by subst session.
  - rewrite Hsl. by subst session.
  - exact Hnum.
  - exact Hsucc.
  - rewrite !loopSteps_app, Hsteps, (loopSteps_outside _ Hpre), (loopSteps_outside _ Hquiet).
    cbn [app]. by rewrite app_nil_r.
  - rewrite !countTestRuns_app, Hcount.
    rewrite (countTestRuns_none pre)
      by (eapply Forall_impl; [exact Hpre | apply outsideLoop_notTestRun]).
    rewrite (countTestRuns_none (logOf (copyFinalFiles env _ _ _) _))
      by (eapply Forall_impl; [exact Hquiet | apply outsideLoop_notTestRun]).
    rewrite (countTestRuns_none [EvRemoveAll workDir]) by (by repeat constructor). lia.
  - exact Hk.
  - rewrite Hcopylog, <- !app_assoc. reflexivity.
  - exact Hlast.
  - exact Hout.
Qed.

(** The temporary directory of [PrepareWorkspace]: returned, it is the
    only one made; with an error, what was made was removed, but for
    Python. *)
Lemma PrepareWorkspace_made (language : gostring) (w : World) :
  match resOf (PrepareWorkspace env language) w with
  | inl _ => language = runes "python" \/ cleaned (logOf (PrepareWorkspace env language) w)
  | inr workDir =>
      forall dir, EvMkdirTemp dir ∈ logOf (PrepareWorkspace env language) w -> dir = workDir
  end.
Proof.
  unfold resOf, logOf, cleaned, PrepareWorkspace, initGoModule, initPythonEnv, MkdirTemp,
    WriteFile, RemoveAll, wrapf, try, bind, fileCall, cmdRun, ret, fail.
  simpl.
  destruct (fileOk env _); simpl; [| right; by intros dir Hin%elem_of_nil].
  case_bool_decide as Hgo; [| case_bool_decide as Hpy]; simpl.
  - destruct (runErr (process env _)); simpl.
    { right. intros dir. rewrite !elem_of_cons.
      intros [[= ->] | [[=] | [[=] | Hin%elem_of_nil]]]; [| done].
      do 2 right. by left. }
    destruct (fileOk env _); simpl.
    2:{ right. intros dir. rewrite !elem_of_cons.
        intros [[= ->] | [[=] | [[=] | Hin%elem_of_nil]]]; [| done].
        do 2 right. by left. }
    destruct (runErr (process env _)); simpl.
    + right. intros dir. rewrite !elem_of_cons.
      intros [[= ->] | [[=] | [[=] | [[=] | [[=] | Hin%elem_of_nil]]]]]; [| done].
      do 4 right. by left.
    + intros dir. rewrite !elem_of_cons.
      intros [[= ->] | [[=] | [[=] | [[=] | Hin%elem_of_nil]]]]; done.
  - destruct (fileOk env _); simpl; [| by left].
    destruct (runErr (process env _)); simpl; [by left |].
    intros dir. rewrite !elem_of_cons.
    intros [[= ->] | [[=] | [[=] | Hin%elem_of_nil]]]; done.
  - intros dir. rewrite !elem_of_cons. intros [[= ->] | Hin%elem_of_nil]; done.
Qed.

(** The loop asks the model for joint repairs only. *)
Lemma emits_iterationLoop_repairs (P : Event -> Prop)
    (sessionID workDir language : gostring) (n : nat) :
  (forall c d st, P (EvRun c d st)) ->
  (forall c t o l, P (EvCompletion (PromptFixBoth c t o l))) ->
  (forall d name c, P (EvWriteFile d name c)) ->
  forall testCode code,
    emits P (iterationLoop env sessionID workDir language n testCode code).
Proof.
  intros Hrun Hfix Hwrite. induction n as [| n IH]; intros testCode code;
    cbn [iterationLoop]; [apply emits_ret |].
  apply emits_bind; [unfold RunTests; emits_all |]. intros result.
  apply emits_bind; [emits_all |]. intros _.
  destruct (Passed result); [apply emits_ret |].
  apply emits_bind.
  { apply emits_wrapf. intros w. rewrite logOf_FixBoth. by repeat constructor. }
  intros fr.
  apply emits_bind; [apply emits_wrapf, emits_writeFiles; auto |]. intros _.
  apply IH.
Qed.
End Summary.

End RunSummaryFacts.

Import RunSummaryFacts.

(** ** Names that are clean already *)

Module CleanNameFacts.

Lemma isSlugRune_ranges (r : rune) :
  isSlugRune r = true -> (97 <= r <= 122) \/ (48 <= r <= 57) \/ r = 45.
Proof. unfold isSlugRune, hyphen. lia. Qed.

Lemma isSlugRune_not_space (r : rune) : isSlugRune r = true -> IsSpace r = false.
Proof. intros H%isSlugRune_ranges. unfold IsSpace. lia. Qed.

Lemma slugRune_fixed (r : rune) : isSlugRune r = true -> slugRune r = r.
Proof. unfold isSlugRune, slugRune. by intros ->. Qed.

Lemma toLowerRune_slug (lower : rune -> rune) (r : rune) :
  isSlugRune r = true -> toLowerRune lower r = r.
Proof.
  intros H%isSlugRune_ranges. unfold toLowerRune.
  replace ((65 <=? r) && (r <=? 90)) with false by lia.
  replace (r <? 128) with true by lia. reflexivity.
Qed.

(** [strings.Map] with a mapping that leaves the runes of the text as they
    are, none of them negative, a surrogate or past U+10FFFF. *)
Lemma Map_fixed (f : rune -> rune) (s : gostring) :
  Forall (fun r => f r = r /\ 0 <= r /\ encodeRune r = r) s -> Map f s = s.
Proof.
  unfold Map. induction 1 as [| r s (Hf & Hr & He) _ IH]; [reflexivity |].
  cbn [fmap list_fmap]. rewrite Hf, filter_cons_True by done.
  cbn [fmap list_fmap]. rewrite He. f_equal. exact IH.
Qed.

Lemma Map_slug (f : rune -> rune) (s : gostring) :
  (forall r, isSlugRune r = true -> f r = r) -> allSlug s -> Map f s = s.
Proof.
  intros Hf Hs. apply Map_fixed. eapply Forall_impl; [exact Hs |].
  intros r Hr. split_and!; [by apply Hf | | by apply encodeRune_slug].
  apply isSlugRune_ranges in Hr. lia.
Qed.

End CleanNameFacts.

Import CleanNameFacts.

(** ** The joint repair response: what the scan returns *)

Module SectionFacts.

Lemma sectionsAfter_cons (marker p next : gostring) (rest : list gostring) :
  sectionsAfter marker (p :: next :: rest)
  = if bool_decide (TrimSpace p = marker) then next :: sectionsAfter marker (next :: rest)
    else sectionsAfter marker (next :: rest).
Proof. reflexivity. Qed.

(** The scan of the parts from the part [i] on: for each marker word, the
    part after the last marker, cleaned; what was found before when there
    is none. *)
Lemma scanParts_sections (parts : list gostring) :
  forall (rest : list gostring) (i : nat) (acc : gostring * gostring),
    drop i parts = rest ->
    scanParts parts rest i acc
    = (match last (sectionsAfter markImpl rest) with
       | Some section => stripCodeBlock section
       | None => acc.1
       end,
       match last (sectionsAfter markTests rest) with
       | Some section => stripCodeBlock section
       | None => acc.2
       end).
Proof.
  induction rest as [| p rest IH]; intros i acc Hd.
  - by destruct acc.
  - assert (Hnext : parts !! (i + 1)%nat = head rest).
    { rewrite <- lookup_drop, Hd. by destruct rest. }
    assert (Hd' : drop (S i) parts = rest).
    { replace (S i) with (i + 1)%nat by lia. by rewrite <- drop_drop, Hd. }
    cbn [scanParts]. rewrite (IH (S i) _ Hd'). rewrite Hnext. clear IH Hd Hd' Hnext.
    change (runes "IMPLEMENTATION") with markImpl. change (runes "TESTS") with markTests.
    destruct rest as [| next rest]; [cbn; repeat case_bool_decide; by destruct acc |].
    rewrite !sectionsAfter_cons. cbn [head].
    set (SI := sectionsAfter markImpl (next :: rest)).
    set (ST := sectionsAfter markTests (next :: rest)).
    destruct (decide (TrimSpace p = markImpl)) as [Hi | Hi].
    + rewrite (bool_decide_eq_true_2 _ Hi).
      rewrite (bool_decide_eq_false_2 (TrimSpace p = markTests)) by (rewrite Hi; discriminate).
      rewrite (last_cons next). cbn [fst snd]. by destruct (last SI).
    + rewrite (bool_decide_eq_false_2 _ Hi).
      destruct (decide (TrimSpace p = markTests)) as [Ht | Ht].
      * rewrite (bool_decide_eq_true_2 _ Ht). rewrite (last_cons next). cbn [fst snd].
        by destruct (last ST).
      * rewrite (bool_decide_eq_false_2 _ Ht). reflexivity.
Qed.

(** The parser returns the two sections, or an error when there are fewer
    than five parts or a section is empty. *)
Lemma parse_sections (response : gostring) :
  parseFixResponse response = parsedSections response.
Proof.
  unfold parseFixResponse, parsedSections, sectionOf.
  change (runes "---") with sep3.
  case_bool_decide; [reflexivity |].
  rewrite (scanParts_sections (Split response sep3) (Split response sep3) 0 ([], []) eq_refl).
  cbn [fst snd].
  destruct (last (sectionsAfter markImpl _)), (last (sectionsAfter markTests _));
    reflexivity.
Qed.

Lemma sectionsAfter_none (marker : gostring) (parts : list gostring) :
  Forall (fun p => TrimSpace p <> marker) parts -> sectionsAfter marker parts = [].
Proof.
  induction 1 as [| p rest Hp _ IH]; [reflexivity |]. cbn [sectionsAfter].
  destruct rest; [reflexivity |]. by rewrite bool_decide_eq_false_2.
Qed.

(** A response without a marker has no section for it. *)
Lemma sectionOf_no_marker (marker response : gostring) :
  Forall (fun p => TrimSpace p <> marker) (Split response sep3) ->
  sectionOf marker response = [].
Proof. intros H. unfold sectionOf. by rewrite sectionsAfter_none. Qed.

Lemma parse_empty_section (response : gostring) :
  emptySection response -> exists e, parseFixResponse response = inl e.
Proof.
  intros He. rewrite parse_sections. unfold parsedSections.
  case_bool_decide; [eauto |].
  destruct He as [-> | ->]; [| rewrite orb_comm];
    rewrite (bool_decide_eq_true_2 ([] = [])) by done; simpl; eauto.
Qed.

(** The response in the format of the prompt, with sections that the split
    leaves whole: both are returned as [stripCodeBlock] cleans them, and
    there is an error when one of them cleans to nothing. *)
Lemma parse_prompt_format (impl tests : gostring) :
  wholeSection impl = true -> wholeSection tests = true ->
  parseFixResponse (promptFormat impl tests)
  = if bool_decide (stripCodeBlock impl = []) || bool_decide (stripCodeBlock tests = [])
    then inl (Errorf "failed to extract implementation or test code")
    else inr {| Generator.TestCode := stripCodeBlock tests;
                Generator.Code := stripCodeBlock impl |}.
Proof.
  intros (Hi & Hi1 & Hi2)%wholeSection_true (Ht & Ht1 & Ht2)%wholeSection_true.
  unfold parseFixResponse, promptFormat.
  rewrite Split_well_formed by done.
  rewrite bool_decide_eq_false_2 by (simpl; lia).
  rewrite scanParts_other by done.
  rewrite (scanParts_impl _ _ _ impl) by done.
  rewrite scanParts_other by done.
  rewrite (scanParts_tests _ _ _ tests) by done.
  rewrite scanParts_other by done.
  rewrite scanParts_other by done.
  rewrite scanParts_other by done.
  reflexivity.
Qed.

End SectionFacts.

Import SectionFacts.

(** ** A fenced block, line by line *)

Module BlockFacts.

(** The lines between the two fence lines, each ended by its newline. *)
Lemma block_lines (block : gostring) :
  block = [] \/ last block = Some 10 ->
  exists bl : list gostring,
    (forall y, Split (block ++ y) newline = bl ++ Split y newline)
    /\ TrimSpace (Join bl newline) = TrimSpace block.
Proof.
  unfold newline. intros [-> | Hlast].
  - exists []. split; [done | reflexivity].
  - apply last_Some in Hlast as (body & ->). exists (Split body [10]). split.
    + intros y. rewrite <- app_assoc. apply Split_app_single.
    + rewrite Join_Split. symmetry. apply TrimFunc_app_r. by repeat constructor.
Qed.

(** A line that trims to the fence ends, white space apart, with a rune
    that is not white space. *)
Lemma fence_line_end (cl : gostring) :
  TrimSpace cl = fence ->
  exists c1 x wc,
    cl = (c1 ++ [x]) ++ wc /\ IsSpace x = false /\ allSpace wc
    /\ TrimSpace (c1 ++ [x]) = fence.
Proof.
  intros Hcl. destruct (TrimRightFunc_spec IsSpace cl) as (wc & Heq & Hwc).
  destruct (TrimRightFunc IsSpace cl) as [| x c1 _] eqn:Hr using rev_ind.
  - rewrite app_nil_l in Heq. subst cl. unfold TrimSpace in Hcl.
    rewrite TrimFunc_all in Hcl by done. discriminate.
  - exists c1, x, wc. split_and!; [done | | done |].
    + apply (TrimRightFunc_last IsSpace cl). rewrite Hr. apply last_snoc.
    + rewrite <- Hcl, Heq. symmetry. by apply TrimFunc_app_r.
Qed.

(** The closing fence line is the last line, white space after it apart. *)
Lemma stripCodeBlock_block_end (lead tag block cl trail : gostring) :
  allSpace lead -> 10 ∉ tag -> block = [] \/ last block = Some 10 ->
  10 ∉ cl -> TrimSpace cl = fence -> allSpace trail ->
  stripCodeBlock (lead ++ fence ++ tag ++ newline ++ block ++ cl ++ trail)
  = TrimSpace block.
Proof.
  intros Hl Htag Hblock Hnl Hcl Htrail.
  destruct (block_lines block Hblock) as (bl & Hbl & <-).
  destruct (fence_line_end cl Hcl) as (c1 & x & wc & -> & Hx & Hwc & Hc0).
  unfold stripCodeBlock, newline in *.
  rewrite TrimSpace_open by done. rewrite HasPrefix_app_self.
  assert (Htrim : TrimRightFunc IsSpace
                    (tag ++ [10] ++ block ++ ((c1 ++ [x]) ++ wc) ++ trail)
                  = tag ++ [10] ++ block ++ c1 ++ [x]).
  { replace (tag ++ [10] ++ block ++ ((c1 ++ [x]) ++ wc) ++ trail)
      with ((tag ++ [10] ++ block ++ c1) ++ x :: (wc ++ trail))
      by (rewrite <- !app_assoc; reflexivity).
    rewrite TrimRightFunc_app_keep by done.
    rewrite TrimRightFunc_all by (by apply Forall_app).
    rewrite <- !app_assoc. reflexivity. }
  rewrite Htrim.
  replace (fence ++ tag ++ [10] ++ block ++ c1 ++ [x])
    with ((fence ++ tag) ++ [10] ++ (block ++ (c1 ++ [x])))
    by (rewrite <- !app_assoc; reflexivity).
  rewrite Split_app_clean
    by (simpl removelast; rewrite app_nil_r; by apply Contains_single, fence_no_newline).
  rewrite Hbl. rewrite (Split_clean (c1 ++ [x])).
  2:{ apply Contains_single. intros Hin. apply Hnl. rewrite elem_of_app. by left. }
  rewrite bool_decide_eq_false_2 by (simpl; rewrite length_app; simpl; lia).
  cbn [drop]. rewrite !drop_0. rewrite closingFence_last by exact Hc0.
  rewrite take_app_length. reflexivity.
Qed.

(** A fenced block: the opening fence line, the lines between, the closing
    fence line (a line that trims to the fence), and then the end of the
    text or more lines, none of them a fence. *)
Lemma stripCodeBlock_block (lead tag block cl post : gostring) :
  allSpace lead -> 10 ∉ tag -> block = [] \/ last block = Some 10 ->
  10 ∉ cl -> TrimSpace cl = fence ->
  Forall (fun l => TrimSpace l <> fence) (Split post newline) ->
  stripCodeBlock (lead ++ fence ++ tag ++ newline ++ block ++ cl) = TrimSpace block
  /\ stripCodeBlock (lead ++ fence ++ tag ++ newline ++ block ++ cl ++ newline ++ post)
     = TrimSpace block.
Proof.
  intros Hl Htag Hblock Hnl Hcl Hno. split.
  { replace (block ++ cl) with (block ++ cl ++ []) by (by rewrite app_nil_r).
    apply stripCodeBlock_block_end; try done. constructor. }
  destruct (TrimRightFunc_spec IsSpace post) as (w & Hpost & Hw).
  destruct (TrimRightFunc IsSpace post) as [| y p1 _] eqn:Hp using rev_ind.
  { (* only white space follows the closing fence line *)
    apply stripCodeBlock_block_end; try done.
    rewrite Hpost. by repeat constructor. }
  destruct (block_lines block Hblock) as (bl & Hbl & <-).
  assert (Hy : IsSpace y = false).
  { apply (TrimRightFunc_last IsSpace post). rewrite Hp. apply last_snoc. }
  unfold stripCodeBlock, newline in *.
  rewrite TrimSpace_open by done. rewrite HasPrefix_app_self.
  assert (Htrim : TrimRightFunc IsSpace (tag ++ [10] ++ block ++ cl ++ [10] ++ post)
                  = tag ++ [10] ++ block ++ cl ++ [10] ++ p1 ++ [y]).
  { rewrite Hpost.
    replace (tag ++ [10] ++ block ++ cl ++ [10] ++ (p1 ++ [y]) ++ w)
      with ((tag ++ [10] ++ block ++ cl ++ [10] ++ p1) ++ y :: w)
      by (rewrite <- !app_assoc; reflexivity).
    rewrite TrimRightFunc_app_keep by done. rewrite TrimRightFunc_all by done.
    rewrite <- !app_assoc. reflexivity. }
  rewrite Htrim.
  replace (fence ++ tag ++ [10] ++ block ++ cl ++ [10] ++ p1 ++ [y])
    with ((fence ++ tag) ++ [10] ++ (block ++ (cl ++ [10] ++ (p1 ++ [y]))))
    by (rewrite <- !app_assoc; reflexivity).
  rewrite Split_app_clean
    by (simpl removelast; rewrite app_nil_r; by apply Contains_single, fence_no_newline).
  rewrite Hbl. rewrite (Split_app_clean cl 10 [])
    by (simpl removelast; rewrite app_nil_r; by apply Contains_single).
  rewrite bool_decide_eq_false_2 by (simpl; rewrite length_app; simpl; lia).
  cbn [drop]. rewrite !drop_0.
  rewrite closingFence_middle.
  - rewrite take_app_length. reflexivity.
  - exact Hcl.
  - apply Forall_forall. intros l Hin.
    destruct (Split_lines_trimmed w Hw _ _ Hin) as (l' & Hl' & Heq).
    rewrite <- Hpost in Hl'. rewrite <- Heq.
    eapply Forall_forall in Hno; eauto.
Qed.

End BlockFacts.

Import BlockFacts.

(** ** A repair that is refused *)

Module RefusedRepairFacts.

Section Requests.
Context (env : Env).

(** How many requests to the model each part makes. *)
Lemma AddIteration_completions (id tc c logs : gostring) (ok : bool) (w : World) :
  nCompletion (counters (worldOf (AddIteration env id tc c logs ok) w))
  = nCompletion (counters w).
Proof.
  unfold worldOf, AddIteration, GetSession, saveSession, Now, bind, fileCall, getWorld,
    putWorld, ret, fail. simpl.
  destruct (fileOk env (nFileOp (counters w))); simpl; [| done].
  destruct (sessionFiles w !! id); simpl; [| done].
  destruct (fileOk env _ && bool_decide _); done.
Qed.

Lemma WriteFile_completions (dir name content : gostring) (w : World) :
  nCompletion (counters (worldOf (WriteFile env dir name content) w))
  = nCompletion (counters w).
Proof.
  unfold worldOf, WriteFile, bind, fileCall, fail. simpl. by destruct (fileOk env _).
Qed.

Lemma goGetAll_completions (dir : gostring) (pkgs : list gostring) (w : World) :
  nCompletion (counters (worldOf (goGetAll env dir pkgs) w)) = nCompletion (counters w).
Proof.
  revert w. induction pkgs as [| pkg pkgs IH]; intros w; cbn [goGetAll]; [done |].
  rewrite worldOf_bind, resOf_cmdRun, worldOf_cmdRun.
  destruct (runErr _); [done |]. by rewrite IH.
Qed.

Lemma UpdateDependencies_completions (dir code testCode : gostring) (w : World) :
  nCompletion (counters (worldOf (UpdateDependencies env dir code testCode) w))
  = nCompletion (counters w).
Proof.
  unfold UpdateDependencies. destruct (externalImports env _) as [pkgs |]; [| done].
  rewrite worldOf_bind. pose proof (goGetAll_completions dir pkgs w) as Hg.
  destruct (resOf (goGetAll env dir pkgs) w) as [e | []]; [done |].
  rewrite worldOf_bind, resOf_cmdRun, worldOf_cmdRun.
  by destruct (runErr _).
Qed.

Lemma writeFiles_completions (dir testCode code language : gostring) (w : World) :
  nCompletion (counters (worldOf (writeFiles env dir testCode code language) w))
  = nCompletion (counters w).
Proof.
  unfold writeFiles. case_bool_decide; [done |].
  rewrite worldOf_bind, resOf_wrapf, worldOf_wrapf.
  pose proof (WriteFile_completions dir (runes "main_test." ++ getFileExtension language)
                testCode w) as H1.
  destruct (resOf (WriteFile env dir _ testCode) w) as [e | []]; [done |].
  rewrite worldOf_bind, resOf_wrapf, worldOf_wrapf.
  pose proof (WriteFile_completions dir (runes "main." ++ getFileExtension language)
                code (worldOf (WriteFile env dir (runes "main_test."
                                                   ++ getFileExtension language) testCode) w))
    as H2.
  destruct (resOf (WriteFile env dir _ code) _) as [e | []]; [by rewrite H2 |].
  case_bool_decide; [| by rewrite <- H1, <- H2].
  by rewrite worldOf_wrapf, UpdateDependencies_completions, H2.
Qed.

Lemma MkdirAll_completions (dir : gostring) (w : World) :
  nCompletion (counters (worldOf (MkdirAll env dir) w)) = nCompletion (counters w).
Proof.
  unfold worldOf, MkdirAll, bind, fileCall, emit, fail. simpl. by destruct (fileOk env _).
Qed.

Lemma GenerateDirectoryName_completions (description : gostring) (w : World) :
  nCompletion (counters (worldOf (GenerateDirectoryName env description) w))
  = S (nCompletion (counters w)).
Proof.
  unfold worldOf, GenerateDirectoryName, GenerateCompletion, bind, ret. simpl.
  by destruct (completion env _ _).
Qed.

Lemma GenerateTests_completions (description language : gostring) (w : World) :
  nCompletion (counters (worldOf (GenerateTests env description language) w))
  = S (nCompletion (counters w)).
Proof.
  unfold worldOf, GenerateTests, GenerateCompletion, bind, ret. simpl.
  by destruct (completion env _ _).
Qed.

Lemma GenerateImplementation_completions (description testCode language : gostring)
    (w : World) :
  nCompletion (counters (worldOf (GenerateImplementation env description testCode language)
                           w))
  = S (nCompletion (counters w)).
Proof.
  unfold worldOf, GenerateImplementation, GenerateCompletion, bind, ret. simpl.
  by destruct (completion env _ _).
Qed.

Lemma FixBoth_completions (code testCode output language : gostring) (w : World) :
  nCompletion (counters (worldOf (FixBoth env code testCode output language) w))
  = S (nCompletion (counters w)).
Proof.
  unfold worldOf, FixBoth, GenerateCompletion, bind, ret, fail. simpl.
  destruct (completion env _ _) as [e | response]; [done |].
  by destruct (parseFixResponse response).
Qed.

(** [FixBoth] returns what the parser makes of the answer. *)
Lemma resOf_FixBoth (code testCode output language : gostring) (w : World) :
  resOf (FixBoth env code testCode output language) w
  = match completion env (nCompletion (counters w))
            (PromptFixBoth code testCode output language) with
    | inl e => inl e
    | inr response => parseFixResponse response
    end.
Proof.
  unfold resOf, FixBoth, GenerateCompletion, bind, ret, fail. simpl.
  destruct (completion env _ _) as [e | response]; [done |].
  by destruct (parseFixResponse response).
Qed.

(** An answer with an empty section: [FixBoth] returns an error. *)
Lemma FixBoth_empty_section (code testCode output language response : gostring)
    (w : World) :
  completion env (nCompletion (counters w)) (PromptFixBoth code testCode output language)
  = inr response ->
  emptySection response ->
  exists e, resOf (FixBoth env code testCode output language) w = inl e.
Proof.
  intros Hanswer Hempty. rewrite resOf_FixBoth, Hanswer.
  by apply parse_empty_section.
Qed.
End Requests.

(** *** Counting the requests *)

Lemma countCompletions_app (t1 t2 : list Event) :
  countCompletions (t1 ++ t2) = (countCompletions t1 + countCompletions t2)%nat.
Proof. unfold countCompletions. by rewrite filter_app, length_app. Qed.

Lemma countCompletions_none (t : list Event) :
  Forall (fun e => isCompletion e = false) t -> countCompletions t = 0%nat.
Proof.
  unfold countCompletions. induction 1 as [| e t He _ IH]; [reflexivity |].
  rewrite filter_cons_False; [exact IH |]. congruence.
Qed.

Lemma countCompletions_request (p : Prompt) (t : list Event) :
  countCompletions (EvCompletion p :: t) = S (countCompletions t).
Proof. unfold countCompletions. by rewrite filter_cons_True. Qed.

Lemma noCompletion_noRepair (t : list Event) :
  Forall (fun e => isCompletion e = false) t -> Forall (fun e => isRepair e = false) t.
Proof. intros H. eapply Forall_impl; [exact H |]. by intros [] He. Qed.

Lemma outsideLoop_noRepair (t : list Event) :
  Forall outsideLoop t -> Forall (fun e => isRepair e = false) t.
Proof. intros H. eapply Forall_impl; [exact H |]. by intros e [_ He]. Qed.

(** Where a repair request stands in a log with a part that has none. *)
Lemma split_after_quiet (t1 t2 front back : list Event) (r : Event) :
  Forall (fun e => isRepair e = false) t1 -> isRepair r = true ->
  t1 ++ t2 = front ++ r :: back ->
  exists front', front = t1 ++ front' /\ t2 = front' ++ r :: back.
Proof.
  intros H1 Hr. revert front.
  induction H1 as [| x t1 Hx _ IH]; intros front Heq.
  - by exists front.
  - destruct front as [| y f]; simpl in Heq; injection Heq as -> Heq; [congruence |].
    destruct (IH f Heq) as (front' & -> & ->). by exists front'.
Qed.

Lemma split_before_quiet (t1 t2 front back : list Event) (r : Event) :
  Forall (fun e => isRepair e = false) t2 -> isRepair r = true ->
  t1 ++ t2 = front ++ r :: back ->
  exists back', t1 = front ++ r :: back' /\ back = back' ++ t2.
Proof.
  intros H2 Hr. revert front.
  induction t1 as [| x t1 IH]; intros front Heq.
  - simpl in Heq. subst t2. apply Forall_app in H2 as [_ H2].
    inversion H2; congruence.
  - destruct front as [| y f]; simpl in Heq; injection Heq as -> Heq.
    + by exists t1.
    + destruct (IH f Heq) as (back' & -> & ->). by exists back'.
Qed.

Section Refuses.
Context (env : Env).

Lemma refuses_quiet (i : nat) (tail : list Event) (r : error + bool) (t : list Event) :
  Forall (fun e => isRepair e = false) t -> refusesEmpty env i tail r t.
Proof.
  intros Ht front c tc o l back response Heq _ _. exfalso.
  rewrite Heq in Ht. apply Forall_app in Ht as [_ Ht]. inversion Ht; discriminate.
Qed.

Lemma refuses_prepend (i j : nat) (tail : list Event) (r : error + bool)
    (t1 t2 : list Event) :
  Forall (fun e => isRepair e = false) t1 ->
  j = (i + countCompletions t1)%nat ->
  refusesEmpty env j tail r t2 -> refusesEmpty env i tail r (t1 ++ t2).
Proof.
  intros H1 -> H front c tc o l back response Heq Hans Hempty.
  apply split_after_quiet in Heq as (front' & -> & Heq); [| done | done].
  rewrite countCompletions_app, Nat.add_assoc in Hans.
  by apply (H _ _ _ _ _ _ _ Heq Hans).
Qed.

(** What is done after a computation, whatever it returned. *)
Lemma refuses_append (i : nat) (tail : list Event) (r r' : error + bool)
    (t : list Event) :
  refusesEmpty env i [] r t ->
  (forall e, r = inl e -> r' = inl e) ->
  Forall (fun e => isRepair e = false) tail ->
  refusesEmpty env i tail r' (t ++ tail).
Proof.
  intros H Hr Ht front c tc o l back response Heq Hans Hempty.
  apply split_before_quiet in Heq as (back' & -> & ->); [| done | done].
  destruct (H _ _ _ _ _ _ _ eq_refl Hans Hempty) as [[e He] ->].
  split; [exists e; by apply Hr | done].
Qed.

(** What is done after a computation that returned no error. *)
Lemma refuses_continue (i : nat) (tail : list Event) (s : bool) (r' : error + bool)
    (t t' : list Event) :
  refusesEmpty env i [] (inr s) t ->
  Forall (fun e => isRepair e = false) t' ->
  refusesEmpty env i tail r' (t ++ t').
Proof.
  intros H Ht front c tc o l back response Heq Hans Hempty.
  apply split_before_quiet in Heq as (back' & -> & ->); [| done | done].
  by destruct (H _ _ _ _ _ _ _ eq_refl Hans Hempty) as [[e [=]] _].
Qed.

(** A repair request that returned an error ends the computation. *)
Lemma refuses_refused (i : nat) (e : error) (code testCode output language : gostring) :
  refusesEmpty env i [] (inl (Wrapf "failed to fix code: %w" e))
    [EvCompletion (PromptFixBoth code testCode output language)].
Proof.
  intros front c tc o l back response Heq _ _.
  destruct front as [| x f]; simpl in Heq; injection Heq as _ Heq.
  - split; [by exists e | done].
  - by destruct f.
Qed.

(** A repair request whose answer was accepted. *)
Lemma refuses_accepted (i : nat) (r : error + bool)
    (code testCode output language : gostring) (t : list Event) :
  (forall response,
     completion env i (PromptFixBoth code testCode output language) = inr response ->
     ~ emptySection response) ->
  refusesEmpty env (S i) [] r t ->
  refusesEmpty env i [] r (EvCompletion (PromptFixBoth code testCode output language) :: t).
Proof.
  intros Hok H front c tc o l back response Heq Hans Hempty.
  destruct front as [| x f]; simpl in Heq.
  - injection Heq as <- <- <- <- _.
    change (countCompletions []) with 0%nat in Hans. rewrite Nat.add_0_r in Hans.
    by destruct (Hok _ Hans).
  - injection Heq as <- Heq. rewrite countCompletions_request in Hans.
    replace (i + S (countCompletions f))%nat with (S i + countCompletions f)%nat
      in Hans by lia.
    by apply (H _ _ _ _ _ _ _ Heq Hans).
Qed.

(** The loop: a repair request whose answer has an empty section is its
    last event, and the loop returns "failed to fix code". *)
Lemma iterationLoop_refuses (id workDir language : gostring) (n : nat) :
  forall (testCode code : gostring) (w : World),
    refusesEmpty env (nCompletion (counters w)) []
      (resOf (iterationLoop env id workDir language n testCode code) w)
      (logOf (iterationLoop env id workDir language n testCode code) w).
Proof.
  induction n as [| n IH]; intros testCode code w.
  - apply refuses_quiet. constructor.
  - cbn [iterationLoop]. rewrite logOf_bind, resOf_bind, logOf_wrapf, resOf_wrapf,
      worldOf_wrapf.
    rewrite logOf_RunTests, resOf_RunTests, worldOf_RunTests.
    destruct (supportedLanguages language) eqn:Hlang; cbv zeta;
      [| apply refuses_quiet; constructor].
    set (st := status (process env (nProcess (counters w)))).
    set (cmd := if bool_decide (language = runes "go") then GoTest else PyTest).
    set (output := stdout _ ++ stderr _).
    set (w1 := tickProcess w).
    cbv beta iota. cbn [Passed Output].
    rewrite logOf_bind, resOf_bind, logOf_wrapf, resOf_wrapf, worldOf_wrapf.
    rewrite (proj1 (AddIteration_spec env id testCode code output (exitedZero st) w1)).
    pose proof (AddIteration_completions env id testCode code output (exitedZero st) w1)
      as Hn2.
    change (nCompletion (counters w1)) with (nCompletion (counters w)) in Hn2.
    cbn [app].
    destruct (resOf (AddIteration env _ _ _ _ _) w1) as [e | []]; cbv beta iota.
    { apply refuses_quiet. by repeat constructor. }
    destruct (exitedZero st).
    { apply refuses_quiet. by repeat constructor. }
    set (w2 := worldOf _ w1) in *.
    rewrite logOf_bind, resOf_bind, logOf_wrapf, resOf_wrapf, worldOf_wrapf, logOf_FixBoth.
    pose proof (FixBoth_completions env code testCode output language w2) as Hn3.
    pose proof (resOf_FixBoth env code testCode output language w2) as Hres.
    rewrite Hn2 in Hn3, Hres.
    cbn [app].
    change (EvRun cmd workDir st :: ?t) with ([EvRun cmd workDir st] ++ t).
    apply (refuses_prepend _ (nCompletion (counters w)));
      [by repeat constructor
      | by rewrite (countCompletions_none [_]), Nat.add_0_r by (by repeat constructor) |].
    destruct (resOf (FixBoth env code testCode output language) w2) as [e | fr];
      cbv beta iota.
    { apply refuses_refused. }
    apply refuses_accepted.
    { intros response Ha Hempty. rewrite Ha in Hres.
      destruct (parse_empty_section response Hempty) as (e & He). congruence. }
    set (w3 := worldOf _ w2) in *.
    rewrite logOf_bind, resOf_bind, logOf_wrapf, resOf_wrapf, worldOf_wrapf.
    pose proof (emits_writeFiles env (fun e => isCompletion e = false) workDir
                  (Generator.TestCode fr) (Generator.Code fr) language) as Hwr.
    specialize (Hwr ltac:(done) ltac:(done) ltac:(done) w3).
    pose proof (writeFiles_completions env workDir (Generator.TestCode fr)
                  (Generator.Code fr) language w3) as Hn4.
    apply (refuses_prepend _ (S (nCompletion (counters w))));
      [by apply noCompletion_noRepair
      | by rewrite (countCompletions_none _ Hwr), Nat.add_0_r |].
    destruct (resOf (writeFiles env _ _ _ _) w3) as [e | []]; cbv beta iota.
    + apply refuses_quiet. constructor.
    + rewrite <- Hn3, <- Hn4. apply IH.
Qed.

(** *** The parts of a run before the loop *)

Lemma NewStorage_completions (w : World) :
  nCompletion (counters (worldOf (NewStorage env) w)) = nCompletion (counters w).
Proof.
  unfold worldOf, NewStorage, bind, fileCall, ret, fail. simpl. by destruct (fileOk env _).
Qed.

Lemma logOf_GenerateDirectoryName (description : gostring) (w : World) :
  countCompletions (logOf (GenerateDirectoryName env description) w) = 1%nat.
Proof.
  unfold logOf, GenerateDirectoryName, GenerateCompletion, bind, ret. simpl.
  by destruct (completion env _ _).
Qed.

Lemma logOf_GenerateTests (description language : gostring) (w : World) :
  countCompletions (logOf (GenerateTests env description language) w) = 1%nat.
Proof.
  unfold logOf, GenerateTests, GenerateCompletion, bind, ret. simpl.
  by destruct (completion env _ _).
Qed.

Lemma logOf_GenerateImplementation (description testCode language : gostring)
    (w : World) :
  countCompletions (logOf (GenerateImplementation env description testCode language) w)
  = 1%nat.
Proof.
  unfold logOf, GenerateImplementation, GenerateCompletion, bind, ret. simpl.
  by destruct (completion env _ _).
Qed.

(** What a run does in its workspace. *)
Lemma body_refuses (session : Storage.Session) (description language workDir : gostring)
    (w : World) :
  let body :=
    r <- try (GenerateDirectoryName env description) ;;
    let outputDirName :=
      match r with
      | inl _ => runes "generated-function"
      | inr name => name
      end in
    let outputDir := if bool_decide (outputDirName = []) then runes "."
                     else outputDirName in
    run wrapf "failed to create output directory: %w" (MkdirAll env outputDir) ;;
    testCode <- wrapf "failed to generate tests: %w"
                  (GenerateTests env description language) ;;
    code <- wrapf "failed to generate implementation: %w"
              (GenerateImplementation env description testCode language) ;;
    run wrapf "failed to write files: %w"
          (writeFiles env workDir testCode code language) ;;
    success <- iterationLoop env (Storage.ID session) workDir language maxIterations
                 testCode code ;;
    run wrapf "failed to copy final files: %w"
          (copyFinalFiles env workDir outputDir language) ;;
    ret success in
  refusesEmpty env (nCompletion (counters w)) [] (resOf body w) (logOf body w).
Proof.
  cbv zeta.
  rewrite logOf_bind, resOf_bind, logOf_try, resOf_try, worldOf_try.
  pose proof (outsideLoop_noRepair _ (GenerateDirectoryName_outsideLoop env description w))
    as Hq1.
  pose proof (GenerateDirectoryName_completions env description w) as N1.
  rewrite <- (Nat.add_1_r (nCompletion _)),
    <- (logOf_GenerateDirectoryName description w) in N1.
  apply (refuses_prepend _ _ _ _ _ _ Hq1 N1). clear Hq1 N1.
  set (w1 := worldOf (GenerateDirectoryName env description) w).
  cbv beta iota.
  set (outputDir := if bool_decide _ then runes "." else _).
  rewrite logOf_bind, resOf_bind, logOf_wrapf, resOf_wrapf, worldOf_wrapf.
  pose proof (emits_MkdirAll env (fun e => isCompletion e = false) outputDir eq_refl w1)
    as Hq2.
  pose proof (MkdirAll_completions env outputDir w1) as N2.
  rewrite <- (Nat.add_0_r (nCompletion (counters w1))),
    <- (countCompletions_none _ Hq2) in N2.
  apply (refuses_prepend _ _ _ _ _ _ (noCompletion_noRepair _ Hq2) N2). clear Hq2 N2.
  destruct (resOf (MkdirAll env outputDir) w1) as [e | []]; cbv beta iota.
  { apply refuses_quiet. constructor. }
  set (w2 := worldOf (MkdirAll env outputDir) w1).
  rewrite logOf_bind, resOf_bind, logOf_wrapf, resOf_wrapf, worldOf_wrapf.
  pose proof (outsideLoop_noRepair _ (GenerateTests_outsideLoop env description language
                                        w2)) as Hq3.
  pose proof (GenerateTests_completions env description language w2) as N3.
  rewrite <- (Nat.add_1_r (nCompletion _)),
    <- (logOf_GenerateTests description language w2) in N3.
  apply (refuses_prepend _ _ _ _ _ _ Hq3 N3). clear Hq3 N3.
  destruct (resOf (GenerateTests env description language) w2) as [e | testCode];
    cbv beta iota.
  { apply refuses_quiet. constructor. }
  set (w3 := worldOf (GenerateTests env description language) w2).
  rewrite logOf_bind, resOf_bind, logOf_wrapf, resOf_wrapf, worldOf_wrapf.
  pose proof (outsideLoop_noRepair _ (GenerateImplementation_outsideLoop env description
                                        testCode language w3)) as Hq4.
  pose proof (GenerateImplementation_completions env description testCode language w3)
    as N4.
  rewrite <- (Nat.add_1_r (nCompletion _)),
    <- (logOf_GenerateImplementation description testCode language w3) in N4.
  apply (refuses_prepend _ _ _ _ _ _ Hq4 N4). clear Hq4 N4.
  destruct (resOf (GenerateImplementation env description testCode language) w3)
    as [e | code]; cbv beta iota.
  { apply refuses_quiet. constructor. }
  set (w4 := worldOf (GenerateImplementation env description testCode language) w3).
  rewrite logOf_bind, resOf_bind, logOf_wrapf, resOf_wrapf, worldOf_wrapf.
  pose proof (emits_writeFiles env (fun e => isCompletion e = false) workDir testCode code
                language ltac:(done) ltac:(done) ltac:(done) w4) as Hq5.
  pose proof (writeFiles_completions env workDir testCode code language w4) as N5.
  rewrite <- (Nat.add_0_r (nCompletion (counters w4))),
    <- (countCompletions_none _ Hq5) in N5.
  apply (refuses_prepend _ _ _ _ _ _ (noCompletion_noRepair _ Hq5) N5). clear Hq5 N5.
  destruct (resOf (writeFiles env workDir testCode code language) w4) as [e | []];
    cbv beta iota.
  { apply refuses_quiet. constructor. }
  set (w5 := worldOf (writeFiles env workDir testCode code language) w4).
  rewrite logOf_bind, resOf_bind.
  pose proof (iterationLoop_refuses (Storage.ID session) workDir language maxIterations
                testCode code w5) as Hloop.
  destruct (resOf (iterationLoop env _ workDir language maxIterations testCode code) w5)
    as [e | success]; cbv beta iota.
  { by rewrite app_nil_r. }
  eapply refuses_continue; [exact Hloop |].
  apply outsideLoop_noRepair.
  assert (Hend : emits outsideLoop
                   (run wrapf "failed to copy final files: %w"
                          (copyFinalFiles env workDir outputDir language) ;;
                    ret success)).
  { apply emits_bind; [by apply emits_wrapf, emits_copyFinalFiles |]. intros _.
    apply emits_ret. }
  apply Hend.
Qed.

(** The whole run: a repair request whose answer has an empty section is
    followed by the removal of the workspace and nothing else, and the run
    returns "failed to fix code". *)
Lemma runNew_refuses (description languageLine : gostring) (w : World) :
  exists workDir,
    refusesEmpty env (nCompletion (counters w)) [EvRemoveAll workDir]
      (resOf (runNew env description languageLine) w)
      (logOf (runNew env description languageLine) w).
Proof.
  unfold runNew. fold (languageOf env languageLine).
  set (language := languageOf env languageLine).
  destruct (hasApiKey env); simpl negb; cbv iota;
    [| exists []; apply refuses_quiet; constructor].
  destruct (hasHomeDir env); simpl negb; cbv iota;
    [| exists []; apply refuses_quiet; constructor].
  rewrite logOf_bind, resOf_bind, logOf_wrapf, resOf_wrapf, worldOf_wrapf.
  pose proof (emits_NewStorage env (fun e => isCompletion e = false) w) as Hq0.
  pose proof (NewStorage_completions w) as N0.
  rewrite <- (Nat.add_0_r (nCompletion (counters w))),
    <- (countCompletions_none _ Hq0) in N0.
  apply noCompletion_noRepair in Hq0.
  destruct (resOf (NewStorage env) w) as [e | []]; cbv beta iota.
  { exists []. apply refuses_quiet. by rewrite app_nil_r. }
  set (w1 := worldOf (NewStorage env) w) in *.
  case_bool_decide;
    [exists []; apply refuses_quiet; by rewrite app_nil_r |].
  case_bool_decide;
    [exists []; apply refuses_quiet; by rewrite app_nil_r |].
  destruct (supportedLanguages language); simpl negb; cbv iota;
    [| exists []; apply refuses_quiet; by rewrite app_nil_r].
  rewrite logOf_bind, resOf_bind, logOf_wrapf, resOf_wrapf, worldOf_wrapf.
  pose proof (emits_CreateSession env (fun e => isCompletion e = false) description
                language w1) as Hq1.
  pose proof (CreateSession_completions env description language w1) as N1.
  rewrite <- (Nat.add_0_r (nCompletion (counters w1))),
    <- (countCompletions_none _ Hq1) in N1.
  apply noCompletion_noRepair in Hq1.
  destruct (resOf (CreateSession env description language) w1) as [e | session];
    cbv beta iota.
  { exists []. apply refuses_quiet.
    rewrite app_nil_r. by apply Forall_app. }
  set (w2 := worldOf (CreateSession env description language) w1) in *.
  rewrite logOf_bind, resOf_bind, logOf_wrapf, resOf_wrapf, worldOf_wrapf.
  assert (Hq2 : Forall (fun e => isCompletion e = false)
                  (logOf (PrepareWorkspace env language) w2)).
  { assert (H' : emits (fun e => isCompletion e = false) (PrepareWorkspace env language))
      by (unfold PrepareWorkspace, initGoModule, initPythonEnv; emits_all).
    apply H'. }
  pose proof (PrepareWorkspace_completions env language w2) as N2.
  rewrite <- (Nat.add_0_r (nCompletion (counters w2))),
    <- (countCompletions_none _ Hq2) in N2.
  apply noCompletion_noRepair in Hq2.
  destruct (resOf (PrepareWorkspace env language) w2) as [e | workDir]; cbv beta iota.
  { exists []. apply refuses_quiet.
    rewrite app_nil_r. by repeat (apply Forall_app; split). }
  set (w3 := worldOf (PrepareWorkspace env language) w2) in *.
  exists workDir.
  apply (refuses_prepend _ _ _ _ _ _ Hq0 N0).
  apply (refuses_prepend _ _ _ _ _ _ Hq1 N1).
  apply (refuses_prepend _ _ _ _ _ _ Hq2 N2).
  rewrite logOf_defer, resOf_defer.
  change (logOf (RemoveAll workDir) ?x) with [EvRemoveAll workDir].
  eapply refuses_append; [| by intros e He | by repeat constructor].
  apply (body_refuses session description language workDir w3).
Qed.
End Refuses.

End RefusedRepairFacts.

Import RefusedRepairFacts.

(** ** The processes of the dependencies *)

Module DependencyFacts.

Section Dependencies.
Context (env : Env) (dir : gostring).

(** [go get] is run for one package after the other, up to the first
    that fails. *)
Lemma goGetAll_shape (pkgs : list gostring) :
  forall w,
    (resOf (goGetAll env dir pkgs) w = inr tt
     /\ logOf (goGetAll env dir pkgs) w = fetched dir <$> pkgs)
    \/ (exists got pkg st e,
          exitedZero st = false
          /\ logOf (goGetAll env dir pkgs) w
             = (fetched dir <$> got) ++ [EvRun (GoGet pkg) dir st]
          /\ resOf (goGetAll env dir pkgs) w
             = inl (Wrapf "failed to add dependency %s: %w" e)).
Proof.
  induction pkgs as [| pkg pkgs IH]; intros w; cbn [goGetAll].
  - by left.
  - rewrite resOf_bind, logOf_bind, resOf_cmdRun, worldOf_cmdRun, logOf_cmdRun.
    set (r := process env (nProcess (counters w))).
    pose proof (runErr_exitedZero r) as Hr.
    destruct (runErr r) as [e |].
    + right. exists [], pkg, (status r), e. split_and!; [| done | done].
      destruct (exitedZero (status r)); [| done].
      destruct Hr as [_ Hr]. by specialize (Hr eq_refl).
    + pose proof (exitedZero_status r (proj1 Hr eq_refl)) as Hst.
      destruct (IH (tickProcess w)) as [[Hres Hlog] | (got & p & st & e & Hst' & Hlog & Hres)].
      * left. split; [exact Hres |]. rewrite Hlog, Hst. reflexivity.
      * right. exists (pkg :: got), p, st, e. split_and!; [done | | done].
        rewrite Hlog, Hst. reflexivity.
Qed.

(** The processes that [UpdateDependencies] starts, and what it returns. *)
Lemma UpdateDependencies_shape (code testCode : gostring) (w : World) :
  exists pkgs,
    (logOf (UpdateDependencies env dir code testCode) w = []
     /\ pkgs = []
     /\ resOf (UpdateDependencies env dir code testCode) w = inr tt)
    \/ (logOf (UpdateDependencies env dir code testCode) w
        = (fetched dir <$> pkgs) ++ [EvRun GoModTidy dir (Exited 0)]
        /\ resOf (UpdateDependencies env dir code testCode) w = inr tt)
    \/ (exists st e,
          exitedZero st = false
          /\ logOf (UpdateDependencies env dir code testCode) w
             = (fetched dir <$> pkgs) ++ [EvRun GoModTidy dir st]
          /\ resOf (UpdateDependencies env dir code testCode) w
             = inl (Wrapf "failed to run go mod tidy: %w" e))
    \/ (exists pkg st e,
          exitedZero st = false
          /\ logOf (UpdateDependencies env dir code testCode) w
             = (fetched dir <$> pkgs) ++ [EvRun (GoGet pkg) dir st]
          /\ resOf (UpdateDependencies env dir code testCode) w
             = inl (Wrapf "failed to add dependency %s: %w" e)).
Proof.
  unfold UpdateDependencies.
  destruct (externalImports env _) as [pkgs |]; [| exists []; by left].
  rewrite resOf_bind, logOf_bind.
  destruct (goGetAll_shape pkgs w) as [[Hres Hlog] | (got & p & st & e & Hst & Hlog & Hres)];
    rewrite Hres, Hlog.
  - rewrite resOf_bind, logOf_bind, resOf_cmdRun, worldOf_cmdRun, logOf_cmdRun.
    set (r := process env _).
    pose proof (runErr_exitedZero r) as Hr.
    exists pkgs. destruct (runErr r) as [e |].
    + do 2 right. left. exists (status r), e. rewrite app_nil_r. split_and!; [| done | done].
      destruct (exitedZero (status r)); [| done].
      destruct Hr as [_ Hr]. by specialize (Hr eq_refl).
    + right. left. rewrite (exitedZero_status r (proj1 Hr eq_refl)), app_nil_r. done.
  - exists got. do 3 right. exists p, st, e. rewrite app_nil_r. done.
Qed.

(** After the two writes, a [writeFiles] that returns no error has run
    only commands of the dependencies, each exited with status 0. *)
Lemma UpdateDependencies_clean (code testCode : gostring) (w : World) :
  resOf (UpdateDependencies env dir code testCode) w = inr tt ->
  Forall (fun e => exists cmd,
            e = EvRun cmd dir (Exited 0)
            /\ (cmd = GoModTidy \/ exists pkg, cmd = GoGet pkg))
    (logOf (UpdateDependencies env dir code testCode) w).
Proof.
  intros Hres.
  destruct (UpdateDependencies_shape code testCode w)
    as (pkgs & [(Hlog & _) | [(Hlog & _) | [(st & e & _ & _ & He)
                                           | (pkg & st & e & _ & _ & He)]]]);
    [| | congruence | congruence]; rewrite Hlog; [constructor |].
  apply Forall_app. split.
  - apply Forall_fmap, Forall_forall. intros pkg _. exists (GoGet pkg).
    split; [reflexivity | right; by exists pkg].
  - repeat constructor. exists GoModTidy. split; [reflexivity | by left].
Qed.
End Dependencies.

End DependencyFacts.

Import DependencyFacts.

(** * The claims *)

Lemma filter_all {A : Type} (P : A -> Prop) `{!forall x, Decision (P x)} (l : list A) :
  Forall P l -> filter P l = l.
Proof.
  induction 1 as [| x l Hx _ IH]; [reflexivity |].
  by rewrite filter_cons_True, IH.
Qed.

(** C1 (session store). After any sequence of [AddIteration] calls, made on
    any sessions, the record of a session holds what it held before,
    unchanged, followed by one iteration for each call for this session
    that returned no error, in call order and with what the call was given;
    the sequence numbers are 1, 2, ..., one per iteration. With a file
    system that does not fail every call for an existing session is stored,
    so that the numbers are 1..N for N calls. *)
Theorem AddIteration_sequence_numbers (env : Env) (id : gostring)
    (calls : list AddCall) (w : World) (s0 : Storage.Session) :
  storeOk w ->
  sessionFiles w !! id = Some s0 ->
  Storage.Number <$> Storage.Iterations s0
    = seqZ 1 (Z.of_nat (length (Storage.Iterations s0))) ->
  let after := addAll env calls w in
  let mine := filter (fun call => atSession call = id) after.2 in
  exists s added,
    sessionFiles after.1 !! id = Some s
    /\ Storage.Iterations s = Storage.Iterations s0 ++ added
    /\ stored <$> added = asked <$> mine
    /\ Storage.Number <$> Storage.Iterations s
       = seqZ 1 (Z.of_nat (length (Storage.Iterations s0) + length mine))
    /\ ((forall n, fileOk env n = true) -> id ∈ sessionDirs w ->
        Forall (fun call => atSession call = id) calls -> mine = calls).
Proof.
  intros Hok Hs0 Hnum after mine.
  destruct (addAll_numbers env id calls w s0 Hok Hs0) as (s & Hs & added & Hit & Hadd & Hst).
  exists s, added. split_and!; try done.
  - rewrite Hit, fmap_app, Hnum, Hadd, Nat2Z.inj_add, seqZ_app by lia.
    do 2 f_equal. lia.
  - intros Hfs Hdir Hall. subst mine after.
    rewrite (addAll_all_stored env id calls Hfs Hall w s0) by done.
    by apply filter_all.
Qed.

Lemma AddIteration_sequence_numbers_witness :
  exists s added,
    sessionFiles (addAll envAllFail twoCalls oneSession).1 !! runes "session-1" = Some s
    /\ Storage.Iterations s = [] ++ added
    /\ stored <$> added
       = asked <$> filter (fun call => atSession call = runes "session-1")
                     (addAll envAllFail twoCalls oneSession).2
    /\ Storage.Number <$> Storage.Iterations s
       = seqZ 1 (Z.of_nat
                   (0 + length (filter (fun call => atSession call = runes "session-1")
                                  (addAll envAllFail twoCalls oneSession).2)))
    /\ ((forall n, fileOk envAllFail n = true) ->
        runes "session-1" ∈ sessionDirs oneSession ->
        Forall (fun call => atSession call = runes "session-1") twoCalls ->
        filter (fun call => atSession call = runes "session-1")
          (addAll envAllFail twoCalls oneSession).2 = twoCalls).
Proof.
  apply (AddIteration_sequence_numbers envAllFail (runes "session-1") twoCalls
           oneSession newSession).
  - unfold storeOk, oneSession. simpl. apply map_Forall_singleton. reflexivity.
  - vm_compute. reflexivity.
  - reflexivity.
Defined.

(** C2 (controller). A run performs at most 5 runs of the tests; a run
    that ends without success and without error (exhaustion) has performed
    exactly 5, none of which passed, and has ended. *)
Theorem runNew_at_most_five_test_runs (env : Env) (description languageLine : gostring)
    (w : World) :
  (countTestRuns (logOf (runNew env description languageLine) w) <= 5)%nat
  /\ (resOf (runNew env description languageLine) w = inr false ->
      countTestRuns (logOf (runNew env description languageLine) w) = 5%nat
      /\ Forall notPass (logOf (runNew env description languageLine) w)).
Proof.
  destruct (runNew_phased env description languageLine w)
    as (pre & mid & post & r & -> & Hpre & (Hcount & _ & Hshape) & Hpost & Hr).
  assert (Hpost' : Forall notTestRun post).
  { eapply Forall_impl; [exact Hpost | by intros e [He _]]. }
  rewrite !countTestRuns_app, (countTestRuns_none pre), (countTestRuns_none post) by done.
  unfold maxIterations in *. split; [lia |].
  intros Hres. specialize (Hr _ Hres). subst r.
  destruct Hshape as [(Hno & Hex & _) | (t1 & e & _ & _ & _ & Hnf)]; [| done].
  split; [rewrite Hex by done; lia |].
  rewrite !Forall_app. split_and!; [| done |].
  - eapply Forall_impl; [exact Hpre | apply notTestRun_notPass].
  - eapply Forall_impl; [exact Hpost | apply quiet_notPass].
Qed.

Lemma runNew_at_most_five_test_runs_witness :
  countTestRuns (logOf (runNew envAllFail (runes "add two integers") (runes "go"))
                   emptyWorld) = 5%nat
  /\ Forall notPass (logOf (runNew envAllFail (runes "add two integers") (runes "go"))
                       emptyWorld).
Proof.
  apply (proj2 (runNew_at_most_five_test_runs envAllFail (runes "add two integers")
                  (runes "go") emptyWorld)).
  vm_compute. reflexivity.
Defined.

(** C3 (controller). Once a run of the tests has passed, the run performs
    no further run of the tests and sends no further request to the model
    (so no repair), whatever is left of the 5 iterations. *)
Theorem runNew_stops_at_pass (env : Env) (description languageLine : gostring)
    (w : World) (pre post : list Event) (e : Event) :
  logOf (runNew env description languageLine) w = pre ++ e :: post ->
  isTestPass e = true ->
  Forall quiet post.
Proof.
  destruct (runNew_phased env description languageLine w)
    as (pre0 & mid & post0 & r & -> & Hpre & (_ & _ & Hshape) & Hpost & _).
  intros Heq He.
  assert (Hpre' : Forall notPass pre0).
  { eapply Forall_impl; [exact Hpre | apply notTestRun_notPass]. }
  assert (Hpost' : Forall notPass post0).
  { eapply Forall_impl; [exact Hpost | apply quiet_notPass]. }
  destruct Hshape as [(Hno & _) | (t1 & e1 & -> & Hno & He1 & _)].
  - exfalso.
    assert (Hin : e ∈ pre0 ++ mid ++ post0)
      by (rewrite Heq, elem_of_app; right; apply list_elem_of_here).
    assert (Hall : Forall notPass (pre0 ++ mid ++ post0)) by (by rewrite !Forall_app).
    eapply Forall_forall in Hall; [| exact Hin]. unfold notPass in Hall. congruence.
  - replace (pre0 ++ (t1 ++ [e1]) ++ post0) with ((pre0 ++ t1) ++ e1 :: post0) in Heq
      by (rewrite <- !app_assoc; reflexivity).
    apply single_pass_cut in Heq; try done; [by subst | by apply Forall_app].
Qed.

Lemma runNew_stops_at_pass_witness :
  Forall quiet
    (drop 15 (logOf (runNew envPassSecond (runes "add two integers") (runes "go"))
                emptyWorld)).
Proof.
  apply (runNew_stops_at_pass envPassSecond (runes "add two integers") (runes "go")
           emptyWorld
           (take 14 (logOf (runNew envPassSecond (runes "add two integers") (runes "go"))
                       emptyWorld))
           _
           (EvRun GoTest (runes "/tmp/aiterate-1") (Exited 0))).
  - vm_compute. reflexivity.
  - reflexivity.
Defined.

(** C4 (joint repair, as the code has it). The response is split at every
    [---]; a marker is a part that trims to the word IMPLEMENTATION (or
    TESTS) and has a part after it, and the section of the marker is the
    part after the last such marker, as [stripCodeBlock] cleans it. The
    parser returns the two sections, and no more than that: there is an
    error and no result when the response has fewer than five parts, when
    it has no IMPLEMENTATION marker or no TESTS marker (the word elsewhere
    in the text does not count), and when a section cleans to the empty
    text; the error is one of two generic [fmt.Errorf] errors; a result
    holds the two sections, neither empty. A response in the format of
    the prompt, in which no [---] begins inside a section (none in it and
    no hyphen at its end) and no section trims to a marker word, gives
    both sections as [stripCodeBlock] cleans them when neither cleans to
    the empty text, and the error otherwise. *)
Theorem parseFixResponse_sections (response impl tests : gostring) :
  parseFixResponse response = parsedSections response
  /\ (Forall (fun p => TrimSpace p <> markImpl) (Split response sep3)
      \/ Forall (fun p => TrimSpace p <> markTests) (Split response sep3) ->
      exists e, parseFixResponse response = inl e)
  /\ (emptySection response -> exists e, parseFixResponse response = inl e)
  /\ (forall e, parseFixResponse response = inl e ->
      e = Errorf "invalid response format from AI"
      \/ e = Errorf "failed to extract implementation or test code")
  /\ (forall fr, parseFixResponse response = inr fr ->
      Generator.Code fr = sectionOf markImpl response
      /\ Generator.TestCode fr = sectionOf markTests response
      /\ Generator.Code fr <> [] /\ Generator.TestCode fr <> [])
  /\ (wholeSection impl = true -> wholeSection tests = true ->
      parseFixResponse (promptFormat impl tests)
      = if bool_decide (stripCodeBlock impl = []) || bool_decide (stripCodeBlock tests = [])
        then inl (Errorf "failed to extract implementation or test code")
        else inr {| Generator.TestCode := stripCodeBlock tests;
                    Generator.Code := stripCodeBlock impl |}).
Proof.
  split_and!.
  - apply parse_sections.
  - intros [H | H]; apply parse_empty_section; [left | right];
      by apply sectionOf_no_marker.
  - apply parse_empty_section.
  - apply parse_error_generic.
  - intros fr Hfr. destruct (parse_ok_nonempty _ _ Hfr) as [Hc Ht].
    rewrite parse_sections in Hfr. unfold parsedSections in Hfr.
    case_bool_decide; [discriminate |].
    destruct (_ || _); [discriminate |]. injection Hfr as <-. done.
  - apply parse_prompt_format.
Qed.

Lemma parseFixResponse_sections_witness :
  parseFixResponse (promptFormat (newline ++ runes "x := a - b" ++ newline)
                      (newline ++ runes "t" ++ newline))
  = inr {| Generator.TestCode := runes "t"; Generator.Code := runes "x := a - b" |}
  /\ exists e, parseFixResponse (promptFormat (newline ++ fence ++ runes "go" ++ newline)
                                   (newline ++ runes "t" ++ newline)) = inl e.
Proof.
  split.
  - apply (proj2 (proj2 (proj2 (proj2 (proj2
             (parseFixResponse_sections [] (newline ++ runes "x := a - b" ++ newline)
                (newline ++ runes "t" ++ newline))))))); reflexivity.
  - apply (proj1 (proj2 (proj2
             (parseFixResponse_sections
                (promptFormat (newline ++ fence ++ runes "go" ++ newline)
                   (newline ++ runes "t" ++ newline)) [] [])))).
    left. vm_compute. reflexivity.
Defined.

(** C4, as the claim states it, fails: a response in the format of the
    prompt, with both sections present and not empty, whose implementation
    holds [---]: the implementation returned is cut at the [---], it is not
    the section as [stripCodeBlock] cleans it. *)
Lemma parseFixResponse_verbatim_counterexample :
  parseFixResponse (runes "---IMPLEMENTATION---" ++ (newline ++ runes "x := a --- b" ++ newline)
                    ++ runes "---TESTS---" ++ (newline ++ runes "t" ++ newline)
                    ++ runes "---END---")
  = inr {| Generator.TestCode := runes "t"; Generator.Code := runes "x := a" |}
  /\ stripCodeBlock (newline ++ runes "x := a --- b" ++ newline) = runes "x := a --- b"
  /\ runes "x := a" <> runes "x := a --- b".
Proof. vm_compute. split_and!; [reflexivity | reflexivity | discriminate]. Qed.

(** C5 (test runner, as the code has it). [RunTests] returns an error
    exactly for an unsupported language, and then starts no process; for a
    supported language it starts one process, the test command, and
    returns a result and no error, whose success flag says that the
    process ran and exited with status zero: a non-zero exit and a process
    that could not be started both give success=false. *)
Theorem RunTests_outcome (env : Env) (workDir language : gostring) (w : World) :
  (supportedLanguages language = false
   /\ resOf (RunTests env workDir language) w = inl (Errorf "unsupported language: %s")
   /\ logOf (RunTests env workDir language) w = [])
  \/ (supportedLanguages language = true
      /\ exists cmd st output,
          logOf (RunTests env workDir language) w = [EvRun cmd workDir st]
          /\ isTestRun (EvRun cmd workDir st) = true
          /\ st = status (process env (nProcess (counters w)))
          /\ resOf (RunTests env workDir language) w
             = inr {| Passed := exitedZero st; Output := output |}).
Proof.
  rewrite resOf_RunTests, logOf_RunTests.
  destruct (supportedLanguages language); [right | left; done].
  split; [done |]. eexists _, _, _. split_and!; try reflexivity.
  by case_bool_decide.
Qed.

(** C5, as the claim states it, fails: the test process cannot be started
    (no toolchain), and [RunTests] returns a result with success=false and
    no error. *)
Lemma RunTests_launch_counterexample :
  status (process envNoToolchain 0) = LaunchFailed
  /\ resOf (RunTests envNoToolchain (runes "/tmp/aiterate-1") (runes "go")) emptyWorld
     = inr {| Passed := false; Output := [] |}.
Proof. vm_compute. split; reflexivity. Qed.

(** C6 (response cleaning, as the code has it). A text that begins, white
    space before it apart, with an opening fence line (with or without a
    language tag) and has a closing fence line after it, a line that trims
    to the fence (indented or not, with or without blanks after it), right
    after the opening line or after the lines of a body, and then ends or
    goes on with lines none of which is a fence, cleans to the text
    between the two fence lines, trimmed; a text that is only the opening
    fence line cleans to the empty text; a text without fence marker
    cleans to itself, trimmed. *)
Theorem stripCodeBlock_cleaning (lead tag block cl post trail code : gostring) :
  (allSpace lead -> 10 ∉ tag -> block = [] \/ last block = Some 10 ->
   10 ∉ cl -> TrimSpace cl = fence ->
   Forall (fun l => TrimSpace l <> fence) (Split post newline) ->
   stripCodeBlock (lead ++ fence ++ tag ++ newline ++ block ++ cl) = TrimSpace block
   /\ stripCodeBlock (lead ++ fence ++ tag ++ newline ++ block ++ cl ++ newline ++ post)
      = TrimSpace block)
  /\ (allSpace lead -> allSpace trail -> 10 ∉ tag ->
      stripCodeBlock (lead ++ fence ++ tag ++ trail) = [])
  /\ (Contains code fence = false -> stripCodeBlock code = TrimSpace code).
Proof.
  split_and!.
  - apply stripCodeBlock_block.
  - apply stripCodeBlock_opening_only.
  - apply stripCodeBlock_no_fence.
Qed.

Lemma stripCodeBlock_cleaning_witness :
  stripCodeBlock ([32] ++ fence ++ runes "go" ++ newline ++ (runes " x := 1 " ++ newline)
                  ++ ([32; 32] ++ fence ++ [32]))
  = TrimSpace (runes " x := 1 " ++ newline)
  /\ stripCodeBlock ([32] ++ fence ++ runes "go" ++ newline ++ (runes " x := 1 " ++ newline)
                     ++ ([32; 32] ++ fence ++ [32]) ++ newline ++ runes "Hope this helps!")
     = TrimSpace (runes " x := 1 " ++ newline).
Proof.
  apply (proj1 (stripCodeBlock_cleaning [32] (runes "go") (runes " x := 1 " ++ newline)
                  ([32; 32] ++ fence ++ [32]) (runes "Hope this helps!") [] [])).
  - by repeat constructor.
  - apply (bool_decide_unpack _). vm_compute. exact I.
  - right. reflexivity.
  - apply (bool_decide_unpack _). vm_compute. exact I.
  - reflexivity.
  - apply (bool_decide_unpack _). vm_compute. exact I.
Defined.

(** C6, as the claim states it, fails: a text that contains one fenced
    block with its closing fence, after a line of prose: nothing is
    removed, the result is not the text between the fences. *)
Lemma stripCodeBlock_prose_counterexample :
  stripCodeBlock (runes "Here is the code:" ++ newline ++ fence ++ runes "go" ++ newline
                  ++ runes "x := 1" ++ newline ++ fence)
  = runes "Here is the code:" ++ newline ++ fence ++ runes "go" ++ newline
    ++ runes "x := 1" ++ newline ++ fence
  /\ stripCodeBlock (runes "Here is the code:" ++ newline ++ fence ++ runes "go" ++ newline
                     ++ runes "x := 1" ++ newline ++ fence)
     <> TrimSpace (runes "x := 1").
Proof. vm_compute. split; [reflexivity | discriminate]. Qed.

(** C7 (directory name). Whatever the model answers, the name that
    [GenerateDirectoryName] returns holds only runes of [a-z0-9-], has no
    two hyphens in a row, neither begins nor ends with a hyphen, and, when
    it is not empty, begins with a letter: it is the cleaned name, or the
    cleaned name after the prefix [fn-] when that name begins with
    something else than a letter. *)
Theorem cleanDirectoryName_shape (lower : rune -> rune) (raw : gostring) :
  let name := cleanDirectoryName lower raw in
  Forall (fun r => isSlugRune r = true) name
  /\ Contains name (runes "--") = false
  /\ head name <> Some hyphen
  /\ last name <> Some hyphen
  /\ match name with
     | [] => True
     | c :: _ => isLetter c = true
     end
  /\ (name = slugBody lower raw
      \/ name = runes "fn-" ++ slugBody lower raw
         /\ exists c, head (slugBody lower raw) = Some c /\ isLetter c = false).
Proof.
  cbv zeta. rewrite cleanDirectoryName_body.
  destruct (slugBody_shape lower raw) as (Hall & Hdd & Hh & Hl).
  destruct (slugBody lower raw) as [| c l] eqn:Hb.
  - split_and!; try done. by left.
  - destruct (isLetter c) eqn:Hc.
    + split_and!; try done. by left.
    + assert (Hne : c <> hyphen) by (intros ->; by apply Hh).
      split_and!.
      * apply Forall_app. split; [by repeat constructor | done].
      * by apply prefix_no_double.
      * done.
      * change (runes "fn-" ++ c :: l) with ([102; 110; 45] ++ c :: l).
        by rewrite last_app_cons.
      * reflexivity.
      * right. split; [done |]. by exists c.
Qed.

Lemma cleanDirectoryName_shape_witness :
  cleanDirectoryName (fun r => r) (runes "```" ++ newline ++ runes " 2 Sum--Ints! " ++ newline
                                   ++ runes "```")
  = runes "fn-2-sum-ints"
  /\ Contains (runes "fn-2-sum-ints") (runes "--") = false.
Proof.
  split; [vm_compute; reflexivity |].
  pose proof (cleanDirectoryName_shape (fun r => r)
                (runes "```" ++ newline ++ runes " 2 Sum--Ints! " ++ newline ++ runes "```"))
    as H.
  cbv zeta in H. apply proj2, proj1 in H. vm_compute in H. vm_compute. exact H.
Defined.

(** C8 (workspace), at the failing input: for the language "python",
    when [pip install] fails, [PrepareWorkspace] returns its error without
    removing the directory it made, and [runNew] returns before its
    [defer]: the run ends with an error and the temporary directory is
    still there; no [os.RemoveAll] was called. The Go branch of
    [PrepareWorkspace] removes the directory on each of its errors. *)
Theorem runNew_python_workspace_left :
  let prog := runNew envPipFails (runes "add two integers") (runes "python") in
  (exists e, resOf prog emptyWorld = inl e)
  /\ elements (tempDirs (worldOf prog emptyWorld)) = [runes "/tmp/aiterate-1"]
  /\ head (logOf prog emptyWorld) = Some (EvMkdirTemp (runes "/tmp/aiterate-1"))
  /\ filter (fun e => isRemoveAll e = true) (logOf prog emptyWorld) = [].
Proof. vm_compute. split_and!; eauto. Qed.

(** C9 (empty source, as the code has it). A repair whose implementation
    or tests section cleans to the empty text is a failure. [FixBoth]
    returns an error for such an answer, and what it returns otherwise is
    not empty. In a run, a request for a repair that gets such an answer
    is the last thing the run does but for the removal of its workspace:
    no file is written and no test is run after it, and the run returns
    the error "failed to fix code". (A request gets the answer
    [completion env i p], where [i] counts the requests made before it.)
    And the iteration loop, which writes only what a repair returned,
    never writes an empty source into the workspace. *)
Theorem repair_sources_not_empty (env : Env)
    (description languageLine sessionID workDir language testCode code output : gostring)
    (n : nat) (w w' : World) :
  (forall fr,
     resOf (FixBoth env code testCode output language) w' = inr fr ->
     Generator.Code fr <> [] /\ Generator.TestCode fr <> [])
  /\ (forall response,
        completion env (nCompletion (counters w'))
          (PromptFixBoth code testCode output language) = inr response ->
        emptySection response ->
        exists e, resOf (FixBoth env code testCode output language) w' = inl e)
  /\ (forall front c tc o l back response,
        logOf (runNew env description languageLine) w
        = front ++ EvCompletion (PromptFixBoth c tc o l) :: back ->
        completion env (nCompletion (counters w) + countCompletions front)
          (PromptFixBoth c tc o l) = inr response ->
        emptySection response ->
        exists e dir,
          resOf (runNew env description languageLine) w
          = inl (Wrapf "failed to fix code: %w" e)
          /\ back = [EvRemoveAll dir])
  /\ Forall writesSource
       (logOf (iterationLoop env sessionID workDir language n testCode code) w').
Proof.
  split_and!.
  - intros fr. apply FixBoth_nonempty.
  - intros response. apply FixBoth_empty_section.
  - intros front c tc o l back response Hlog Hanswer Hempty.
    destruct (runNew_refuses env description languageLine w) as (dir & Hrun).
    destruct (Hrun _ _ _ _ _ _ _ Hlog Hanswer Hempty) as [[e He] Hback].
    by exists e, dir.
  - apply (iterationLoop_outcome env sessionID workDir language n testCode code w').
Qed.

Lemma repair_sources_not_empty_witness :
  exists e dir,
    resOf (runNew envEmptyRepair (runes "add two integers") (runes "go")) emptyWorld
    = inl (Wrapf "failed to fix code: %w" e)
    /\ drop 12 (logOf (runNew envEmptyRepair (runes "add two integers") (runes "go"))
                  emptyWorld)
       = [EvRemoveAll dir].
Proof.
  assert (Hrequest : exists c tc o l,
             logOf (runNew envEmptyRepair (runes "add two integers") (runes "go"))
               emptyWorld !! 11%nat
             = Some (EvCompletion (PromptFixBoth c tc o l))).
  { vm_compute. by do 4 eexists. }
  destruct Hrequest as (c & tc & o & l & Hrequest).
  apply (proj1 (proj2 (proj2
           (repair_sources_not_empty envEmptyRepair (runes "add two integers")
              (runes "go") [] [] [] [] [] [] 0 emptyWorld emptyWorld)))
         (take 11 (logOf (runNew envEmptyRepair (runes "add two integers") (runes "go"))
                     emptyWorld))
         c tc o l
         (drop 12 (logOf (runNew envEmptyRepair (runes "add two integers") (runes "go"))
                     emptyWorld))
         (runes "---IMPLEMENTATION---" ++ newline ++ fence ++ runes "go" ++ newline
          ++ runes "---TESTS---" ++ newline ++ runes "package main_test"
          ++ newline ++ runes "---END---")).
  - symmetry. apply take_drop_middle. exact Hrequest.
  - reflexivity.
  - left. vm_compute. reflexivity.
Defined.

(** C9, as the claim states it, fails: the model answers the test prompt
    with an opening fence only, the test source cleans to the empty text,
    and the run writes the empty [main_test.go] into the workspace, runs
    the tests and ends with success. *)
Lemma runNew_empty_tests_counterexample :
  let prog := runNew envEmptyTests (runes "add two integers") (runes "go") in
  stripCodeBlock (runes "```go") = []
  /\ logOf prog emptyWorld !! 8%nat
     = Some (EvWriteFile (runes "/tmp/aiterate-1") (runes "main_test.go") [])
  /\ countTestRuns (logOf prog emptyWorld) = 1%nat
  /\ resOf prog emptyWorld = inr true.
Proof. vm_compute. split_and!; reflexivity. Qed.

(** C10 (response cleaning). A text that begins with an opening fence
    line, whitespace before it apart, and has no closing fence line after
    it: the normalizer returns all that follows the opening line, trimmed. *)
Theorem stripCodeBlock_keeps_unterminated (lead tag rest : gostring) :
  allSpace lead -> 10 ∉ tag ->
  Forall (fun l => TrimSpace l <> fence) (Split rest newline) ->
  stripCodeBlock (lead ++ fence ++ tag ++ newline ++ rest) = TrimSpace rest.
Proof. apply stripCodeBlock_unterminated. Qed.

Lemma stripCodeBlock_keeps_unterminated_witness :
  stripCodeBlock ([] ++ fence ++ runes "go" ++ newline
                  ++ (runes "x := 1" ++ newline ++ runes "y := 2" ++ newline))
  = TrimSpace (runes "x := 1" ++ newline ++ runes "y := 2" ++ newline).
Proof.
  apply (stripCodeBlock_keeps_unterminated [] (runes "go")
           (runes "x := 1" ++ newline ++ runes "y := 2" ++ newline)).
  - constructor.
  - apply (bool_decide_unpack _). vm_compute. exact I.
  - apply (bool_decide_unpack _). vm_compute. exact I.
Defined.

(** * Further properties of the program *)

(** ** Cleaning of model responses *)

(** X1 (response cleaning). What [stripCodeBlock] returns has no white
    space at either end: trimming it again changes nothing. *)
Theorem stripCodeBlock_is_trimmed (code : gostring) :
  TrimSpace (stripCodeBlock code) = stripCodeBlock code.
Proof.
  unfold stripCodeBlock. destruct (HasPrefix _ _).
  - case_bool_decide; [reflexivity | apply TrimFunc_idemp].
  - apply TrimFunc_idemp.
Qed.

(** X2 (response cleaning). White space before and after a response does
    not count: [stripCodeBlock] returns for the response what it returns
    for the text between. *)
Theorem stripCodeBlock_ignores_outer_space (lead code trail : gostring) :
  allSpace lead -> allSpace trail ->
  stripCodeBlock (lead ++ code ++ trail) = stripCodeBlock code.
Proof.
  intros Hl Ht. rewrite <- (stripCodeBlock_of_trimmed (lead ++ code ++ trail)).
  rewrite TrimSpace_around by done. apply stripCodeBlock_of_trimmed.
Qed.

Lemma stripCodeBlock_ignores_outer_space_witness :
  stripCodeBlock ([32; 10] ++ (fence ++ newline ++ runes "x := 1" ++ newline ++ fence)
                  ++ [9; 10])
  = stripCodeBlock (fence ++ newline ++ runes "x := 1" ++ newline ++ fence).
Proof. apply stripCodeBlock_ignores_outer_space; by repeat constructor. Defined.

(** X3 (response cleaning). A fenced block followed by more text, none of
    whose lines is a fence: the text after the closing fence is dropped
    with the fence, and the body, trimmed, is what is returned. *)
Theorem stripCodeBlock_trailing_text (lead tag body post : gostring) :
  allSpace lead -> 10 ∉ tag ->
  Forall (fun l => TrimSpace l <> fence) (Split post newline) ->
  stripCodeBlock (lead ++ fence ++ tag ++ newline ++ body ++ newline ++ fence
                  ++ newline ++ post)
  = TrimSpace body.
Proof.
  intros Hl Htag Hno. unfold newline in *.
  destruct (TrimRightFunc_spec IsSpace post) as (w & Hpost & Hw).
  destruct (TrimRightFunc IsSpace post) as [| x p1 _] eqn:Hp using rev_ind.
  - (* only whitespace follows the closing fence *)
    apply stripCodeBlock_fenced; [done | | done].
    rewrite Hpost. by repeat constructor.
  - assert (Hx : IsSpace x = false).
    { apply (TrimRightFunc_last IsSpace post). rewrite Hp. apply last_snoc. }
    unfold stripCodeBlock. rewrite TrimSpace_open by done. rewrite HasPrefix_app_self.
    assert (Htrim : TrimRightFunc IsSpace
                      (tag ++ [10] ++ body ++ [10] ++ fence ++ [10] ++ post)
                    = tag ++ [10] ++ body ++ [10] ++ fence ++ [10] ++ p1 ++ [x]).
    { rewrite Hpost.
      replace (tag ++ [10] ++ body ++ [10] ++ fence ++ [10] ++ (p1 ++ [x]) ++ w)
        with ((tag ++ [10] ++ body ++ [10] ++ fence ++ [10] ++ p1) ++ x :: w)
        by (rewrite <- !app_assoc; reflexivity).
      rewrite TrimRightFunc_app_keep by done. rewrite TrimRightFunc_all by done.
      rewrite <- !app_assoc. reflexivity. }
    rewrite Htrim.
    replace (fence ++ tag ++ [10] ++ body ++ [10] ++ fence ++ [10] ++ p1 ++ [x])
      with ((fence ++ tag) ++ [10] ++ (body ++ 10 :: (fence ++ 10 :: (p1 ++ [x]))))
      by (rewrite <- !app_assoc; reflexivity).
    unfold newline.
    rewrite Split_app_clean
      by (simpl removelast; rewrite app_nil_r; by apply Contains_single, fence_no_newline).
    rewrite Split_app_single.
    change (fence ++ 10 :: p1 ++ [x]) with (fence ++ [10] ++ (p1 ++ [x])).
    rewrite (Split_app_clean fence 10 [])
      by (simpl removelast; rewrite app_nil_r;
          apply Contains_single, (fence_no_newline []), not_elem_of_nil).
    rewrite bool_decide_eq_false_2.
    2:{ simpl. rewrite length_app. simpl. lia. }
    cbn [drop]. rewrite !drop_0.
    rewrite closingFence_middle.
    + rewrite take_app_length, Join_Split. reflexivity.
    + apply TrimSpace_fence.
    + apply Forall_forall. intros l Hin.
      destruct (Split_lines_trimmed w Hw _ _ Hin) as (l' & Hl' & Heq).
      rewrite <- Hpost in Hl'. rewrite <- Heq.
      eapply Forall_forall in Hno; eauto.
Qed.

Lemma stripCodeBlock_trailing_text_witness :
  stripCodeBlock ([] ++ fence ++ runes "go" ++ newline ++ runes "x := 1" ++ newline ++ fence
                  ++ newline ++ runes "Hope this helps!")
  = TrimSpace (runes "x := 1").
Proof.
  apply (stripCodeBlock_trailing_text [] (runes "go") (runes "x := 1")
           (runes "Hope this helps!")).
  - constructor.
  - apply (bool_decide_unpack _). vm_compute. exact I.
  - apply (bool_decide_unpack _). vm_compute. exact I.
Defined.

(** ** The joint repair response *)

(** X4 (joint repair). Text before the first marker is passed over, and
    the END marker is not needed: a response that begins with prose and
    ends with the tests section gives both sections as [stripCodeBlock]
    cleans them (no [---] begins inside the prose or a section, and none
    of them trims to a marker word). *)
Theorem parseFixResponse_prose_no_end (pre impl tests : gostring) :
  wholeSection pre = true -> wholeSection impl = true -> wholeSection tests = true ->
  stripCodeBlock impl <> [] -> stripCodeBlock tests <> [] ->
  parseFixResponse (pre ++ runes "---IMPLEMENTATION---" ++ impl ++ runes "---TESTS---"
                    ++ tests)
  = inr {| Generator.TestCode := stripCodeBlock tests;
           Generator.Code := stripCodeBlock impl |}.
Proof.
  intros Hp Hi Ht Hni Hnt. pose proof (wholeSection_no_separator _ Ht) as Hlast.
  apply wholeSection_true in Hp as (Hp & Hp1 & Hp2).
  apply wholeSection_true in Hi as (Hi & Hi1 & Hi2).
  apply wholeSection_true in Ht as (Ht & Ht1 & Ht2).
  unfold parseFixResponse.
  assert (Hsplit : Split (pre ++ runes "---IMPLEMENTATION---" ++ impl
                          ++ runes "---TESTS---" ++ tests) (runes "---")
                   = [pre; markImpl; impl; markTests; tests]).
  { change (runes "---IMPLEMENTATION---") with (sep3 ++ markImpl ++ sep3).
    change (runes "---TESTS---") with (sep3 ++ markTests ++ sep3).
    change (runes "---") with sep3.
    rewrite <- !app_assoc. unfold sep3 in *.
    rewrite (Split_app_clean pre) by exact Hp.
    rewrite (Split_app_clean markImpl) by reflexivity.
    rewrite (Split_app_clean impl) by exact Hi.
    rewrite (Split_app_clean markTests) by reflexivity.
    rewrite Split_clean by exact Hlast. reflexivity. }
  rewrite Hsplit. rewrite bool_decide_eq_false_2 by (simpl; lia).
  rewrite scanParts_other by done.
  rewrite (scanParts_impl _ _ _ impl) by done.
  rewrite scanParts_other by done.
  rewrite (scanParts_tests _ _ _ tests) by done.
  rewrite scanParts_other by done.
  cbn [scanParts fst snd].
  rewrite !bool_decide_eq_false_2 by done. reflexivity.
Qed.

Lemma parseFixResponse_prose_no_end_witness :
  parseFixResponse ((runes "Here is the fix:" ++ newline) ++ runes "---IMPLEMENTATION---"
                    ++ (newline ++ runes "package main" ++ newline) ++ runes "---TESTS---"
                    ++ (newline ++ runes "package main_test" ++ newline))
  = inr {| Generator.TestCode := stripCodeBlock (newline ++ runes "package main_test" ++ newline);
           Generator.Code := stripCodeBlock (newline ++ runes "package main" ++ newline) |}.
Proof.
  apply (parseFixResponse_prose_no_end (runes "Here is the fix:" ++ newline)
           (newline ++ runes "package main" ++ newline)
           (newline ++ runes "package main_test" ++ newline)).
  - reflexivity.
  - reflexivity.
  - reflexivity.
  - vm_compute. discriminate.
  - vm_compute. discriminate.
Defined.

(** X5 (joint repair). The two sections may come in the other order: a
    response with the tests section before the implementation section
    gives the same result as one in the order of the prompt. *)
Theorem parseFixResponse_tests_first (impl tests : gostring) :
  wholeSection impl = true -> wholeSection tests = true ->
  stripCodeBlock impl <> [] -> stripCodeBlock tests <> [] ->
  parseFixResponse (runes "---TESTS---" ++ tests ++ runes "---IMPLEMENTATION---"
                    ++ impl ++ runes "---END---")
  = inr {| Generator.TestCode := stripCodeBlock tests;
           Generator.Code := stripCodeBlock impl |}.
Proof.
  intros (Hi & Hi1 & Hi2)%wholeSection_true (Ht & Ht1 & Ht2)%wholeSection_true Hni Hnt.
  unfold parseFixResponse.
  assert (Hsplit : Split (runes "---TESTS---" ++ tests ++ runes "---IMPLEMENTATION---"
                          ++ impl ++ runes "---END---") (runes "---")
                   = [[]; markTests; tests; markImpl; impl; markEnd; []]).
  { change (runes "---TESTS---") with ([] ++ sep3 ++ markTests ++ sep3).
    change (runes "---IMPLEMENTATION---") with (sep3 ++ markImpl ++ sep3).
    change (runes "---END---") with (sep3 ++ markEnd ++ sep3 ++ []).
    change (runes "---") with sep3.
    rewrite <- !app_assoc. unfold sep3 in *.
    rewrite (Split_app_clean []) by reflexivity.
    rewrite (Split_app_clean markTests) by reflexivity.
    rewrite (Split_app_clean tests) by exact Ht.
    rewrite (Split_app_clean markImpl) by reflexivity.
    rewrite (Split_app_clean impl) by exact Hi.
    rewrite (Split_app_clean markEnd) by reflexivity.
    rewrite Split_clean by reflexivity. reflexivity. }
  rewrite Hsplit. rewrite bool_decide_eq_false_2 by (simpl; lia).
  rewrite scanParts_other by done.
  rewrite (scanParts_tests _ _ _ tests) by done.
  rewrite scanParts_other by done.
  rewrite (scanParts_impl _ _ _ impl) by done.
  rewrite scanParts_other by done.
  rewrite scanParts_other by done.
  rewrite scanParts_other by done.
  cbn [scanParts fst snd].
  rewrite !bool_decide_eq_false_2 by done. reflexivity.
Qed.

Lemma parseFixResponse_tests_first_witness :
  parseFixResponse (runes "---TESTS---" ++ (newline ++ runes "package main_test" ++ newline)
                    ++ runes "---IMPLEMENTATION---"
                    ++ (newline ++ runes "package main" ++ newline) ++ runes "---END---")
  = inr {| Generator.TestCode := stripCodeBlock (newline ++ runes "package main_test" ++ newline);
           Generator.Code := stripCodeBlock (newline ++ runes "package main" ++ newline) |}.
Proof.
  apply (parseFixResponse_tests_first (newline ++ runes "package main" ++ newline)
           (newline ++ runes "package main_test" ++ newline)).
  - reflexivity.
  - reflexivity.
  - vm_compute. discriminate.
  - vm_compute. discriminate.
Defined.

(** ** The import paths of [UpdateDependencies] *)

(** X6 (dependencies). The table of [isStandardPackage] changes nothing:
    a package is taken for a standard one exactly when its path has no
    dot, whether the table lists it or not. *)
Theorem isStandardPackage_no_dot (pkg : gostring) :
  isStandardPackage pkg = negb (Contains pkg (runes ".")).
Proof.
  unfold isStandardPackage.
  destruct (stdPkgs !! pkg) as [b |] eqn:Hl; simpl; [| reflexivity].
  destruct b; [| reflexivity].
  unfold stdPkgs in Hl. apply elem_of_list_to_map_2 in Hl.
  repeat (apply elem_of_cons in Hl as [[= ->] | Hl]; [reflexivity |]).
  by apply elem_of_nil in Hl.
Qed.

(** X7 (dependencies). Whatever the line, what [extractPackagePath]
    returns holds no white space and has no quote at either end. *)
Theorem extractPackagePath_shape (line : gostring) :
  Forall (fun c => IsSpace c = false) (extractPackagePath line)
  /\ head (extractPackagePath line) <> Some quote
  /\ last (extractPackagePath line) <> Some quote.
Proof.
  unfold extractPackagePath. cbv zeta.
  destruct (_ || _); [done |].
  destruct (last (Fields _)) as [pkg |] eqn:Hlast; [| done].
  split_and!; [| apply Trim_head | apply Trim_last].
  apply Trim_no_space. apply last_Some in Hlast as (l' & Hl').
  unfold Fields in Hl'.
  eapply (fieldsFrom_no_space [] _ pkg); [constructor |].
  rewrite Hl', elem_of_app. right. apply list_elem_of_here.
Qed.

(** X8 (dependencies). What follows the first [//] of a line does not
    count: the path of the line is the path of what stands before it. *)
Theorem extractPackagePath_comment (code comment : gostring) :
  Contains (code ++ runes "/") (runes "//") = false ->
  extractPackagePath (code ++ runes "//" ++ comment) = extractPackagePath code.
Proof.
  intros Hc. unfold extractPackagePath.
  rewrite (Index_app_clean code (runes "//") comment) by done.
  rewrite take_app_length.
  assert (Hn : Contains code (runes "//") = false).
  { apply (Contains_infix [] code (runes "/")). exact Hc. }
  apply Contains_false in Hn. rewrite Hn. reflexivity.
Qed.

Lemma extractPackagePath_comment_witness :
  extractPackagePath (([9] ++ (quote :: testify ++ [quote]) ++ [32]) ++ runes "//"
                      ++ runes " for the assertions")
  = extractPackagePath ([9] ++ (quote :: testify ++ [quote]) ++ [32]).
Proof. apply extractPackagePath_comment. vm_compute. reflexivity. Defined.

(** X9 (dependencies). A line that is a quoted path, white space around
    it apart and without comment, gives the path (a path is not empty,
    holds neither white space nor a quote, and is not a single dot). *)
Theorem extractPackagePath_quoted (lead p trail : gostring) :
  allSpace lead -> allSpace trail -> plainPath p -> p <> runes "." ->
  Contains (lead ++ (quote :: p ++ [quote]) ++ trail) (runes "//") = false ->
  extractPackagePath (lead ++ (quote :: p ++ [quote]) ++ trail) = p.
Proof.
  intros Hl Ht Hp Hdot Hc. unfold extractPackagePath.
  apply Contains_false in Hc. rewrite Hc. cbv zeta.
  rewrite (TrimSpace_around lead _ trail) by done.
  assert (Hts : TrimSpace (quote :: p ++ [quote]) = quote :: p ++ [quote]).
  { apply TrimFunc_fixed.
    - by intros a [= <-].
    - intros b Hb. change (quote :: p ++ [quote]) with ((quote :: p) ++ [quote]) in Hb.
      rewrite last_snoc in Hb. by injection Hb as <-. }
  rewrite Hts.
  assert (Htq : Trim (quote :: p ++ [quote]) [quote] = p).
  { unfold Trim. change (quote :: p ++ [quote]) with ([quote] ++ p ++ [quote]).
    rewrite TrimFunc_app_l, TrimFunc_app_r
      by (repeat constructor; apply bool_decide_eq_true, list_elem_of_here).
    by apply plainPath_Trim. }
  rewrite Htq. destruct Hp as [Hne Hall].
  rewrite !bool_decide_eq_false_2 by done. simpl orb. cbv iota.
  unfold Fields. rewrite fieldsFrom_word.
  - simpl. by apply plainPath_Trim.
  - eapply Forall_impl; [exact Hall | by intros ? []].
  - by right.
Qed.

Lemma extractPackagePath_quoted_witness :
  extractPackagePath ([9] ++ (quote :: testify ++ [quote]) ++ [32]) = testify.
Proof.
  apply extractPackagePath_quoted.
  - by repeat constructor.
  - by repeat constructor.
  - split; [discriminate | apply (bool_decide_unpack _); vm_compute; exact I].
  - discriminate.
  - vm_compute. reflexivity.
Defined.

(** X10 (dependencies). An import line with an alias gives the path:
    whatever stands before the white space that precedes the quoted path
    (it begins with neither white space nor a quote), the path between the
    quotes is returned. *)
Theorem extractPackagePath_alias (lead before p trail : gostring) (a c : rune) :
  allSpace lead -> allSpace trail -> plainPath p ->
  IsSpace a = false -> a <> quote -> IsSpace c = true ->
  Contains (lead ++ ((a :: before) ++ c :: quote :: p ++ [quote]) ++ trail) (runes "//")
  = false ->
  extractPackagePath (lead ++ ((a :: before) ++ c :: quote :: p ++ [quote]) ++ trail) = p.
Proof.
  intros Hl Ht Hp Ha Haq Hcs Hc. unfold extractPackagePath.
  apply Contains_false in Hc. rewrite Hc. cbv zeta.
  rewrite (TrimSpace_around lead _ trail) by done.
  set (X := (a :: before) ++ c :: quote :: p).
  replace ((a :: before) ++ c :: quote :: p ++ [quote]) with (X ++ [quote])
    by (subst X; rewrite <- app_assoc; reflexivity).
  assert (Hts : TrimSpace (X ++ [quote]) = X ++ [quote]).
  { apply TrimFunc_fixed.
    - subst X. by intros ? [= <-].
    - intros b Hb. rewrite last_snoc in Hb. by injection Hb as <-. }
  rewrite Hts.
  assert (HlastX : last X = last p).
  { subst X. destruct Hp as [Hne _].
    rewrite (last_app_cons (a :: before) (quote :: p) c), last_cons, last_cons.
    destruct (last p) eqn:Hlp; [reflexivity |].
    by apply last_None in Hlp. }
  assert (Htq : Trim (X ++ [quote]) [quote] = X).
  { unfold Trim.
    rewrite TrimFunc_app_r by (repeat constructor; apply bool_decide_eq_true, list_elem_of_here).
    apply TrimFunc_fixed.
    - subst X. intros ? [= <-]. apply bool_decide_eq_false.
      by intros ->%list_elem_of_singleton.
    - intros b Hb. rewrite HlastX in Hb. destruct Hp as [_ Hall].
      apply last_Some in Hb as (l' & ->). apply Forall_app in Hall as [_ Hb].
      apply Forall_cons in Hb as [[_ Hq] _]. apply bool_decide_eq_false.
      by intros ->%list_elem_of_singleton. }
  rewrite Htq.
  rewrite (bool_decide_eq_false_2 (X = [])) by (subst X; discriminate).
  rewrite (bool_decide_eq_false_2 (X = runes ".")).
  2:{ subst X. intros H. apply (f_equal length) in H. rewrite length_app in H.
      simpl in H. lia. }
  simpl orb. cbv iota. unfold Fields. subst X.
  rewrite (fieldsFrom_last_word [] (a :: before) c (quote :: p)).
  - unfold Trim. change (quote :: p) with ([quote] ++ p).
    rewrite TrimFunc_app_l
      by (repeat constructor; apply bool_decide_eq_true, list_elem_of_here).
    by apply plainPath_Trim.
  - exact Hcs.
  - destruct Hp as [_ Hall]. constructor; [reflexivity |].
    eapply Forall_impl; [exact Hall | by intros ? []].
  - discriminate.
Qed.

Lemma extractPackagePath_alias_witness :
  extractPackagePath ([9] ++ ((97 :: runes "ssert") ++ 32 :: quote :: testify ++ [quote])
                      ++ []) = testify.
Proof.
  apply extractPackagePath_alias.
  - by repeat constructor.
  - constructor.
  - split; [discriminate | apply (bool_decide_unpack _); vm_compute; exact I].
  - reflexivity.
  - discriminate.
  - reflexivity.
  - vm_compute. reflexivity.
Defined.

(** ** The session store *)

(** X11 (session store). A session that [CreateSession] returned is read
    back by [GetSession], under its identifier, as it was returned, when
    the read succeeds; it has the description and the language given and
    no iteration. *)
Theorem CreateSession_read_back (env : Env) (description language : gostring) (w : World)
    (s : Storage.Session) :
  resOf (CreateSession env description language) w = inr s ->
  fileOk env (nFileOp (counters (worldOf (CreateSession env description language) w)))
  = true ->
  resOf (GetSession env (Storage.ID s)) (worldOf (CreateSession env description language) w)
  = inr s
  /\ Storage.Description s = description
  /\ Storage.Language s = language
  /\ Storage.Iterations s = [].
Proof.
  intros Hres Hok.
  destruct (CreateSession_spec env description language w) as (_ & _ & _ & H).
  rewrite Hres in H. destruct H as (Hs & Hfiles & _).
  destruct (GetSession_spec env (Storage.ID s)
              (worldOf (CreateSession env description language) w)) as (_ & _ & ->).
  rewrite Hok, Hfiles, lookup_insert_eq. by subst s.
Qed.

Lemma CreateSession_read_back_witness :
  resOf (GetSession envAllFail
           (Storage.ID (created envAllFail (runes "add two integers") (runes "go") emptyWorld)))
    (worldOf (CreateSession envAllFail (runes "add two integers") (runes "go")) emptyWorld)
  = inr (created envAllFail (runes "add two integers") (runes "go") emptyWorld)
  /\ Storage.Description
       (created envAllFail (runes "add two integers") (runes "go") emptyWorld)
     = runes "add two integers"
  /\ Storage.Language (created envAllFail (runes "add two integers") (runes "go") emptyWorld)
     = runes "go"
  /\ Storage.Iterations (created envAllFail (runes "add two integers") (runes "go") emptyWorld)
     = [].
Proof.
  apply (CreateSession_read_back envAllFail (runes "add two integers") (runes "go")
           emptyWorld).
  - vm_compute. reflexivity.
  - reflexivity.
Defined.

(** X12 (session store). After an [AddIteration] that returned no error,
    [GetSession] reads the session back with the iterations it had and,
    last, one that holds the test code, the code, the logs and the flag
    given; the identifier, the description, the language and the time of
    creation are as they were. *)
Theorem AddIteration_read_back (env : Env) (id testCode code logs : gostring) (success : bool)
    (w : World) (s0 : Storage.Session) :
  storeOk w -> sessionFiles w !! id = Some s0 ->
  resOf (AddIteration env id testCode code logs success) w = inr tt ->
  fileOk env (nFileOp (counters (worldOf (AddIteration env id testCode code logs success) w)))
  = true ->
  exists s it,
    resOf (GetSession env id) (worldOf (AddIteration env id testCode code logs success) w)
    = inr s
    /\ Storage.Iterations s = Storage.Iterations s0 ++ [it]
    /\ stored it = (testCode, code, logs, success)
    /\ sameSession s s0.
Proof.
  intros Hstore Hs0 Hres Hok.
  destruct (AddIteration_spec env id testCode code logs success w) as (_ & _ & H).
  rewrite Hres in H. destruct H as (s & stamp & updated & Hs & Hfiles).
  rewrite Hs0 in Hs. injection Hs as <-.
  rewrite (Hstore _ _ Hs0) in Hfiles.
  destruct (GetSession_spec env id
              (worldOf (AddIteration env id testCode code logs success) w)) as (_ & _ & ->).
  rewrite Hok, Hfiles, lookup_insert_eq.
  eexists _, _. split; [reflexivity |]. unfold sameSession. split_and!; reflexivity.
Qed.

Lemma AddIteration_read_back_witness :
  exists s it,
    resOf (GetSession envAllFail (runes "session-1"))
      (worldOf (AddIteration envAllFail (runes "session-1") (runes "t1") (runes "c1")
                  (runes "FAIL") false) oneSession)
    = inr s
    /\ Storage.Iterations s = Storage.Iterations newSession ++ [it]
    /\ stored it = (runes "t1", runes "c1", runes "FAIL", false)
    /\ sameSession s newSession.
Proof.
  apply (AddIteration_read_back envAllFail (runes "session-1") (runes "t1") (runes "c1")
           (runes "FAIL") false oneSession newSession).
  - unfold storeOk, oneSession. simpl. apply map_Forall_singleton. reflexivity.
  - vm_compute. reflexivity.
  - vm_compute. reflexivity.
  - reflexivity.
Defined.

(** X13 (session store). [AddIteration] for a session that has no
    [session.json] returns the error of the read, wrapped as "failed to
    read session", and changes nothing in the storage directory nor
    outside it. *)
Theorem AddIteration_unknown_session (env : Env) (id testCode code logs : gostring)
    (success : bool) (w : World) :
  sessionFiles w !! id = None ->
  resOf (AddIteration env id testCode code logs success) w
  = inl (Wrapf "failed to read session: %w" (OSError "read"))
  /\ sessionFiles (worldOf (AddIteration env id testCode code logs success) w)
     = sessionFiles w
  /\ sessionDirs (worldOf (AddIteration env id testCode code logs success) w)
     = sessionDirs w
  /\ files (worldOf (AddIteration env id testCode code logs success) w) = files w
  /\ tempDirs (worldOf (AddIteration env id testCode code logs success) w) = tempDirs w.
Proof.
  intros Hnone.
  unfold worldOf, resOf, AddIteration, GetSession, bind, fileCall, getWorld, fail. simpl.
  rewrite Hnone. by destruct (fileOk env _).
Qed.

Lemma AddIteration_unknown_session_witness :
  resOf (AddIteration envAllFail (runes "session-9") (runes "t1") (runes "c1")
           (runes "FAIL") false) oneSession
  = inl (Wrapf "failed to read session: %w" (OSError "read"))
  /\ sessionFiles (worldOf (AddIteration envAllFail (runes "session-9") (runes "t1")
                              (runes "c1") (runes "FAIL") false) oneSession)
     = sessionFiles oneSession
  /\ sessionDirs (worldOf (AddIteration envAllFail (runes "session-9") (runes "t1")
                             (runes "c1") (runes "FAIL") false) oneSession)
     = sessionDirs oneSession
  /\ files (worldOf (AddIteration envAllFail (runes "session-9") (runes "t1")
                       (runes "c1") (runes "FAIL") false) oneSession)
     = files oneSession
  /\ tempDirs (worldOf (AddIteration envAllFail (runes "session-9") (runes "t1")
                          (runes "c1") (runes "FAIL") false) oneSession)
     = tempDirs oneSession.
Proof.
  apply (AddIteration_unknown_session envAllFail (runes "session-9")).
  vm_compute. reflexivity.
Defined.

(** X14 (session store). [AddIteration] leaves the other sessions as they
    were, whether it returns an error or not, when every [session.json]
    holds the record of the session of its directory; and that stays
    so. It makes and removes no session directory, and touches no file
    outside the storage directory. *)
Theorem AddIteration_other_sessions (env : Env) (id other testCode code logs : gostring)
    (success : bool) (w : World) :
  storeOk w -> other <> id ->
  sessionFiles (worldOf (AddIteration env id testCode code logs success) w) !! other
  = sessionFiles w !! other
  /\ storeOk (worldOf (AddIteration env id testCode code logs success) w)
  /\ sessionDirs (worldOf (AddIteration env id testCode code logs success) w)
     = sessionDirs w
  /\ files (worldOf (AddIteration env id testCode code logs success) w) = files w.
Proof.
  intros Hstore Hne.
  pose proof (storeOk_step env
                {| atSession := id; withTest := testCode; withCode := code;
                   withLogs := logs; withSuccess := success |} w Hstore) as Hok.
  pose proof (keeps_AddIteration files env files_offCounters files_offStorage
                id testCode code logs success w) as Hfiles.
  destruct (AddIteration_spec env id testCode code logs success w) as (_ & Hdirs & H).
  split_and!; [| exact Hok | exact Hdirs | exact Hfiles].
  destruct (resOf (AddIteration env id testCode code logs success) w) as [e | []].
  - by rewrite H.
  - destruct H as (s & stamp & updated & Hs & ->).
    rewrite (Hstore _ _ Hs). by rewrite lookup_insert_ne.
Qed.

Lemma AddIteration_other_sessions_witness :
  sessionFiles (worldOf (AddIteration envAllFail (runes "session-1") (runes "t1")
                           (runes "c1") (runes "FAIL") false) twoSessions)
    !! runes "session-2"
  = sessionFiles twoSessions !! runes "session-2"
  /\ storeOk (worldOf (AddIteration envAllFail (runes "session-1") (runes "t1")
                         (runes "c1") (runes "FAIL") false) twoSessions)
  /\ sessionDirs (worldOf (AddIteration envAllFail (runes "session-1") (runes "t1")
                             (runes "c1") (runes "FAIL") false) twoSessions)
     = sessionDirs twoSessions
  /\ files (worldOf (AddIteration envAllFail (runes "session-1") (runes "t1")
                       (runes "c1") (runes "FAIL") false) twoSessions)
     = files twoSessions.
Proof.
  apply (AddIteration_other_sessions envAllFail (runes "session-1") (runes "session-2")).
  - apply (bool_decide_unpack _). vm_compute. exact I.
  - discriminate.
Defined.

(** X15 (session store). [CreateSession] leaves the sessions that exist
    as they were, but for one that has the new identifier; no session
    directory is removed; and every [session.json] still holds the record
    of the session of its directory when that was so before. *)
Theorem CreateSession_keeps_sessions (env : Env) (description language other : gostring)
    (w : World) :
  storeOk w -> other <> newUUID env (nUUID (counters w)) ->
  sessionFiles (worldOf (CreateSession env description language) w) !! other
  = sessionFiles w !! other
  /\ storeOk (worldOf (CreateSession env description language) w)
  /\ sessionDirs w ⊆ sessionDirs (worldOf (CreateSession env description language) w).
Proof.
  intros Hstore Hne.
  assert (Hdirs : sessionDirs w
                  ⊆ sessionDirs (worldOf (CreateSession env description language) w)).
  { unfold worldOf, CreateSession, saveSession, NewUUID, Now, bind, fileCall, getWorld,
      putWorld, ret, fail. simpl.
    destruct (fileOk env (nFileOp (counters w))); simpl; [| done].
    destruct (fileOk env _ && bool_decide _); simpl; set_solver. }
  destruct (CreateSession_spec env description language w) as (_ & _ & _ & H).
  destruct (resOf (CreateSession env description language) w) as [e | s].
  - split_and!; [by rewrite H | unfold storeOk; by rewrite H | exact Hdirs].
  - destruct H as (Hs & H & _). unfold storeOk. rewrite H.
    split_and!; [| | exact Hdirs].
    + rewrite lookup_insert_ne; [done |]. subst s. simpl. congruence.
    + intros k s' Hk. destruct (decide (Storage.ID s = k)) as [<- | Hk'].
      * rewrite lookup_insert_eq in Hk. by injection Hk as <-.
      * rewrite lookup_insert_ne in Hk by done. by apply Hstore.
Qed.

Lemma CreateSession_keeps_sessions_witness :
  sessionFiles (worldOf (CreateSession envImports (runes "sort a list") (runes "go"))
                  twoSessions) !! runes "session-1"
  = sessionFiles twoSessions !! runes "session-1"
  /\ storeOk (worldOf (CreateSession envImports (runes "sort a list") (runes "go"))
                twoSessions)
  /\ sessionDirs twoSessions
     ⊆ sessionDirs (worldOf (CreateSession envImports (runes "sort a list") (runes "go"))
                      twoSessions).
Proof.
  apply (CreateSession_keeps_sessions envImports (runes "sort a list") (runes "go")
           (runes "session-1") twoSessions).
  - apply (bool_decide_unpack _). vm_compute. exact I.
  - discriminate.
Defined.

(** ** The files of the workspace and of the output directory *)

(** X16 (files). What a [writeFiles] that returned no error did begins
    with the two writes, in the directory: the test code into
    [main_test.<ext>], then the code into [main.<ext>]. What follows are
    only the commands of the dependencies of the Go case ([go get],
    [go mod tidy]), run in the directory and exited with status 0; for
    another language nothing follows. When no command followed, the files
    are those of before with the two files set, no temporary directory was
    made or removed, and the session store is as it was. What the
    commands of the dependencies do to the files is not stated. *)
Theorem writeFiles_writes_both (env : Env) (dir testCode code language : gostring)
    (w : World) :
  resOf (writeFiles env dir testCode code language) w = inr tt ->
  exists deps,
    logOf (writeFiles env dir testCode code language) w
    = EvWriteFile dir (testFile language) testCode
      :: EvWriteFile dir (implFile language) code :: deps
    /\ Forall (fun e => exists cmd,
                 e = EvRun cmd dir (Exited 0)
                 /\ (cmd = GoModTidy \/ exists pkg, cmd = GoGet pkg)) deps
    /\ (language <> runes "go" -> deps = [])
    /\ (deps = [] ->
        files (worldOf (writeFiles env dir testCode code language) w)
        = <[(dir, implFile language) := code]>
            (<[(dir, testFile language) := testCode]> (files w))
        /\ tempDirs (worldOf (writeFiles env dir testCode code language) w) = tempDirs w
        /\ sessionFiles (worldOf (writeFiles env dir testCode code language) w)
           = sessionFiles w).
Proof.
  intros Hres.
  pose proof (writeFiles_spec env dir testCode code language w Hres) as [Hfiles Htemp].
  pose proof (keeps_writeFiles sessionFiles env sessionFiles_offCounters
                sessionFiles_offFiles dir testCode code language w) as Hsessions.
  revert Hres Hfiles Htemp Hsessions. unfold testFile, implFile.
  generalize (worldOf (writeFiles env dir testCode code language) w). intros w'.
  unfold writeFiles. case_bool_decide as Hext; [discriminate |].
  rewrite resOf_bind, logOf_bind, resOf_wrapf, worldOf_wrapf, logOf_wrapf.
  destruct (WriteFile_spec env dir (runes "main_test." ++ getFileExtension language)
              testCode w) as (_ & H1).
  destruct (resOf (WriteFile env dir _ testCode) w) as [e | []]; [discriminate |].
  destruct H1 as [_ ->]. set (w1 := worldOf _ w).
  rewrite resOf_bind, logOf_bind, resOf_wrapf, worldOf_wrapf, logOf_wrapf.
  destruct (WriteFile_spec env dir (runes "main." ++ getFileExtension language)
              code w1) as (_ & H2).
  destruct (resOf (WriteFile env dir _ code) w1) as [e | []]; [discriminate |].
  destruct H2 as [_ ->]. set (w2 := worldOf _ w1).
  case_bool_decide as Hgo.
  - rewrite resOf_wrapf, logOf_wrapf. intros Hres Hfiles Htemp Hsessions.
    exists (logOf (UpdateDependencies env dir code testCode) w2). split_and!; try done.
    apply UpdateDependencies_clean.
    by destruct (resOf (UpdateDependencies env dir code testCode) w2) as [e | []].
  - intros _ Hfiles Htemp Hsessions. exists []. by split_and!.
Qed.

Lemma writeFiles_writes_both_witness :
  exists deps,
    logOf (writeFiles envImports (runes "/tmp/aiterate-1") (runes "package main_test")
             (runes "package main") (runes "go")) emptyWorld
    = EvWriteFile (runes "/tmp/aiterate-1") (testFile (runes "go")) (runes "package main_test")
      :: EvWriteFile (runes "/tmp/aiterate-1") (implFile (runes "go")) (runes "package main")
      :: deps
    /\ Forall (fun e => exists cmd,
                 e = EvRun cmd (runes "/tmp/aiterate-1") (Exited 0)
                 /\ (cmd = GoModTidy \/ exists pkg, cmd = GoGet pkg)) deps.
Proof.
  destruct (writeFiles_writes_both envImports (runes "/tmp/aiterate-1")
              (runes "package main_test") (runes "package main") (runes "go") emptyWorld)
    as (deps & H1 & H2 & _).
  - vm_compute. reflexivity.
  - exists deps. split; [exact H1 | exact H2].
Defined.

(** X17 (files). The table of the file extensions and the list of the
    supported languages agree: for a language that is not supported,
    [getFileExtension] returns the empty extension, and [writeFiles] and
    [copyFinalFiles] return "unsupported language" and do nothing, not
    even a call of the file system. *)
Theorem unsupported_language_refused (env : Env) (dir other testCode code language : gostring)
    (w : World) :
  supportedLanguages language = false ->
  getFileExtension language = []
  /\ writeFiles env dir testCode code language w
     = (inl (Errorf "unsupported language: %s"), w, [])
  /\ copyFinalFiles env dir other language w
     = (inl (Errorf "unsupported language: %s"), w, []).
Proof.
  intros Hlang. pose proof (extension_supported language) as Hext.
  rewrite Hlang in Hext. simpl in Hext. apply bool_decide_eq_true in Hext.
  unfold writeFiles, copyFinalFiles. rewrite Hext.
  rewrite !bool_decide_eq_true_2 by reflexivity. done.
Qed.

Lemma unsupported_language_refused_witness :
  getFileExtension (runes "rust") = []
  /\ writeFiles envAllFail (runes "/tmp/aiterate-1") (runes "t") (runes "c") (runes "rust")
       emptyWorld
     = (inl (Errorf "unsupported language: %s"), emptyWorld, [])
  /\ copyFinalFiles envAllFail (runes "/tmp/aiterate-1") (runes "out") (runes "rust")
       emptyWorld
     = (inl (Errorf "unsupported language: %s"), emptyWorld, []).
Proof.
  apply (unsupported_language_refused envAllFail (runes "/tmp/aiterate-1") (runes "out")
           (runes "t") (runes "c") (runes "rust") emptyWorld).
  reflexivity.
Defined.

(** X18 (files). A [copyFinalFiles] that returned no error found both
    files in the source directory, and the destination directory holds
    them with the same contents; the files of the other directories are as
    they were. *)
Theorem copyFinalFiles_copies (env : Env) (srcDir dstDir language : gostring) (w : World) :
  resOf (copyFinalFiles env srcDir dstDir language) w = inr tt ->
  exists testCode code,
    files w !! (srcDir, testFile language) = Some testCode
    /\ files w !! (srcDir, implFile language) = Some code
    /\ files (worldOf (copyFinalFiles env srcDir dstDir language) w)
         !! (dstDir, testFile language) = Some testCode
    /\ files (worldOf (copyFinalFiles env srcDir dstDir language) w)
         !! (dstDir, implFile language) = Some code
    /\ (forall d name, d <> dstDir ->
          files (worldOf (copyFinalFiles env srcDir dstDir language) w) !! (d, name)
          = files w !! (d, name)).
Proof.
  intros Hres. apply copyFinalFiles_spec in Hres as (testCode & code & H1 & H2 & Hfiles & _).
  exists testCode, code. unfold testFile, implFile. rewrite Hfiles.
  split_and!; [exact H1 | exact H2 | | |].
  - rewrite lookup_insert_ne
      by (intros [= Hn]; symmetry in Hn; by apply names_differ in Hn).
    apply lookup_insert_eq.
  - apply lookup_insert_eq.
  - intros d name Hd. rewrite !lookup_insert_ne by congruence. reflexivity.
Qed.

Lemma copyFinalFiles_copies_witness :
  exists testCode code,
    files (worldOf (writeFiles envAllFail (runes "/tmp/aiterate-1") (runes "package main_test")
                      (runes "package main") (runes "python")) emptyWorld)
      !! (runes "/tmp/aiterate-1", testFile (runes "python")) = Some testCode
    /\ files (worldOf (writeFiles envAllFail (runes "/tmp/aiterate-1")
                         (runes "package main_test") (runes "package main") (runes "python"))
                emptyWorld)
         !! (runes "/tmp/aiterate-1", implFile (runes "python")) = Some code
    /\ files (worldOf (copyFinalFiles envAllFail (runes "/tmp/aiterate-1") (runes "add-two")
                         (runes "python"))
                (worldOf (writeFiles envAllFail (runes "/tmp/aiterate-1")
                            (runes "package main_test") (runes "package main")
                            (runes "python")) emptyWorld))
         !! (runes "add-two", testFile (runes "python")) = Some testCode
    /\ files (worldOf (copyFinalFiles envAllFail (runes "/tmp/aiterate-1") (runes "add-two")
                         (runes "python"))
                (worldOf (writeFiles envAllFail (runes "/tmp/aiterate-1")
                            (runes "package main_test") (runes "package main")
                            (runes "python")) emptyWorld))
         !! (runes "add-two", implFile (runes "python")) = Some code.
Proof.
  destruct (copyFinalFiles_copies envAllFail (runes "/tmp/aiterate-1") (runes "add-two")
              (runes "python")
              (worldOf (writeFiles envAllFail (runes "/tmp/aiterate-1")
                          (runes "package main_test") (runes "package main")
                          (runes "python")) emptyWorld))
    as (testCode & code & H1 & H2 & H3 & H4 & _).
  - vm_compute. reflexivity.
  - exists testCode, code. split_and!; assumption.
Defined.

(** ** The dependencies and the workspace *)

(** X19 (dependencies). [UpdateDependencies] starts only [go get]
    commands and then at most one [go mod tidy], all in the workspace, and
    each only after those before it exited with status 0: it does nothing,
    or it runs its [go get] commands and then [go mod tidy], or it stops
    at the first command that did not exit with 0 and returns the error
    of that step. It returns no error exactly when every process it
    started exited with status 0. Which packages it fetches is not
    stated. *)
Theorem UpdateDependencies_processes (env : Env) (dir code testCode : gostring) (w : World) :
  (resOf (UpdateDependencies env dir code testCode) w = inr tt
   <-> Forall (fun e => ranClean e = true)
         (logOf (UpdateDependencies env dir code testCode) w))
  /\ exists pkgs,
       (logOf (UpdateDependencies env dir code testCode) w = []
        /\ pkgs = []
        /\ resOf (UpdateDependencies env dir code testCode) w = inr tt)
       \/ (logOf (UpdateDependencies env dir code testCode) w
           = (fetched dir <$> pkgs) ++ [EvRun GoModTidy dir (Exited 0)]
           /\ resOf (UpdateDependencies env dir code testCode) w = inr tt)
       \/ (exists st e,
             exitedZero st = false
             /\ logOf (UpdateDependencies env dir code testCode) w
                = (fetched dir <$> pkgs) ++ [EvRun GoModTidy dir st]
             /\ resOf (UpdateDependencies env dir code testCode) w
                = inl (Wrapf "failed to run go mod tidy: %w" e))
       \/ (exists pkg st e,
             exitedZero st = false
             /\ logOf (UpdateDependencies env dir code testCode) w
                = (fetched dir <$> pkgs) ++ [EvRun (GoGet pkg) dir st]
             /\ resOf (UpdateDependencies env dir code testCode) w
                = inl (Wrapf "failed to add dependency %s: %w" e)).
Proof.
  split; [| apply UpdateDependencies_shape].
  assert (Hfetched : forall pkgs, Forall (fun e => ranClean e = true) (fetched dir <$> pkgs)).
  { intros pkgs. apply Forall_fmap, Forall_forall. by intros pkg _. }
  destruct (UpdateDependencies_shape env dir code testCode w)
    as (pkgs & [(Hlog & _ & Hres) | [(Hlog & Hres) | [(st & e & Hst & Hlog & Hres)
                                                     | (pkg & st & e & Hst & Hlog & Hres)]]]);
    rewrite Hlog, Hres.
  - split; [constructor | done].
  - split; [| done]. intros _. apply Forall_app. split; [apply Hfetched |].
    by repeat constructor.
  - split; [done |]. intros [_ Hlast]%Forall_app. apply Forall_cons in Hlast as [Hlast _].
    simpl in Hlast. congruence.
  - split; [done |]. intros [_ Hlast]%Forall_app. apply Forall_cons in Hlast as [Hlast _].
    simpl in Hlast. congruence.
Qed.

Lemma UpdateDependencies_processes_witness :
  Forall (fun e => ranClean e = true)
    (logOf (UpdateDependencies envImports (runes "/tmp/aiterate-1") (runes "package main")
              (runes "package main_test")) emptyWorld).
Proof.
  apply (proj1 (UpdateDependencies_processes envImports (runes "/tmp/aiterate-1")
                  (runes "package main") (runes "package main_test") emptyWorld)).
  vm_compute. reflexivity.
Defined.

(** X20 (workspace). The directory that [PrepareWorkspace] returns is the
    temporary directory it made, and what it did is this and nothing
    else, in the directory: for Go, [go mod init] exited with 0, the
    [go.mod] of the program was written, [go mod tidy] exited with 0; for
    Python, the [requirements.txt] that asks for pytest was written and
    [pip install] exited with 0; for another language, nothing. Nothing
    was removed. What the commands do to the files is not stated. *)
Theorem PrepareWorkspace_ready (env : Env) (language : gostring) (w : World)
    (dir : gostring) :
  resOf (PrepareWorkspace env language) w = inr dir ->
  dir = tempName env (nTemp (counters w))
  /\ logOf (PrepareWorkspace env language) w
     = EvMkdirTemp dir
       :: (if bool_decide (language = runes "go") then
             [EvRun GoModInit dir (Exited 0);
              EvWriteFile dir (runes "go.mod") goMod;
              EvRun GoModTidy dir (Exited 0)]
           else if bool_decide (language = runes "python") then
             [EvWriteFile dir (runes "requirements.txt") (runes "pytest>=7.0.0" ++ newline);
              EvRun PipInstall dir (Exited 0)]
           else []).
Proof.
  unfold resOf, logOf, PrepareWorkspace, initGoModule, initPythonEnv, MkdirTemp,
    WriteFile, RemoveAll, wrapf, try, bind, fileCall, cmdRun, ret, fail.
  simpl.
  destruct (fileOk env _); simpl; [| discriminate].
  case_bool_decide as Hgo; [| case_bool_decide as Hpy]; simpl.
  - set (r1 := process env _).
    pose proof (runErr_exitedZero r1) as Hr1.
    destruct (runErr r1); simpl; [discriminate |].
    destruct (fileOk env _); simpl; [| discriminate].
    set (r2 := process env _).
    pose proof (runErr_exitedZero r2) as Hr2.
    destruct (runErr r2); simpl; [discriminate |].
    intros [= <-]. split; [done |].
    by rewrite (exitedZero_status r1 (proj1 Hr1 eq_refl)),
      (exitedZero_status r2 (proj1 Hr2 eq_refl)).
  - destruct (fileOk env _); simpl; [| discriminate].
    set (r1 := process env _).
    pose proof (runErr_exitedZero r1) as Hr1.
    destruct (runErr r1); simpl; [discriminate |].
    intros [= <-]. split; [done |].
    by rewrite (exitedZero_status r1 (proj1 Hr1 eq_refl)).
  - by intros [= <-].
Qed.

Lemma PrepareWorkspace_ready_witness :
  logOf (PrepareWorkspace envAllFail (runes "go")) emptyWorld
  = [EvMkdirTemp (runes "/tmp/aiterate-1");
     EvRun GoModInit (runes "/tmp/aiterate-1") (Exited 0);
     EvWriteFile (runes "/tmp/aiterate-1") (runes "go.mod") goMod;
     EvRun GoModTidy (runes "/tmp/aiterate-1") (Exited 0)].
Proof.
  destruct (PrepareWorkspace_ready envAllFail (runes "go") emptyWorld
              (runes "/tmp/aiterate-1")) as (_ & H).
  - vm_compute. reflexivity.
  - exact H.
Defined.

(** ** The controller *)



(** X22 (controller and session store). When a run returns, the session
    it made is stored under the identifier handed out, with the
    description and the language of the run, and holds one iteration for
    each run of the tests, numbered 1, 2, ... in order; all are marked as
    failed but, when the run succeeded, the last. *)
Theorem runNew_records_every_test_run (env : Env) (description languageLine : gostring)
    (w : World) (b : bool) :
  resOf (runNew env description languageLine) w = inr b ->
  exists (s : Storage.Session) (k : nat),
    sessionFiles (worldOf (runNew env description languageLine) w)
      !! newUUID env (nUUID (counters w)) = Some s
    /\ Storage.Description s = description
    /\ Storage.Language s = languageOf env languageLine
    /\ length (Storage.Iterations s)
       = countTestRuns (logOf (runNew env description languageLine) w)
    /\ Storage.Number <$> Storage.Iterations s
       = seqZ 1 (Z.of_nat (countTestRuns (logOf (runNew env description languageLine) w)))
    /\ Storage.Success <$> Storage.Iterations s
       = replicate k false ++ (if b then [true] else []).
Proof.
  intros Hres.
  apply runNew_summary in Hres
    as (s & k & _ & _ & _ & _ & _ & Hs & Hd & Hl & Hnum & Hsucc & _ & Hcount & _).
  exists s, k. rewrite Hcount. by split_and!.
Qed.

Lemma runNew_records_every_test_run_witness :
  exists (s : Storage.Session) (k : nat),
    sessionFiles (worldOf (runNew envPassSecond (runes "add two integers") (runes "go"))
                    emptyWorld)
      !! newUUID envPassSecond (nUUID (counters emptyWorld)) = Some s
    /\ Storage.Description s = runes "add two integers"
    /\ Storage.Language s = languageOf envPassSecond (runes "go")
    /\ length (Storage.Iterations s)
       = countTestRuns (logOf (runNew envPassSecond (runes "add two integers") (runes "go"))
                          emptyWorld)
    /\ Storage.Number <$> Storage.Iterations s
       = seqZ 1 (Z.of_nat
                   (countTestRuns
                      (logOf (runNew envPassSecond (runes "add two integers") (runes "go"))
                         emptyWorld)))
    /\ Storage.Success <$> Storage.Iterations s = replicate k false ++ [true].
Proof.
  apply (runNew_records_every_test_run envPassSecond (runes "add two integers") (runes "go")
           emptyWorld true).
  vm_compute. reflexivity.
Defined.

(** X23 (controller). In a run that returns, runs of the tests and
    requests for a joint repair alternate, a run of the tests first. A run
    that succeeded ends with the run of the tests that passed, after fewer
    than 5 repairs; a run that did not succeed made 5 runs of the tests and
    5 repairs, so the sources of the last repair were written and copied
    but never tested. *)
Theorem runNew_alternates_tests_and_repairs (env : Env)
    (description languageLine : gostring) (w : World) (b : bool) :
  resOf (runNew env description languageLine) w = inr b ->
  exists k : nat,
    loopSteps (logOf (runNew env description languageLine) w) = roundsThen k b
    /\ (if b then (k < maxIterations)%nat else k = maxIterations).
Proof.
  intros Hres.
  apply runNew_summary in Hres
    as (_ & k & _ & _ & _ & _ & _ & _ & _ & _ & _ & _ & Hsteps & _ & Hk & _).
  by exists k.
Qed.

Lemma runNew_alternates_tests_and_repairs_witness :
  exists k : nat,
    loopSteps (logOf (runNew envAllFail (runes "add two integers") (runes "go")) emptyWorld)
    = roundsThen k false
    /\ k = maxIterations.
Proof.
  apply (runNew_alternates_tests_and_repairs envAllFail (runes "add two integers")
           (runes "go") emptyWorld false).
  vm_compute. reflexivity.
Defined.

(** X24 (controller). A run that succeeded ends by copying, from the
    workspace to the output directory, the test code and the code that the
    last iteration of its session holds, the one marked as passed, and by
    removing the workspace. *)
Theorem runNew_success_copies_what_passed (env : Env) (description languageLine : gostring)
    (w : World) :
  resOf (runNew env description languageLine) w = inr true ->
  exists (s : Storage.Session) (it : Storage.Iteration) (workDir outputDir : gostring)
         (front : list Event),
    sessionFiles (worldOf (runNew env description languageLine) w)
      !! newUUID env (nUUID (counters w)) = Some s
    /\ last (Storage.Iterations s) = Some it
    /\ Storage.Success it = true
    /\ logOf (runNew env description languageLine) w
       = front ++ [EvReadFile workDir (testFile (languageOf env languageLine));
                   EvWriteFile outputDir (testFile (languageOf env languageLine))
                     (Storage.TestCode it);
                   EvReadFile workDir (implFile (languageOf env languageLine));
                   EvWriteFile outputDir (implFile (languageOf env languageLine))
                     (Storage.Code it);
                   EvRemoveAll workDir].
Proof.
  intros Hres.
  apply runNew_summary in Hres
    as (s & k & workDir & outputDir & testCode & code & front & Hs & _ & _ & _ & Hsucc & _
        & _ & _ & Hlog & Hlast & _).
  destruct (Hlast eq_refl) as (it & Hit & <- & <-).
  exists s, it, workDir, outputDir, front. split_and!; [exact Hs | exact Hit | | exact Hlog].
  apply (f_equal last) in Hsucc. rewrite fmap_last, Hit, last_snoc in Hsucc.
  by injection Hsucc.
Qed.

Lemma runNew_success_copies_what_passed_witness :
  exists (s : Storage.Session) (it : Storage.Iteration) (workDir outputDir : gostring)
         (front : list Event),
    sessionFiles (worldOf (runNew envPassSecond (runes "add two integers") (runes "go"))
                    emptyWorld)
      !! newUUID envPassSecond (nUUID (counters emptyWorld)) = Some s
    /\ last (Storage.Iterations s) = Some it
    /\ Storage.Success it = true
    /\ logOf (runNew envPassSecond (runes "add two integers") (runes "go")) emptyWorld
       = front ++ [EvReadFile workDir (testFile (languageOf envPassSecond (runes "go")));
                   EvWriteFile outputDir (testFile (languageOf envPassSecond (runes "go")))
                     (Storage.TestCode it);
                   EvReadFile workDir (implFile (languageOf envPassSecond (runes "go")));
                   EvWriteFile outputDir (implFile (languageOf envPassSecond (runes "go")))
                     (Storage.Code it);
                   EvRemoveAll workDir].
Proof.
  apply (runNew_success_copies_what_passed envPassSecond (runes "add two integers")
           (runes "go") emptyWorld).
  vm_compute. reflexivity.
Defined.

(** X25 (controller and workspace). Every temporary directory that a run
    made is removed before the run returns, on every way out but one: the
    language is Python and the run returns "failed to prepare
    workspace". *)
Theorem runNew_workspace_removed_or_prepare_failed (env : Env)
    (description languageLine : gostring) (w : World) :
  cleaned (logOf (runNew env description languageLine) w)
  \/ (languageOf env languageLine = runes "python"
      /\ exists e, resOf (runNew env description languageLine) w
                   = inl (Wrapf "failed to prepare workspace: %w" e)).
Proof.
  unfold runNew. fold (languageOf env languageLine).
  set (language := languageOf env languageLine).
  destruct (hasApiKey env); simpl negb; cbv iota; [| left; by apply cleaned_none].
  destruct (hasHomeDir env); simpl negb; cbv iota; [| left; by apply cleaned_none].
  rewrite logOf_bind, resOf_bind.
  pose proof (emits_NewStorage env notMkdirTemp w) as Hns.
  rewrite logOf_wrapf.
  destruct (resOf _ w) as [e | []].
  { left. rewrite app_nil_r. by apply cleaned_none. }
  set (w1 := worldOf _ w). clearbody w1.
  case_bool_decide; [left; rewrite app_nil_r; by apply cleaned_none |].
  case_bool_decide; [left; rewrite app_nil_r; by apply cleaned_none |].
  destruct (supportedLanguages language); simpl negb; cbv iota;
    [| left; rewrite app_nil_r; by apply cleaned_none].
  rewrite logOf_bind, resOf_bind, logOf_wrapf.
  pose proof (emits_CreateSession env notMkdirTemp description language w1) as Hcs.
  destruct (resOf (wrapf _ (CreateSession env description language)) w1) as [e | session].
  { left. rewrite app_nil_r. by apply cleaned_after, cleaned_none. }
  set (w2 := worldOf _ w1). clearbody w2.
  rewrite logOf_bind, resOf_bind, logOf_wrapf, resOf_wrapf, worldOf_wrapf.
  pose proof (PrepareWorkspace_made env language w2) as Hpw.
  destruct (resOf (PrepareWorkspace env language) w2) as [e | workDir].
  { rewrite app_nil_r. destruct Hpw as [Hpy | Hclean].
    - right. split; [exact Hpy | by exists e].
    - left. do 2 (apply cleaned_after; [done |]). exact Hclean. }
  left. do 2 (apply cleaned_after; [done |]).
  rewrite logOf_defer.
  set (body := bind _ _).
  pose proof (body_notMkdirTemp env session description language workDir
                (worldOf (PrepareWorkspace env language) w2)) as Hbody.
  fold body in Hbody.
  intros dir. rewrite !elem_of_app. intros [Hin | [Hin | Hin]].
  - apply Hpw in Hin as ->. do 2 right. apply list_elem_of_here.
  - by apply notMkdirTemp_not_in in Hin.
  - unfold logOf, RemoveAll in Hin. simpl in Hin.
    apply list_elem_of_singleton in Hin. discriminate.
Qed.

(** X26 (controller and generator). A run never asks the model for a
    repair of the implementation alone: the prompt of [FixImplementation]
    is never sent, every repair is a joint one. *)
Theorem runNew_never_repairs_implementation_alone (env : Env)
    (description languageLine : gostring) (w : World) :
  Forall (fun e => isSingleRepair e = false) (logOf (runNew env description languageLine) w).
Proof.
  revert w. change (emits (fun e => isSingleRepair e = false)
                      (runNew env description languageLine)).
  unfold runNew, PrepareWorkspace, initGoModule, initPythonEnv, GenerateDirectoryName,
    GenerateTests, GenerateImplementation.
  repeat first
    [ progress cbv zeta
    | apply emits_iterationLoop_repairs; [done | done | done]
    | apply emits_writeFiles; [done | done | done]
    | apply emits_copyFinalFiles; [done | done]
    | emits_step ];
    done.
Qed.

(** ** The directory name and the output directory *)

(** X27 (directory name). A name that is clean already is returned as it
    is: a letter of [a-z] followed by runes of [a-z0-9-], with no two
    hyphens in a row and no hyphen at the end. So the length of the name
    is not limited. *)
Theorem cleanDirectoryName_keeps_clean_name (lower : rune -> rune) (c : rune)
    (rest : gostring) :
  isLetter c = true -> allSlug rest ->
  Contains (c :: rest) [hyphen; hyphen] = false ->
  last (c :: rest) <> Some hyphen ->
  cleanDirectoryName lower (c :: rest) = c :: rest.
Proof.
  intros Hc Hrest Hdouble Hlast.
  assert (Hcs : isSlugRune c = true).
  { unfold isLetter in Hc. unfold isSlugRune. by rewrite Hc. }
  assert (Hall : allSlug (c :: rest)) by (by constructor).
  assert (Hne : c <> hyphen).
  { intros ->. discriminate. }
  assert (Htrim : TrimSpace (c :: rest) = c :: rest).
  { apply TrimFunc_fixed.
    - intros a [= <-]. by apply isSlugRune_not_space.
    - intros b Hb. apply isSlugRune_not_space.
      apply last_Some in Hb as (l' & Hl'). rewrite Hl' in Hall.
      apply Forall_app in Hall as [_ Hb]. by apply Forall_cons in Hb as [Hb _]. }
  assert (Hstrip : stripCodeBlock (c :: rest) = c :: rest).
  { unfold stripCodeBlock. rewrite Htrim.
    assert (Hp : HasPrefix (c :: rest) fence = false).
    { unfold fence. cbn [HasPrefix]. unfold isLetter in Hc.
      replace (c =? 96) with false by lia. reflexivity. }
    rewrite Hp. exact Htrim. }
  unfold cleanDirectoryName. rewrite Hstrip, Htrim. unfold ToLower.
  rewrite (Map_slug (toLowerRune lower)) by (by (try apply toLowerRune_slug)).
  rewrite (Map_slug slugRune) by (by (try apply slugRune_fixed)).
  rewrite collapseHyphens_step, Hdouble.
  assert (Hth : Trim (c :: rest) [hyphen] = c :: rest).
  { apply TrimFunc_fixed.
    - intros a [= <-]. apply bool_decide_eq_false. by intros ->%list_elem_of_singleton.
    - intros b Hb. apply bool_decide_eq_false. intros ->%list_elem_of_singleton. done. }
  rewrite Hth. unfold isLetter in Hc. by rewrite Hc.
Qed.

Lemma cleanDirectoryName_keeps_clean_name_witness :
  cleanDirectoryName (fun r => r) (97 :: runes "dd-two-integers-and-return-the-sum-of-both")
  = 97 :: runes "dd-two-integers-and-return-the-sum-of-both".
Proof.
  apply cleanDirectoryName_keeps_clean_name.
  - reflexivity.
  - apply (bool_decide_unpack _). vm_compute. exact I.
  - vm_compute. reflexivity.
  - vm_compute. discriminate.
Defined.

(** X28 (controller and directory name). Where the output goes: a run
    that returns copies the two files to the directory named by the first
    answer of the model, cleaned by [GenerateDirectoryName]; to
    [generated-function] when that request failed; and to the current
    directory when the cleaned name is empty. *)
Theorem runNew_output_directory (env : Env) (description languageLine : gostring)
    (w : World) (b : bool) :
  resOf (runNew env description languageLine) w = inr b ->
  exists (workDir testCode code : gostring) (front : list Event),
    logOf (runNew env description languageLine) w
    = front ++ [EvReadFile workDir (testFile (languageOf env languageLine));
                EvWriteFile (outputDirFor env description w)
                  (testFile (languageOf env languageLine)) testCode;
                EvReadFile workDir (implFile (languageOf env languageLine));
                EvWriteFile (outputDirFor env description w)
                  (implFile (languageOf env languageLine)) code;
                EvRemoveAll workDir].
Proof.
  intros Hres.
  apply runNew_summary in Hres
    as (_ & _ & workDir & outputDir & testCode & code & front & _ & _ & _ & _ & _ & _
        & _ & _ & Hlog & _ & <-).
  by exists workDir, testCode, code, front.
Qed.

Lemma runNew_output_directory_witness :
  outputDirFor envAllFail (runes "add two integers") emptyWorld = runes "add-two"
  /\ exists (workDir testCode code : gostring) (front : list Event),
      logOf (runNew envAllFail (runes "add two integers") (runes "go")) emptyWorld
      = front ++ [EvReadFile workDir (testFile (languageOf envAllFail (runes "go")));
                  EvWriteFile (outputDirFor envAllFail (runes "add two integers") emptyWorld)
                    (testFile (languageOf envAllFail (runes "go"))) testCode;
                  EvReadFile workDir (implFile (languageOf envAllFail (runes "go")));
                  EvWriteFile (outputDirFor envAllFail (runes "add two integers") emptyWorld)
                    (implFile (languageOf envAllFail (runes "go"))) code;
                  EvRemoveAll workDir].
Proof.
  split; [vm_compute; reflexivity |].
  apply (runNew_output_directory envAllFail (runes "add two integers") (runes "go")
           emptyWorld false).
  vm_compute. reflexivity.
Defined.

(** ** Examples *)

Example split_ex :
  Split (runes "a---b---c") (runes "---") = [runes "a"; runes "b"; runes "c"].
Proof. vm_compute. reflexivity. Qed.

Example replace_ex :
  ReplaceAll (runes "a---b--c") (runes "--") (runes "-") = runes "a--b-c".
Proof. vm_compute. reflexivity. Qed.

Example strip_ex :
  stripCodeBlock (runes "```go" ++ newline ++ runes "x := 1" ++ newline ++ runes "```")
  = runes "x := 1".
Proof. vm_compute. reflexivity. Qed.

Example slug_ex :
  cleanDirectoryName (fun r => r) (runes "  9 Hello,  World!! ") = runes "fn-9-hello-world".
Proof. vm_compute. reflexivity. Qed.

Example exhausted_ex :
  resOf (runNew envAllFail (runes "add two integers") (runes "go")) emptyWorld = inr false.
Proof. vm_compute. reflexivity. Qed.

Example pass_second_ex :
  resOf (runNew envPassSecond (runes "add two integers") (runes "go")) emptyWorld = inr true
  /\ countTestRuns (logOf (runNew envPassSecond (runes "add two integers") (runes "go"))
                      emptyWorld) = 2%nat.
Proof. vm_compute. done. Qed.
